(** * makeitrain: proxy pools, retry, stock monitoring, notifier and MCP tools

    A shallow embedding of the TypeScript of the repository:

    - [RotatingProxyPool], [ProxyHealthChecker] and [BanDetector]
      (the proxy strategy guide),
    - [withRetry] and [monitorStock] (the retailer guide),
    - [notify] and the monitoring loop of [monitor] (src/test-costco.ts),
    - [getPage], [launchBrowser], [closeBrowser] (src/browser/launcher.ts),
    - [handleToolCall] and the CallTool request handler (src/mcp/server.ts).

    Times and durations are integer milliseconds ([Z]); a value drawn by
    [Math.random()] and the seconds handed to the [wait] tool are exact
    rationals ([Q]).  Rounding of IEEE doubles is not modelled. *)

From Stdlib Require Import ZArith QArith Qminmax Qround Qabs Ascii Lia Lqa.
From stdpp Require Import base option list strings gmap.

Close Scope Q_scope.
Open Scope Z_scope.

(** ** JavaScript values shared by the modules *)

Module Js.

(** An [Error] object; only its [message] is ever read by the code. *)
Record Error := mkError { message : string }.

(** The completion of an (awaited) call: a value or a thrown error. *)
Inductive completion (A : Type) : Type :=
| Return (a : A)
| Throw (e : Error).
Arguments Return {A} a.
Arguments Throw {A} e.

(** A [Date]: [None] is the Invalid Date, whose time value is NaN. *)
Definition Date := option Z.

(** Largest time value of a [Date], in ms (ECMAScript TimeClip). *)
Definition maxTime : Z := 8640000000000000.

(** [new Date(t)] for an integral number of milliseconds [t]. *)
Definition mkDate (t : Z) : Date :=
  if Z.abs t <=? maxTime then Some t else None.

(** [d > new Date()] when the clock reads [now]: the comparison of two
    dates compares their time values, and is false on NaN. *)
Definition date_gt_now (d : Date) (now : Z) : bool :=
  match d with
  | Some u => now <? u
  | None => false
  end.

(** An array index held in a [number] field. *)
Inductive index : Type :=
| Idx (n : nat)
| IdxNaN.

(** [arr[i]]; [None] is [undefined]. *)
Definition array_get {A} (arr : list A) (i : index) : option A :=
  match i with
  | Idx n => arr !! n
  | IdxNaN => None
  end.

(** [(i + 1) % len] for [len = arr.length]; the remainder by 0 is NaN. *)
Definition succ_mod (i : index) (len : nat) : index :=
  match i, len with
  | Idx n, S _ => Idx (Nat.modulo (S n) len)
  | _, _ => IdxNaN
  end.

(** *** Numbers *)

(** A [number]: a finite value, an infinity or NaN. *)
Inductive number : Type :=
| Fin (q : Q)
| PosInf
| NegInf
| NaN.

(** The values that can reach a numeric argument of a tool: JSON has
    numbers, booleans and null, and a missing field reads [undefined].
    Strings and objects are not modelled. *)
Inductive value : Type :=
| VUndefined
| VNull
| VBool (b : bool)
| VNum (n : number).

Definition ToNumber (v : value) : number :=
  match v with
  | VUndefined => NaN
  | VNull => Fin 0
  | VBool b => Fin (if b then 1 else 0)
  | VNum n => n
  end.

(** [Math.max(a, b)]: NaN if either argument is NaN. *)
Definition Math_max (a b : number) : number :=
  match a, b with
  | NaN, _ | _, NaN => NaN
  | PosInf, _ | _, PosInf => PosInf
  | NegInf, x | x, NegInf => x
  | Fin p, Fin q => if Qle_bool p q then Fin q else Fin p
  end.

(** [Math.min(a, b)]: NaN if either argument is NaN. *)
Definition Math_min (a b : number) : number :=
  match a, b with
  | NaN, _ | _, NaN => NaN
  | NegInf, _ | _, NegInf => NegInf
  | PosInf, x | x, PosInf => x
  | Fin p, Fin q => if Qle_bool p q then Fin p else Fin q
  end.

(** [a * k] for a finite [k]. *)
Definition times (a : number) (k : Q) : number :=
  match a with
  | Fin q => Fin (q * k)
  | NaN => NaN
  | PosInf =>
      match (k ?= 0)%Q with Gt => PosInf | Lt => NegInf | Eq => NaN end
  | NegInf =>
      match (k ?= 0)%Q with Gt => NegInf | Lt => PosInf | Eq => NaN end
  end.

(** A string is truthy when it is not empty. *)
Definition truthy (s : string) : bool :=
  match s with
  | EmptyString => false
  | String _ _ => true
  end.

End Js.

(** ** Programs with state, a trace and exceptions *)

Module Eff.
Import Js.

(** A program over a store [S] that emits events [Ev] and completes
    with a value or a thrown error.  What was written to the store and
    to the trace before a throw stays written. *)
Definition prog (S Ev A : Type) : Type := S -> S * list Ev * completion A.

Section Prog.
Context {S Ev : Type}.

Definition pure {A} (a : A) : prog S Ev A :=
  fun s => (s, [], Return a).

Definition bind {A B} (m : prog S Ev A) (f : A -> prog S Ev B) : prog S Ev B :=
  fun s =>
    match m s with
    | (s1, t1, Return a) =>
        match f a s1 with
        | (s2, t2, r) => (s2, t1 ++ t2, r)
        end
    | (s1, t1, Throw e) => (s1, t1, Throw e)
    end.

(** [throw new Error(msg)] *)
Definition throw {A} (msg : string) : prog S Ev A :=
  fun s => (s, [], Throw (mkError msg)).

(** [await] of an external call whose completion is [c]. *)
Definition await {A} (c : completion A) : prog S Ev A :=
  fun s => (s, [], c).

Definition emit (ev : Ev) : prog S Ev unit :=
  fun s => (s, [ev], Return tt).

Definition get : prog S Ev S :=
  fun s => (s, [], Return s).

Definition put (s' : S) : prog S Ev unit :=
  fun _ => (s', [], Return tt).

(** [try { body } catch (error) { handler error }] *)
Definition tryCatch {A} (body : prog S Ev A) (handler : Error -> prog S Ev A)
  : prog S Ev A :=
  fun s =>
    match body s with
    | (s1, t1, Throw e) =>
        match handler e s1 with
        | (s2, t2, r) => (s2, t1 ++ t2, r)
        end
    | done => done
    end.

(** [promise.catch(() => fallback)] *)
Definition orElse {A} (body : prog S Ev A) (fallback : A) : prog S Ev A :=
  tryCatch body (fun _ => pure fallback).

End Prog.

#[global] Instance prog_ret {S Ev} : MRet (prog S Ev) := fun _ a => pure a.
#[global] Instance prog_bind {S Ev} : MBind (prog S Ev) := fun _ _ f m => bind m f.

End Eff.

(** ** Proxy pools (proxy strategy guide) *)

Module ProxyPool.
Import Js.

Inductive ProxyType := residential | isp | datacenter.
Inductive ProxyStatus := active | banned | cooldown.

(** [interface ProxyConfig]; the field [id] is named [px_id] here. *)
Record ProxyConfig := mkProxy {
  px_id : string;
  px_type : ProxyType;
  host : string;
  port : Z;
  username : option string;
  password : option string;
  location : string;
  lastUsed : Date;
  failureCount : Z;
  status : ProxyStatus
}.

(** *** class RotatingProxyPool *)

Record RotatingProxyPool := mkRotating {
  proxies : list ProxyConfig;
  currentIndex : index
}.

(** [getNext()]: the proxy returned ([None] is [undefined]) and the pool
    after the call. *)
Definition getNext (s : RotatingProxyPool) : option ProxyConfig * RotatingProxyPool :=
  let proxy := array_get (proxies s) (currentIndex s) in
  (proxy, mkRotating (proxies s) (succ_mod (currentIndex s) (length (proxies s)))).

(** [n] calls of [getNext] one after the other, none of them followed
    by a release (the class has no such operation). *)
Fixpoint getNextMany (n : nat) (s : RotatingProxyPool)
  : list (option ProxyConfig) * RotatingProxyPool :=
  match n with
  | O => ([], s)
  | S n' =>
      let '(p, s1) := getNext s in
      let '(ps, s2) := getNextMany n' s1 in
      (p :: ps, s2)
  end.

(** *** class ProxyHealthChecker *)

Record ProxyHealth := mkHealth {
  proxyId : string;
  latency : Z;
  working : bool;
  lastChecked : Z;
  consecutiveFailures : Z
}.

(** What the [fetch] of [checkProxy] did: it answered ([response.ok] and
    the clock when it did) or it threw. *)
Inductive fetch_outcome :=
| Answered (ok : bool) (finished : Z)
| Failed.

Section HealthChecker.

(** [getFailures] is called by [checkProxy] but its body is not part
    of the guide: it is a parameter. *)
Variable getFailures : gmap string ProxyHealth -> string -> Z.

Definition checkProxy (start : Z) (proxy : ProxyConfig) (o : fetch_outcome)
    (checkedAt : Z) (healthMap : gmap string ProxyHealth)
  : ProxyHealth * gmap string ProxyHealth :=
  let '(working, latency) :=
    match o with
    | Answered ok finished => (ok, finished - start)
    | Failed => (false, 0)
    end in
  let health := {|
    proxyId := px_id proxy;
    latency := latency;
    working := working;
    lastChecked := checkedAt;
    consecutiveFailures :=
      if working then 0 else getFailures healthMap (px_id proxy) + 1
  |} in
  (health, <[px_id proxy := health]> healthMap).

End HealthChecker.

Definition isProxyHealthy (healthMap : gmap string ProxyHealth) (proxyId : string) : bool :=
  match healthMap !! proxyId with
  | None => true
  | Some health =>
      working health && (consecutiveFailures health <? 3) && (latency health <? 5000)
  end.

(** *** class BanDetector *)

Record Ban := mkBan { retailer : string; until : Date }.

(** The fields of [BanDetector]: [bannedProxies], the health checker's
    map and the proxies listed by [this.pool.getAll()]. *)
Record BanDetector := mkDetector {
  bannedProxies : gmap string (list Ban);
  healthMap : gmap string ProxyHealth;
  pool : list ProxyConfig
}.

(** [this.bannedProxies.get(proxyId) || []] *)
Definition bansOf (st : BanDetector) (proxyId : string) : list Ban :=
  default [] (bannedProxies st !! proxyId).

Definition markAsBanned (now : Z) (proxyId retailer : string) (durationMs : Z)
    (st : BanDetector) : BanDetector :=
  let bans := bansOf st proxyId ++ [mkBan retailer (mkDate (now + durationMs))] in
  mkDetector (<[proxyId := bans]> (bannedProxies st)) (healthMap st) (pool st).

Definition banHolds (now : Z) (r : string) (ban : Ban) : bool :=
  bool_decide (retailer ban = r) && date_gt_now (until ban) now.

Definition isBannedFor (now : Z) (st : BanDetector) (proxyId retailer : string) : bool :=
  existsb (banHolds now retailer) (bansOf st proxyId).

(** The test of the [if] in the loop of [getAvailableProxy]. *)
Definition usable (now : Z) (st : BanDetector) (retailer : string) (proxy : ProxyConfig) : bool :=
  negb (isBannedFor now st (px_id proxy) retailer)
  && isProxyHealthy (healthMap st) (px_id proxy).

(** The [for ... of] loop with its early [return]. *)
Fixpoint firstUsable (now : Z) (st : BanDetector) (retailer : string)
    (ps : list ProxyConfig) : option ProxyConfig :=
  match ps with
  | [] => None
  | proxy :: rest =>
      if usable now st retailer proxy then Some proxy
      else firstUsable now st retailer rest
  end.

Definition getAvailableProxy (now : Z) (st : BanDetector) (retailer : string)
  : option ProxyConfig :=
  firstUsable now st retailer (pool st).

(** [n] calls of [getAvailableProxy] one after the other while the clock
    reads [now]; the method writes no field of the detector. *)
Fixpoint getAvailableMany (n : nat) (now : Z) (st : BanDetector) (retailer : string)
  : list (option ProxyConfig) :=
  match n with
  | O => []
  | S n' => getAvailableProxy now st retailer :: getAvailableMany n' now st retailer
  end.

(** *** Operations that change what a detector answers *)

Inductive operation :=
| MarkAsBanned (now : Z) (proxyId retailer : string) (durationMs : Z)
| CheckProxy (start : Z) (proxy : ProxyConfig) (o : fetch_outcome) (checkedAt : Z).

Section Operations.
Variable getFailures : gmap string ProxyHealth -> string -> Z.

Definition perform (st : BanDetector) (op : operation) : BanDetector :=
  match op with
  | MarkAsBanned now proxyId retailer durationMs =>
      markAsBanned now proxyId retailer durationMs st
  | CheckProxy start proxy o checkedAt =>
      mkDetector (bannedProxies st)
        (snd (checkProxy getFailures start proxy o checkedAt (healthMap st)))
        (pool st)
  end.

Definition performAll (st : BanDetector) (ops : list operation) : BanDetector :=
  foldl perform st ops.

End Operations.

(** *** The words of the specification *)

(** Of the proxies handed out and not released, no two are the same
    resource, and there are at most as many as the pool holds. *)
Definition exclusiveLeases (poolSize : nat) (handed : list (option ProxyConfig)) : Prop :=
  NoDup handed /\ (length handed <= poolSize)%nat.

(** The proxy selected has the lowest failure count, measured by
    [failures], among the eligible proxies. *)
Definition lowestFailureFirst (failures : ProxyConfig -> Z)
    (eligible : list ProxyConfig) (selected : option ProxyConfig) : Prop :=
  forall p q, selected = Some p -> q ∈ eligible -> failures p <= failures q.

(** The proxies that pass the test of [getAvailableProxy]. *)
Definition eligible (now : Z) (st : BanDetector) (retailer : string) : list ProxyConfig :=
  filter (fun p => usable now st retailer p = true) (pool st).

(** The failure count kept by the health checker for a proxy. *)
Definition recentFailures (st : BanDetector) (p : ProxyConfig) : Z :=
  match healthMap st !! px_id p with
  | Some health => consecutiveFailures health
  | None => 0
  end.

(** *** Example data: the two proxies of the configuration file *)

Definition res1 : ProxyConfig :=
  mkProxy "res-1" residential "gate.smartproxy.com" 7000 (Some "user") (Some "pass")
    "US" None 2 active.

Definition isp1 : ProxyConfig :=
  mkProxy "isp-1" isp "isp.oxylabs.io" 8001 (Some "user") (Some "pass")
    "US" None 0 active.

Definition twoProxies : list ProxyConfig := [res1; isp1].

(** No ban; [res-1] answered its last check after two failed ones. *)
Definition twoProxyDetector : BanDetector :=
  mkDetector ∅ {[ "res-1" := mkHealth "res-1" 120 true 0 2 ]} twoProxies.

(** A [getFailures] that reads the count of the last check. *)
Definition lastFailures (healthMap : gmap string ProxyHealth) (proxyId : string) : Z :=
  match healthMap !! proxyId with
  | Some health => consecutiveFailures health
  | None => 0
  end.

End ProxyPool.

(** ** Error recovery (retailer guide): withRetry *)

Module Retry.
Import Js.

(** What a caller can observe of a run, in order. *)
Inductive event :=
| Invoke (attempt : Z)                 (* [await fn()] in iteration [attempt] *)
| Log (attempt : Z) (msg : string)     (* [console.log] of the failure *)
| Sleep (ms : Z).                      (* [setTimeout(r, ms)] awaited *)

(** How the promise of [withRetry] settles.  [Rejected None] is
    [throw lastError] with [lastError] never assigned.  [OutOfFuel]
    belongs to the model only: the loop was cut before it ended. *)
Inductive outcome (T : Type) :=
| Resolved (v : T)
| Rejected (lastError : option Error)
| OutOfFuel.
Arguments Resolved {T} v.
Arguments Rejected {T} lastError.
Arguments OutOfFuel {T}.

Section WithRetry.
Context {T : Type}.

(** [fn] is effectful: [fn k] is how its [k]-th invocation
    (counting from 0) completes. *)
Variable fn : nat -> completion T.
Variable maxAttempts : Z.
Variable delayMs : Z.

(** The [for] loop, entered with the loop variable [attempt], with
    [ncalls] invocations of [fn] behind it and the current value of
    [lastError]. *)
Fixpoint retryLoop (fuel : nat) (attempt : Z) (ncalls : nat) (lastError : option Error)
  : outcome T * list event :=
  match fuel with
  | O => (OutOfFuel, [])
  | S fuel' =>
      if attempt <=? maxAttempts then
        match fn ncalls with
        | Return v => (Resolved v, [Invoke attempt])
        | Throw error =>
            let pause :=
              if attempt <? maxAttempts then [Sleep (delayMs * attempt)] else [] in
            let '(o, tr) := retryLoop fuel' (attempt + 1) (S ncalls) (Some error) in
            (o, Invoke attempt :: Log attempt (message error) :: pause ++ tr)
        end
      else (Rejected lastError, [])
  end.

(** The loop runs at most [maxAttempts] iterations; one more unit of
    fuel lets it reach its exit test. *)
Definition withRetry : outcome T * list event :=
  retryLoop (S (Z.to_nat maxAttempts)) 1 0 None.

End WithRetry.

(** Default values of the optional parameters. *)
Definition defaultMaxAttempts : Z := 3.
Definition defaultDelayMs : Z := 1000.

Definition invocations (tr : list event) : list Z :=
  omap (fun ev => match ev with Invoke a => Some a | _ => None end) tr.

Definition sleeps (tr : list event) : list Z :=
  omap (fun ev => match ev with Sleep ms => Some ms | _ => None end) tr.

(** An [fn] that throws at every invocation. *)
Definition alwaysFails : nat -> completion unit :=
  fun _ => Throw (mkError "timeout").

(** The words of the specification: the delays grow exponentially and
    are capped at a ceiling.  Such a sequence is [min cap (base * f^k)]
    for a factor [f > 1]; whatever the factor, every delay is at most
    the ceiling, and three consecutive delays of which the last is
    below the ceiling are in geometric progression. *)
Definition exponentialCapped (delays : list Z) : Prop :=
  exists cap : Z,
    Forall (fun d => d <= cap) delays /\
    forall (k : nat) (a b c : Z),
      delays !! k = Some a -> delays !! S k = Some b -> delays !! S (S k) = Some c ->
      c < cap -> a < b /\ a * c = b * b.

End Retry.

(** ** Stock monitoring (retailer guide): monitorStock *)

Module Monitor.
Import Js.

Record StockStatus := mkStatus { inStock : bool; buttonText : option string }.

Inductive event :=
| CheckStock (n : nat)     (* the [n]-th [await module.checkStock(...)] *)
| Sleep (ms : Q).          (* [setTimeout(r, ms)] awaited *)

(** [Running] belongs to the model only: the loop is still going when
    the fuel is spent. *)
Inductive outcome :=
| Resolved (status : StockStatus)
| Rejected (e : Error)
| Running.

Section MonitorStock.

(** [checkStock n]: how the [n]-th stock check completes;
    [random n]: the [n]-th value drawn by [Math.random()]. *)
Variable checkStock : nat -> completion StockStatus.
Variable random : nat -> Q.
Variable checkInterval : Q.

Definition jitter (n : nat) : Q := (random n * 2000 - 1000)%Q.

(** [while (true)], entered for the [n]-th time. *)
Fixpoint monitorLoop (fuel : nat) (n : nat) : outcome * list event :=
  match fuel with
  | O => (Running, [])
  | S fuel' =>
      match checkStock n with
      | Throw e => (Rejected e, [CheckStock n])
      | Return status =>
          if inStock status then (Resolved status, [CheckStock n])
          else
            let '(o, tr) := monitorLoop fuel' (S n) in
            (o, CheckStock n :: Sleep (checkInterval + jitter n)%Q :: tr)
      end
  end.

Definition monitorStock (fuel : nat) : outcome * list event :=
  monitorLoop fuel 0.

End MonitorStock.

Definition defaultCheckInterval : Q := 5000%Q.

Definition sleeps (tr : list event) : list Q :=
  omap (fun ev => match ev with Sleep ms => Some ms | _ => None end) tr.

Definition checks (tr : list event) : list nat :=
  omap (fun ev => match ev with CheckStock n => Some n | _ => None end) tr.

(** The [n]-th check completes and reports out of stock. *)
Definition outOfStockAt (checkStock : nat -> completion StockStatus) (n : nat) : Prop :=
  exists status, checkStock n = Return status /\ inStock status = false.

(** The words of the specification: monitoring is bounded, the run ends
    after some number of checks. *)
Definition bounded (run : nat -> outcome * list event) : Prop :=
  exists fuel : nat, fst (run fuel) <> Running.

Definition outOfStock : StockStatus := mkStatus false None.
Definition available : StockStatus := mkStatus true (Some "Add to Cart").

(** A product that never comes in stock. *)
Definition neverInStock : nat -> completion StockStatus :=
  fun _ => Return outOfStock.

(** Out of stock three times, then in stock. *)
Definition thirdTimeLucky : nat -> completion StockStatus :=
  fun n => if (n <? 3)%nat then Return outOfStock else Return available.

(** [Math.random()] returning 0.5 at every call. *)
Definition half : nat -> Q := fun _ => (1 # 2)%Q.

End Monitor.

(** ** src/test-costco.ts: notify and the monitoring loop *)

Module Costco.
Import Js Eff.

(** The fields of [CONFIG] read by [notify] and by the loop. *)
Record Config := mkConfig {
  targetUrl : string;
  checkIntervalMs : Z;
  discordWebhook : string
}.

(** [CONFIG] for given values of TARGET_URL and DISCORD_WEBHOOK. *)
Definition CONFIG (TARGET_URL DISCORD_WEBHOOK : string) : Config :=
  {| targetUrl := TARGET_URL;
     checkIntervalMs := 30000;
     discordWebhook := DISCORD_WEBHOOK |}.

(** What the script does that can be seen from outside.  The console
    lines of the loop are cut down to their constant words (time stamp,
    counter and button text left out); those of [notify] are whole. *)
Inductive event :=
| ConsoleLog (s : string)
| ConsoleError (s : string)
| Fetch (url body : string)          (* the POST to the webhook *)
| CheckStock (checkCount : Z)
| Screenshot
| AddToCart
| Checkout
| WaitForTimeout (ms : Z).

Section Notify.
Variable cfg : Config.

(** The [content] of the message posted to the webhook. *)
Definition content (message : string) (urgent : bool) : string :=
  if urgent then "@everyone 🚨 " +:+ message else message.

(** [notify(message, urgent)]; [sent] is how the [fetch] completes,
    should it be issued. *)
Definition notify (sent : completion unit) (message : string) (urgent : bool)
  : prog unit event unit :=
  emit (ConsoleLog ("📢 " +:+ message));;
  if truthy (discordWebhook cfg) then
    tryCatch
      (emit (Fetch (discordWebhook cfg) (content message urgent));;
       await sent)
      (fun e => emit (ConsoleError "Failed to send Discord notification"))
  else mret tt.

End Notify.

(** The world seen by the monitoring loop, by iteration: the result of
    [checkStock], of the screenshot, of [addToCart] and of [checkout],
    of the webhook request and of the two [page.waitForTimeout]. *)
Record World := mkWorld {
  checkStock : Z -> completion (bool * option string);
  screenshot : Z -> completion unit;
  addToCart : Z -> completion bool;
  checkout : Z -> completion bool;
  webhook : Z -> completion unit;
  keepOpen : Z -> completion unit;
  pause : Z -> completion unit
}.

(** How the loop is left.  It has no [break] and no [return]: it is
    left by an exception, or not at all ([StillRunning], when the
    fuel of the model is spent). *)
Inductive loop_outcome :=
| Thrown (e : Error)
| StillRunning.

Section Monitor.
Variable cfg : Config.
Variable w : World.

(** One iteration of [while (true)], [checkCount] already incremented. *)
Definition iteration (checkCount : Z) : prog unit event unit :=
  emit (ConsoleLog "Check");;
  emit (CheckStock checkCount);;
  '(inStock, buttonText) ← await (checkStock w checkCount);
  (if inStock : bool then
     emit (ConsoleLog "IN STOCK");;
     notify cfg (webhook w checkCount) ("🎉 ITEM IN STOCK! " +:+ targetUrl cfg) true;;
     emit Screenshot;;
     await (screenshot w checkCount);;
     emit AddToCart;;
     addedToCart ← await (addToCart w checkCount);
     if addedToCart : bool then
       emit Checkout;;
       checkoutReady ← await (checkout w checkCount);
       if checkoutReady : bool then
         emit (ConsoleLog "Checkout ready");;
         emit (WaitForTimeout 300000);;
         await (keepOpen w checkCount)
       else mret tt
     else mret tt
   else
     emit (ConsoleLog "Out of stock"));;
  emit (WaitForTimeout (checkIntervalMs cfg));;
  await (pause w checkCount).

(** [let checkCount = 0; while (true) { checkCount++; ... }] *)
Fixpoint monitorLoop (fuel : nat) (checkCount : Z) : loop_outcome * list event :=
  match fuel with
  | O => (StillRunning, [])
  | S fuel' =>
      match iteration (checkCount + 1) tt with
      | (_, tr, Throw e) => (Thrown e, tr)
      | (_, tr, Return _) =>
          let '(o, tr') := monitorLoop fuel' (checkCount + 1) in
          (o, tr ++ tr')
      end
  end.

End Monitor.

(** A world in which the product never comes in stock and no call
    throws. *)
Definition quietWorld : World :=
  {| checkStock := fun _ => Return (false, None);
     screenshot := fun _ => Return tt;
     addToCart := fun _ => Return true;
     checkout := fun _ => Return true;
     webhook := fun _ => Return tt;
     keepOpen := fun _ => Return tt;
     pause := fun _ => Return tt |}.

(** A world in which the fourth check finds the product in stock and
    the webhook request fails. *)
Definition fourthCheckWorld : World :=
  {| checkStock := fun n => Return (3 <? n, if 3 <? n then Some "Add to Cart" else None);
     screenshot := fun _ => Return tt;
     addToCart := fun _ => Return true;
     checkout := fun _ => Return false;
     webhook := fun _ => Throw (mkError "fetch failed");
     keepOpen := fun _ => Return tt;
     pause := fun _ => Return tt |}.

(** The words of the specification: monitoring is bounded, the loop is
    left after some number of iterations. *)
Definition bounded (run : nat -> loop_outcome * list event) : Prop :=
  exists fuel : nat, fst (run fuel) <> StillRunning.

Definition waits (tr : list event) : list Z :=
  omap (fun ev => match ev with WaitForTimeout ms => Some ms | _ => None end) tr.

Definition checks (tr : list event) : list Z :=
  omap (fun ev => match ev with CheckStock n => Some n | _ => None end) tr.

Definition cartAttempts (tr : list event) : nat :=
  length (omap (fun ev => match ev with AddToCart => Some tt | _ => None end) tr).

End Costco.

(** ** src/test-costco.ts: notify while the request is pending *)

Module Awaiting.
Import Js.

(** A promise as the code that awaits it finds it: settled, with a
    completion, or not settled. *)
Inductive promise (A : Type) :=
| Settled (c : completion A)
| Pending.
Arguments Settled {A} c.
Arguments Pending {A}.

(** An async function run as far as it goes: the events so far and the
    state of the promise it returned.  It is [Pending] when the function
    is suspended at the [await] of a pending promise: nothing that
    follows that [await] has run. *)
Definition async (A : Type) : Type := list Costco.event * promise A.

Definition ret {A} (a : A) : async A := ([], Settled (Return a)).

Definition bind {A B} (m : async A) (f : A -> async B) : async B :=
  match m with
  | (t1, Settled (Return a)) => let '(t2, r) := f a in (t1 ++ t2, r)
  | (t1, Settled (Throw e)) => (t1, Settled (Throw e))
  | (t1, Pending) => (t1, Pending)
  end.

Definition emit (ev : Costco.event) : async unit := ([ev], Settled (Return tt)).

(** [await p] *)
Definition await {A} (p : promise A) : async A := ([], p).

(** [try { body } catch (e) { handler e }] *)
Definition tryCatch {A} (body : async A) (handler : Error -> async A) : async A :=
  match body with
  | (t1, Settled (Throw e)) => let '(t2, r) := handler e in (t1 ++ t2, r)
  | other => other
  end.

#[global] Instance async_ret : MRet async := fun _ a => ret a.
#[global] Instance async_bind : MBind async := fun _ _ f m => bind m f.

Section Notify.
Variable cfg : Costco.Config.

(** [notify(message, urgent)]; [request] is the promise returned by
    [fetch], should it be called. *)
Definition notify (request : promise unit) (message : string) (urgent : bool) : async unit :=
  emit (Costco.ConsoleLog ("📢 " +:+ message));;
  if truthy (Costco.discordWebhook cfg) then
    tryCatch
      (emit (Costco.Fetch (Costco.discordWebhook cfg) (Costco.content message urgent));;
       await request)
      (fun e => emit (Costco.ConsoleError "Failed to send Discord notification"))
  else mret tt.

(** The start of the in-stock branch of the loop of [monitor]:
    [await notify(...)], then the screenshot; [shot] is the promise
    returned by [page.screenshot]. *)
Definition announce (request shot : promise unit) : async unit :=
  emit (Costco.ConsoleLog "IN STOCK");;
  notify request ("🎉 ITEM IN STOCK! " +:+ Costco.targetUrl cfg) true;;
  emit Costco.Screenshot;;
  await shot.

End Notify.

(** The words of the specification: [notify] is fire-and-forget, it
    has returned normally whatever the state of the request. *)
Definition fireAndForget : Prop :=
  forall (cfg : Costco.Config) (request : promise unit) (message : string) (urgent : bool),
    snd (notify cfg request message urgent) = Settled (Return tt).

End Awaiting.

(** ** src/browser/launcher.ts *)

Module Launcher.
Import Js Eff.

(** Handles of Playwright objects. *)
Inductive Browser := BrowserHandle (n : nat).
Inductive BrowserContext := ContextHandle (n : nat).
Inductive Page := PageHandle (n : nat).

(** A value returned by [JSON.parse]. *)
Inductive Json := JsonValue (n : nat).

Record ProxyConfig := mkProxyConfig {
  host : string;
  port : Z;
  username : option string;
  password : option string
}.

Record BrowserOptions := mkOptions {
  headless : option bool;
  proxy : option ProxyConfig
}.

(** The module-level variables [browser], [context] and [page];
    [None] is [null]. *)
Record Store := mkStore {
  browser : option Browser;
  context : option BrowserContext;
  page : option Page
}.

(** The store when the module has just been loaded. *)
Definition initial : Store := mkStore None None None.

(** A console line, cut down to its constant words, or a
    [setTimeout(resolve, ms)] awaited. *)
Inductive event :=
| Log (s : string)
| Sleep (ms : number).

(** How the calls into Playwright and the file system complete, and
    [JSON.parse] on the text of a file. *)
Record Playwright := mkPlaywright {
  launch : bool -> completion Browser;
  newContext : Browser -> option ProxyConfig -> completion BrowserContext;
  addInitScript : BrowserContext -> completion unit;
  newPage : BrowserContext -> completion Page;
  closePage : Page -> completion unit;
  closeContext : BrowserContext -> completion unit;
  closeBrowserProcess : Browser -> completion unit;
  cookies : BrowserContext -> completion string;
  writeFile : string -> string -> completion unit;
  readFile : string -> completion string;
  parse : string -> completion Json;
  addCookies : BrowserContext -> Json -> completion unit
}.

Abbreviation prog := (Eff.prog Store event).

Section Launcher.
Variable pw : Playwright.

Definition setBrowser (b : option Browser) : prog unit :=
  s ← get; put (mkStore b (context s) (page s)).
Definition setContext (c : option BrowserContext) : prog unit :=
  s ← get; put (mkStore (browser s) c (page s)).
Definition setPage (p : option Page) : prog unit :=
  s ← get; put (mkStore (browser s) (context s) p).

Definition launchBrowser (options : BrowserOptions) : prog Page :=
  b ← await (launch pw (default false (headless options)));
  setBrowser (Some b);;
  c ← await (newContext pw b (proxy options));
  setContext (Some c);;
  await (addInitScript pw c);;
  p ← await (newPage pw c);
  setPage (Some p);;
  emit (Log "Browser launched with stealth mode");;
  mret p.

Definition getPage : prog Page :=
  s ← get;
  match page s with
  | None => throw "Browser not launched. Call launchBrowser() first."
  | Some p => mret p
  end.

Definition closeBrowser : prog unit :=
  s ← get;
  match page s with Some p => await (closePage pw p) | None => mret tt end;;
  match context s with Some c => await (closeContext pw c) | None => mret tt end;;
  match browser s with Some b => await (closeBrowserProcess pw b) | None => mret tt end;;
  setPage None;;
  setContext None;;
  setBrowser None;;
  emit (Log "Browser closed").

Definition saveCookies (filepath : string) : prog unit :=
  s ← get;
  match context s with
  | None => throw "No browser context"
  | Some c =>
      data ← await (cookies pw c);
      await (writeFile pw filepath data);;
      emit (Log "Cookies saved")
  end.

Definition loadCookies (filepath : string) : prog bool :=
  s ← get;
  match context s with
  | None => throw "No browser context"
  | Some c =>
      tryCatch
        (data ← await (readFile pw filepath);
         parsed ← await (parse pw data);
         await (addCookies pw c parsed);;
         emit (Log "Cookies loaded");;
         mret true)
        (fun _ => emit (Log "No cookies found");; mret false)
  end.

End Launcher.

(** A file system that holds [not json] and a parser that refuses it. *)
Definition brokenFile : Playwright :=
  {| launch := fun _ => Return (BrowserHandle 0);
     newContext := fun _ _ => Return (ContextHandle 0);
     addInitScript := fun _ => Return tt;
     newPage := fun _ => Return (PageHandle 0);
     closePage := fun _ => Return tt;
     closeContext := fun _ => Return tt;
     closeBrowserProcess := fun _ => Return tt;
     cookies := fun _ => Return "[]";
     writeFile := fun _ _ => Return tt;
     readFile := fun _ => Return "not json";
     parse := fun _ => Throw (mkError "Unexpected token");
     addCookies := fun _ _ => Return tt |}.

End Launcher.

(** ** src/mcp/server.ts *)

Module McpServer.
Import Js Eff Launcher.

(** The arguments of a tool call ([Record<string, any>]); [None] is
    a missing field. *)
Record Args := mkArgs {
  proxy_host : option string;
  proxy_port : option Z;
  proxy_user : option string;
  proxy_pass : option string;
  arg_headless : option bool;
  full_page : option bool;
  name : option string;
  url : option string;
  wait_for : option string;
  selector : option string;
  description : option string;
  text : option string;
  clear_first : option bool;
  direction : option string;
  amount : option Z;
  seconds : value;
  reason : option string
}.

(** [{}] *)
Definition noArgs : Args :=
  mkArgs None None None None None None None None None None None None None None None
    VUndefined None.

(** What a tool returns, before [JSON.stringify]. *)
Inductive ToolResult :=
| Success (message : string)            (* [{ success: true, message }] *)
| SuccessWith (data : string)           (* [{ success: true, ... }] with fields read from the page *)
| Unsuccessful (error : string)         (* [{ success: false, error }] *)
| Session (loaded : bool)               (* [{ success: loaded, message }] *)
| Waited (seconds : number).            (* [{ success: true, message: `Waited ${seconds} seconds` }] *)

(** The text of the single content item of a response. *)
Inductive Text :=
| ResultText (result : ToolResult)      (* [JSON.stringify(result, null, 2)] *)
| ErrorText (message : string).         (* [JSON.stringify({ error: error.message })] *)

(** The response of the CallTool handler; [isError = None] when the
    field is absent. *)
Record CallToolResult := mkResponse {
  content : Text;
  isError : option bool
}.

(** The world outside the server: Playwright and the file system as
    seen by the launcher, [fs.mkdir], and, for a tool that works on
    the page, how the calls it makes on the page complete, taken
    together. *)
Record World := mkWorld {
  pw : Playwright;
  mkdir : string -> completion unit;
  pageWork : string -> Args -> Page -> completion string
}.

(** The tools whose case starts with [page = await getPage()]. *)
Definition browserTools : list string :=
  ["screenshot"; "navigate"; "click"; "type_text"; "scroll"; "get_page_info";
   "check_element"].

Section Server.
Variable w : World.

(** [a || b] on an optional number. *)
Definition orDefault (a : option Z) (b : Z) : Z :=
  match a with
  | Some n => if n =? 0 then b else n
  | None => b
  end.

Definition describe (args : Args) : string :=
  match description args with
  | Some d => if truthy d then d else default "undefined" (selector args)
  | None => default "undefined" (selector args)
  end.

Definition handleToolCall (name : string) (args : Args) : prog ToolResult :=
  if String.eqb name "launch_browser" then
    let proxy :=
      match proxy_host args with
      | Some h =>
          if truthy h then
            Some (mkProxyConfig h (orDefault (proxy_port args) 7000)
                    (proxy_user args) (proxy_pass args))
          else None
      | None => None
      end in
    launchBrowser (pw w) (mkOptions (Some (default false (arg_headless args))) proxy);;
    mret (Success "Browser launched with stealth mode")
  else if String.eqb name "screenshot" then
    page ← getPage;
    data ← await (pageWork w name args page);
    mret (SuccessWith data)
  else if String.eqb name "navigate" then
    page ← getPage;
    emit (Log "Navigating");;
    data ← await (pageWork w name args page);
    mret (SuccessWith data)
  else if String.eqb name "click" then
    page ← getPage;
    emit (Log "Clicking");;
    tryCatch
      (await (pageWork w name args page);;
       mret (Success ("Clicked " +:+ describe args)))
      (fun error => mret (Unsuccessful (message error)))
  else if String.eqb name "type_text" then
    page ← getPage;
    emit (Log "Typing");;
    tryCatch
      (await (pageWork w name args page);;
       mret (Success ("Typed text into " +:+ default "undefined" (selector args))))
      (fun error => mret (Unsuccessful (message error)))
  else if String.eqb name "scroll" then
    page ← getPage;
    emit (Log "Scrolling");;
    await (pageWork w name args page);;
    mret (Success ("Scrolled " +:+ default "undefined" (direction args)))
  else if String.eqb name "get_page_info" then
    page ← getPage;
    data ← await (pageWork w name args page);
    mret (SuccessWith data)
  else if String.eqb name "check_element" then
    page ← getPage;
    data ← await (pageWork w name args page);
    mret (SuccessWith data)
  else if String.eqb name "wait" then
    let seconds := Math_min (Math_max (ToNumber (seconds args)) (Fin 1)) (Fin 30) in
    emit (Log "Waiting");;
    emit (Sleep (times seconds 1000));;
    mret (Waited seconds)
  else if String.eqb name "save_session" then
    let filepath := "./data/cookies/" +:+ default "undefined" (McpServer.name args) +:+ ".json" in
    await (mkdir w "./data/cookies");;
    saveCookies (pw w) filepath;;
    mret (Success ("Session saved as " +:+ default "undefined" (McpServer.name args)))
  else if String.eqb name "load_session" then
    let filepath := "./data/cookies/" +:+ default "undefined" (McpServer.name args) +:+ ".json" in
    loaded ← loadCookies (pw w) filepath;
    mret (Session loaded)
  else if String.eqb name "close_browser" then
    closeBrowser (pw w);;
    mret (Success "Browser closed")
  else
    throw ("Unknown tool: " +:+ name).

(** The handler registered for [CallToolRequestSchema];
    [args = None] when the request carries no [arguments]. *)
Definition callTool (name : string) (args : option Args) : prog CallToolResult :=
  tryCatch
    (result ← handleToolCall name (default noArgs args);
     mret (mkResponse (ResultText result) None))
    (fun error => mret (mkResponse (ErrorText (message error)) (Some true))).

End Server.

(** A world in which every call outside the server succeeds. *)
Definition calmWorld : World :=
  {| pw := {| launch := fun _ => Return (BrowserHandle 0);
              newContext := fun _ _ => Return (ContextHandle 0);
              addInitScript := fun _ => Return tt;
              newPage := fun _ => Return (PageHandle 0);
              closePage := fun _ => Return tt;
              closeContext := fun _ => Return tt;
              closeBrowserProcess := fun _ => Return tt;
              cookies := fun _ => Return "[]";
              writeFile := fun _ _ => Return tt;
              readFile := fun _ => Return "[]";
              parse := fun _ => Return (JsonValue 0);
              addCookies := fun _ _ => Return tt |};
     mkdir := fun _ => Return tt;
     pageWork := fun _ _ _ => Return "ok" |}.

Definition secondsArg (v : value) : Args :=
  mkArgs None None None None None None None None None None None None None None None
    v (Some "reading the page").

(** The sleeps of a trace, in ms. *)
Definition sleeps (tr : list event) : list number :=
  omap (fun ev => match ev with Sleep ms => Some ms | _ => None end) tr.

End McpServer.

(** ** Sticky sessions and geographic targeting (proxy strategy guide) *)

Module ProxySessions.
Import Js ProxyPool.

(** *** class StickyProxyManager *)

(** A value of the [sessions] map; [proxy] is what [getNext] returned,
    [None] when that was [undefined]. *)
Record Session := mkSession {
  proxy : option ProxyConfig;
  expires : Date
}.

(** The fields of the manager: [sessions] and the pool behind
    [this.pool.getNext()]. *)
Record StickyProxyManager := mkSticky {
  sessions : gmap string Session;
  rotation : RotatingProxyPool
}.

(** [getProxyForSession(sessionId, durationMs)].  The clock is read
    twice: [checked] by [new Date()] in the test, [stamped] by
    [Date.now()] when the session is recorded. *)
Definition getProxyForSession (sessionId : string) (durationMs : Z) (checked stamped : Z)
    (m : StickyProxyManager) : option ProxyConfig * StickyProxyManager :=
  let fresh :=
    let '(proxy, rotation') := getNext (rotation m) in
    (proxy,
     mkSticky (<[sessionId := mkSession proxy (mkDate (stamped + durationMs))]> (sessions m))
       rotation') in
  match sessions m !! sessionId with
  | Some existing =>
      if date_gt_now (expires existing) checked then (proxy existing, m) else fresh
  | None => fresh
  end.

Definition defaultDurationMs : Z := 600000.

(** One call of [getProxyForSession]. *)
Record Call := mkCall {
  callSession : string;
  callDuration : Z;
  callChecked : Z;
  callStamped : Z
}.

Definition perform (m : StickyProxyManager) (c : Call) : option ProxyConfig * StickyProxyManager :=
  getProxyForSession (callSession c) (callDuration c) (callChecked c) (callStamped c) m.

(** The manager after a sequence of calls. *)
Definition afterCalls (m : StickyProxyManager) (cs : list Call) : StickyProxyManager :=
  foldl (fun m c => snd (perform m c)) m cs.

(** The proxies returned by a sequence of calls, in order. *)
Fixpoint answers (m : StickyProxyManager) (cs : list Call) : list (option ProxyConfig) :=
  match cs with
  | [] => []
  | c :: cs' => fst (perform m c) :: answers (snd (perform m c)) cs'
  end.

(** *** class GeoProxyPool *)

Section Geo.

(** [getAnyUSProxy()] is called by [getProxyForLocation] but its body is
    not part of the guide: what it returns is a parameter. *)
Variable anyUSProxy : option ProxyConfig.

(** [getProxyForLocation(state)] when [Math.random()] returns [r]. *)
Definition getProxyForLocation (proxyByState : gmap string (list ProxyConfig))
    (state : string) (r : Q) : option ProxyConfig :=
  match proxyByState !! state with
  | None => anyUSProxy
  | Some [] => anyUSProxy
  | Some stateProxies =>
      let i := Qfloor (r * inject_Z (Z.of_nat (length stateProxies))) in
      if i <? 0 then None else stateProxies !! Z.to_nat i
  end.

End Geo.

End ProxySessions.

(** ** src/mcp/server.ts: the tools advertised *)

Module McpTools.
Import Js Launcher McpServer.

(** An entry of the [tools] array: its name, the properties of its
    input schema and those that are required. *)
Record Tool := mkTool {
  toolName : string;
  properties : list string;
  required : list string
}.

Definition tools : list Tool :=
  [ mkTool "launch_browser"
      ["proxy_host"; "proxy_port"; "proxy_user"; "proxy_pass"; "headless"] [];
    mkTool "screenshot" ["full_page"; "name"] [];
    mkTool "navigate" ["url"; "wait_for"] ["url"];
    mkTool "click" ["selector"; "description"] ["selector"];
    mkTool "type_text" ["selector"; "text"; "clear_first"] ["selector"; "text"];
    mkTool "scroll" ["direction"; "amount"] ["direction"];
    mkTool "get_page_info" [] [];
    mkTool "check_element" ["selector"; "description"] ["selector"];
    mkTool "wait" ["seconds"; "reason"] ["seconds"];
    mkTool "save_session" ["name"] ["name"];
    mkTool "load_session" ["name"] ["name"];
    mkTool "close_browser" [] [] ].

(** The answer to a ListTools request names these tools. *)
Definition toolNames : list string := toolName <$> tools.



End McpTools.

(** ** The page, as the scripts see it *)

Module Page.
Import Js Eff.

(** A handle on an element of the page. *)
Inductive Element := ElementHandle (n : nat).

(** What [element.boundingBox()] returns. *)
Record Box := mkBox { box_x : Q; box_y : Q; width : Q; height : Q }.

(** A JavaScript string as [humanType] walks through it: the list of its
    UTF-16 code units, [text.length] of them, [text[i]] the [i]-th. *)
Abbreviation CodeUnit := N.
Abbreviation JsString := (list N).

(** The calls a script makes, in order. *)
Inductive event :=
| Sleep (ms : Z)                      (* [setTimeout(resolve, ms)] awaited *)
| Goto (url : string)                 (* [page.goto(url)] *)
| Query (selector : string)           (* [page.$(selector)] *)
| QueryAll (selector : string)        (* [page.$$(selector)] *)
| BoundingBox (el : Element)          (* [element.boundingBox()] *)
| TextContent (el : Element)          (* [element.textContent()] *)
| Click (selector : string)           (* [page.click(selector)] *)
| MouseMove (x y : Q)                 (* [page.mouse.move(x, y)] *)
| MouseClick (x y : Q)                (* [page.mouse.click(x, y)] *)
| KeyType (char : CodeUnit)           (* [page.keyboard.type(text[i])] *)
| ReadScrollY                         (* [page.evaluate(() => window.scrollY)] *)
| ScrollBy (amount : Q)               (* [page.evaluate] of [window.scrollBy] *)
| Screenshot (path : string)          (* [page.screenshot({ path })] *)
| WaitForSelector (selector : string) (timeout : Z)
| SaveCookies (path : string)         (* [saveCookies(path)] of the launcher *)
| Post (url body : string)            (* [fetch] of the webhook *)
| Log (s : string)                    (* [console.log] *)
| LogError (s : string).              (* [console.error] *)

(** The world outside a script, of some type [W]: the browser, the
    clock, the random generator.  A call takes the world as it is and
    gives its completion and the world after it. *)
Record Ops (W : Type) := mkOps {
  random : W -> Q * W;                                  (* [Math.random()] *)
  now : W -> Z;                                         (* [Date.now()] *)
  elapse : Z -> W -> W;                                 (* a timer of so many ms has fired *)
  goto : string -> W -> completion unit * W;
  query : string -> W -> completion (option Element) * W;
  queryAll : string -> W -> completion nat * W;         (* the length of the array *)
  boundingBox : Element -> W -> completion (option Box) * W;
  textContent : Element -> W -> completion (option string) * W;
  click : string -> W -> completion unit * W;
  mouseMove : Q -> Q -> W -> completion unit * W;
  mouseClick : Q -> Q -> W -> completion unit * W;
  keyboardType : CodeUnit -> W -> completion unit * W;
  scrollY : W -> completion Q * W;
  scrollBy : Q -> W -> completion unit * W;
  screenshot : string -> W -> completion unit * W;
  waitForSelector : string -> Z -> W -> completion Element * W;
  saveCookies : string -> W -> completion unit * W;
  post : string -> string -> W -> completion unit * W
}.
Arguments random {W} _ _.
Arguments now {W} _ _.
Arguments elapse {W} _ _ _.
Arguments goto {W} _ _ _.
Arguments query {W} _ _ _.
Arguments queryAll {W} _ _ _.
Arguments boundingBox {W} _ _ _.
Arguments textContent {W} _ _ _.
Arguments click {W} _ _ _.
Arguments mouseMove {W} _ _ _ _.
Arguments mouseClick {W} _ _ _ _.
Arguments keyboardType {W} _ _ _.
Arguments scrollY {W} _ _.
Arguments scrollBy {W} _ _ _.
Arguments screenshot {W} _ _ _.
Arguments waitForSelector {W} _ _ _ _.
Arguments saveCookies {W} _ _ _.
Arguments post {W} _ _ _ _.

Section Calls.
Context {W : Type}.
Variable ops : Ops W.

(** A call into the world, recorded in the trace. *)
Definition call {A} (ev : event) (op : W -> completion A * W) : prog W event A :=
  fun w => let '(c, w') := op w in (w', [ev], c).

(** [Math.random()] *)
Definition draw : prog W event Q :=
  fun w => let '(r, w') := random ops w in (w', [], Return r).

(** [Date.now()] *)
Definition clock : prog W event Z :=
  fun w => (w, [], Return (now ops w)).

(** [await new Promise(resolve => setTimeout(resolve, ms))] *)
Definition sleep (ms : Z) : prog W event unit :=
  fun w => (elapse ops ms w, [Sleep ms], Return tt).

(** [Math.floor(Math.random() * n) + k] *)
Definition randomInt (n k : Z) : prog W event Z :=
  r ← draw; mret (Qfloor (r * inject_Z n) + k).

End Calls.

Definition sleeps (tr : list event) : list Z :=
  omap (fun ev => match ev with Sleep ms => Some ms | _ => None end) tr.

Definition typed (tr : list event) : JsString :=
  omap (fun ev => match ev with KeyType c => Some c | _ => None end) tr.

Definition moves (tr : list event) : list (Q * Q) :=
  omap (fun ev => match ev with MouseMove x y => Some (x, y) | _ => None end) tr.

Definition mouseClicks (tr : list event) : list (Q * Q) :=
  omap (fun ev => match ev with MouseClick x y => Some (x, y) | _ => None end) tr.


Definition queries (tr : list event) : list string :=
  omap (fun ev => match ev with Query sel => Some sel | _ => None end) tr.

End Page.

(** ** src/browser/human.ts *)

Module Human.
Import Js Eff Page.

Section Human.
Context {W : Type}.
Variable ops : Ops W.

Abbreviation prog := (Eff.prog W event).

(** [randomDelay(min, max)] *)
Definition randomDelay (min max : Z) : prog unit :=
  delay ← randomInt ops (max - min + 1) min;
  sleep ops delay.

(** The easing of [humanMouseMove]. *)
Definition ease (progress : Q) : Q :=
  if Qle_bool (1 # 2) progress
  then (1 - ((-2 * progress + 2) * (-2 * progress + 2)) / 2)%Q
  else (2 * progress * progress)%Q.

(** The body of the loop of [humanMouseMove], for the loop variable [i].
    The pointer is taken to start from [{ x: 0, y: 0 }]. *)
Definition moveStep (steps : Z) (x y : Q) (i : Z) : prog unit :=
  let progress := (inject_Z i / inject_Z steps)%Q in
  let easeProgress := ease progress in
  let newX := (0 + (x - 0) * easeProgress)%Q in
  let newY := (0 + (y - 0) * easeProgress)%Q in
  rx ← draw ops;
  let jitterX := ((rx - (1 # 2)) * 3)%Q in
  ry ← draw ops;
  let jitterY := ((ry - (1 # 2)) * 3)%Q in
  call (MouseMove (newX + jitterX) (newY + jitterY))
    (mouseMove ops (newX + jitterX)%Q (newY + jitterY)%Q);;
  randomDelay 5 15.

(** [for (let i = ...; i <= steps; i++)] with [count] iterations to go. *)
Fixpoint moveLoop (count : nat) (steps : Z) (x y : Q) (i : Z) : prog unit :=
  match count with
  | O => mret tt
  | S count' => moveStep steps x y i;; moveLoop count' steps x y (i + 1)
  end.

(** [humanMouseMove(page, x, y)] *)
Definition humanMouseMove (x y : Q) : prog unit :=
  steps ← randomInt ops 15 10;
  moveLoop (Z.to_nat (steps + 1)) steps x y 0.

(** [[' ', '.', ',', '!', '?'].includes(char)], by the code units of
    the five characters. *)
Definition pauseAfter (char : CodeUnit) : bool :=
  bool_decide (char ∈ [32; 46; 44; 33; 63]%N).

(** The [delay] computed for one character of [humanType]. *)
Definition keyDelay (char : CodeUnit) : prog Z :=
  delay ← randomInt ops 80 30;
  thinking ← draw ops;
  delay ← (if Qle_bool (1 # 20) thinking then mret delay
           else extra ← randomInt ops 300 100; mret (delay + extra));
  if pauseAfter char then extra ← randomInt ops 50 20; mret (delay + extra)
  else mret delay.

(** The loop of [humanType] over the code units left to type. *)
Fixpoint typeLoop (text : JsString) : prog unit :=
  match text with
  | [] => mret tt
  | char :: rest =>
      call (KeyType char) (keyboardType ops char);;
      delay ← keyDelay char;
      randomDelay delay (delay + 20);;
      typeLoop rest
  end.

(** [humanType(page, selector, text)] *)
Definition humanType (selector : string) (text : JsString) : prog unit :=
  call (Click selector) (click ops selector);;
  randomDelay 100 300;;
  typeLoop text.

(** [humanClick(page, selector)] *)
Definition humanClick (selector : string) : prog unit :=
  element ← call (Query selector) (query ops selector);
  match element with
  | None => throw ("Element not found: " +:+ selector)
  | Some el =>
      box ← call (BoundingBox el) (boundingBox ops el);
      match box with
      | None => throw ("Could not get bounding box for: " +:+ selector)
      | Some b =>
          rx ← draw ops;
          let x := (box_x b + width b * ((3 # 10) + rx * (4 # 10)))%Q in
          ry ← draw ops;
          let y := (box_y b + height b * ((3 # 10) + ry * (4 # 10)))%Q in
          humanMouseMove x y;;
          randomDelay 50 150;;
          call (MouseClick x y) (mouseClick ops x y);;
          randomDelay 100 300
      end
  end.




(** How the loop of [humanWaitFor] ends; [OutOfFuel] belongs to the
    model only. *)
Inductive waited :=
| Found (el : Element)
| TimedOut
| OutOfFuel.

(** [while (Date.now() - startTime < timeout) { ... }] *)
Fixpoint waitLoop (fuel : nat) (selector : string) (timeout startTime : Z) : prog waited :=
  match fuel with
  | O => mret OutOfFuel
  | S fuel' =>
      t ← clock ops;
      if t - startTime <? timeout then
        element ← call (Query selector) (query ops selector);
        match element with
        | Some el => randomDelay 100 300;; mret (Found el)
        | None => randomDelay 200 500;; waitLoop fuel' selector timeout startTime
        end
      else mret TimedOut
  end.

(** [humanWaitFor(page, selector, timeout)] *)
Definition humanWaitFor (fuel : nat) (selector : string) (timeout : Z) : prog waited :=
  startTime ← clock ops;
  waitLoop fuel selector timeout startTime.

End Human.

(** Where [humanMouseMove] sends the pointer in iteration [i], for the
    two numbers drawn. *)
Definition target (steps : Z) (x y : Q) (i : Z) (rx ry : Q) : Q * Q :=
  ((0 + (x - 0) * ease (inject_Z i / inject_Z steps) + (rx - (1 # 2)) * 3)%Q,
   (0 + (y - 0) * ease (inject_Z i / inject_Z steps) + (ry - (1 # 2)) * 3)%Q).


Definition defaultWaitTimeout : Z := 10000.

(** *** An example world *)

(** A world that counts the calls made into it: the clock advances by
    the timers that fire, every draw is 0.5, every query finds the same
    element, and nothing throws. *)
Definition steady : Ops Z :=
  {| random := fun w => ((1 # 2)%Q, w);
     now := fun w => w;
     elapse := fun ms w => w + ms;
     goto := fun _ w => (Return tt, w);
     query := fun _ w => (Return (Some (ElementHandle 0)), w);
     queryAll := fun _ w => (Return 1%nat, w);
     boundingBox := fun _ w => (Return (Some (mkBox 100 200 80 40)), w);
     textContent := fun _ w => (Return (Some "Add to Cart"), w);
     click := fun _ w => (Return tt, w);
     mouseMove := fun _ _ w => (Return tt, w);
     mouseClick := fun _ _ w => (Return tt, w);
     keyboardType := fun _ w => (Return tt, w);
     scrollY := fun w => (Return 0%Q, w);
     scrollBy := fun _ w => (Return tt, w);
     screenshot := fun _ w => (Return tt, w);
     waitForSelector := fun _ _ w => (Return (ElementHandle 0), w);
     saveCookies := fun _ w => (Return tt, w);
     post := fun _ _ w => (Return tt, w) |}.

(** The same world in which no query finds an element. *)
Definition barren : Ops Z :=
  {| random := random steady;
     now := now steady;
     elapse := elapse steady;
     goto := goto steady;
     query := fun _ w => (Return None, w);
     queryAll := fun _ w => (Return 0%nat, w);
     boundingBox := boundingBox steady;
     textContent := textContent steady;
     click := click steady;
     mouseMove := mouseMove steady;
     mouseClick := mouseClick steady;
     keyboardType := keyboardType steady;
     scrollY := scrollY steady;
     scrollBy := scrollBy steady;
     screenshot := screenshot steady;
     waitForSelector := fun sel _ w => (Throw (mkError "Timeout exceeded"), w);
     saveCookies := saveCookies steady;
     post := post steady |}.

End Human.

(** ** src/test-costco.ts: the steps on the page *)

Module CostcoScript.
Import Js Eff Page Human.

(** The double quote, which the selectors contain. *)
Definition dq : string := String (ascii_of_nat 34) EmptyString.

(** *** Selectors *)

Definition accountLink : string := "a[href*=" +:+ dq +:+ "/account" +:+ dq +:+ "]".
Definition signInLink : string := "a[href*=" +:+ dq +:+ "/LogonForm" +:+ dq +:+ "]".
Definition accessDenied : string := "text=" +:+ dq +:+ "Access Denied" +:+ dq.
Definition signInButton : string :=
  "input[value=" +:+ dq +:+ "Sign In" +:+ dq +:+ "], button[type="
  +:+ dq +:+ "submit" +:+ dq +:+ "]".
Definition enabledCartButton : string :=
  "#add-to-cart-btn:not([disabled]), button[data-testid=" +:+ dq +:+ "add-to-cart"
  +:+ dq +:+ "]:not([disabled])".
Definition cartButton : string :=
  "#add-to-cart-btn, button[data-testid=" +:+ dq +:+ "add-to-cart" +:+ dq +:+ "]".
Definition outOfStockMark : string :=
  ".out-of-stock-message, .oos-overlay, text=" +:+ dq +:+ "Out of Stock" +:+ dq.
Definition captchaMark : string :=
  ".g-recaptcha, #px-captcha, iframe[src*=" +:+ dq +:+ "captcha" +:+ dq +:+ "]".
Definition cartAdded : string := "#add-to-cart-btn[disabled], .cart-added".
Definition cartItems : string := ".product-cell, .cart-item".
Definition checkoutButton : string :=
  "button[data-testid=" +:+ dq +:+ "checkout" +:+ dq +:+ "], #checkoutBtn, a[href*="
  +:+ dq +:+ "checkout" +:+ dq +:+ "]".
Definition placeOrderButton : string :=
  "button[data-testid=" +:+ dq +:+ "place-order" +:+ dq +:+ "], #placeOrderBtn".

(** The fields of [CONFIG] that [login] types. *)
Record Credentials := mkCredentials {
  costcoEmail : JsString;
  costcoPassword : JsString
}.

Section Script.
Context {W : Type}.
Variable ops : Ops W.
Variable cfg : Costco.Config.
Variable who : Credentials.

(** [String.prototype.trim] *)
Variable trim : string -> string.

Abbreviation prog := (Eff.prog W event).

(** [console.log(s)] *)
Definition log (s : string) : prog unit :=
  call (Log s) (fun w => (Return tt, w)).

(** The events of [notify], as events of the script. *)
Definition ofNotify (ev : Costco.event) : event :=
  match ev with
  | Costco.ConsoleLog s => Log s
  | Costco.ConsoleError s => LogError s
  | Costco.Fetch url body => Post url body
  | Costco.CheckStock _ | Costco.Screenshot | Costco.AddToCart | Costco.Checkout
  | Costco.WaitForTimeout _ => Log ""
  end.

(** [await notify(message, urgent)]: the request goes to the world when
    a webhook is configured. *)
Definition notify (message : string) (urgent : bool) : prog unit :=
  fun w =>
    let '(sent, w') :=
      if truthy (Costco.discordWebhook cfg)
      then post ops (Costco.discordWebhook cfg) (Costco.content message urgent) w
      else (Return tt, w) in
    let '(_, tr, r) := Costco.notify cfg sent message urgent tt in
    (w', ofNotify <$> tr, r).

(** [isLoggedIn(page)] *)
Definition isLoggedIn : prog bool :=
  account ← call (Query accountLink) (query ops accountLink);
  signIn ← call (Query signInLink) (query ops signInLink);
  mret (bool_decide (is_Some account) && negb (bool_decide (is_Some signIn))).

(** [login(page)] *)
Definition login : prog bool :=
  log "🔐 Logging in to Costco...";;
  call (Goto "https://www.costco.com/LogonForm") (goto ops "https://www.costco.com/LogonForm");;
  randomDelay ops 2000 4000;;
  blocked ← call (Query accessDenied) (query ops accessDenied);
  match blocked with
  | Some _ => log "❌ Blocked by Akamai! Need better proxy.";; mret false
  | None =>
      humanType ops "#logonId" (costcoEmail who);;
      randomDelay ops 500 1000;;
      humanType ops "#logonPassword" (costcoPassword who);;
      randomDelay ops 500 1000;;
      humanClick ops signInButton;;
      randomDelay ops 3000 5000;;
      success ← isLoggedIn;
      (if success : bool then
         log "✅ Logged in successfully!";;
         call (SaveCookies "./data/cookies/costco.json")
           (saveCookies ops "./data/cookies/costco.json")
       else log "❌ Login failed. Check credentials or CAPTCHA.");;
      mret success
  end.

(** [checkStock(page, url)]: [inStock] and [buttonText]. *)
Definition checkStock (url : string) : prog (bool * option string) :=
  call (Goto url) (goto ops url);;
  randomDelay ops 2000 4000;;
  blocked ← call (Query accessDenied) (query ops accessDenied);
  match blocked with
  | Some _ => log "❌ Blocked by Akamai!";; mret (false, None)
  | None =>
      addToCartBtn ← call (Query enabledCartButton) (query ops enabledCartButton);
      match addToCartBtn with
      | Some btn =>
          buttonText ← call (TextContent btn) (textContent ops btn);
          mret (true, trim <$> buttonText)
      | None =>
          outOfStock ← call (Query outOfStockMark) (query ops outOfStockMark);
          match outOfStock with
          | Some _ => mret (false, None)
          | None => mret (false, None)
          end
      end
  end.

(** [addToCart(page)] *)
Definition addToCart : prog bool :=
  log "🛒 Adding to cart...";;
  addBtn ← call (Query enabledCartButton) (query ops enabledCartButton);
  match addBtn with
  | None => log "❌ Add to cart button not found!";; mret false
  | Some _ =>
      humanClick ops cartButton;;
      randomDelay ops 2000 4000;;
      captcha ← call (Query captchaMark) (query ops captchaMark);
      match captcha with
      | Some _ =>
          log "⚠️ CAPTCHA detected! Waiting for manual solve...";;
          notify "🔴 CAPTCHA DETECTED - MANUAL INTERVENTION NEEDED!" true;;
          orElse
            (call (WaitForSelector cartAdded 120000) (waitForSelector ops cartAdded 120000);;
             mret tt)
            tt
      | None => mret tt
      end;;
      randomDelay ops 2000 3000;;
      call (Goto "https://www.costco.com/CheckoutCartDisplayView")
        (goto ops "https://www.costco.com/CheckoutCartDisplayView");;
      randomDelay ops 2000 3000;;
      items ← call (QueryAll cartItems) (queryAll ops cartItems);
      let success := (0 <? items)%nat in
      (if success then log "✅ Item added to cart!" else log "❌ Failed to add to cart");;
      mret success
  end.

(** [checkout(page)].  [None] belongs to the model only: the fuel given
    to the loop of [humanWaitFor] was spent. *)
Definition checkout (fuel : nat) : prog (option bool) :=
  log "💳 Starting checkout...";;
  checkoutBtn ← call (Query checkoutButton) (query ops checkoutButton);
  match checkoutBtn with
  | None =>
      log "❌ Checkout button not found!";;
      call (Screenshot "./screenshots/checkout-error.png")
        (screenshot ops "./screenshots/checkout-error.png");;
      mret (Some false)
  | Some _ =>
      humanClick ops checkoutButton;;
      randomDelay ops 3000 5000;;
      call (Screenshot "./screenshots/checkout-review.png")
        (screenshot ops "./screenshots/checkout-review.png");;
      log "📸 Screenshot saved: checkout-review.png";;
      placeOrderBtn ← humanWaitFor ops fuel placeOrderButton 30000;
      match placeOrderBtn with
      | OutOfFuel => mret None
      | TimedOut =>
          log "⚠️ Place order button not found. May need manual intervention.";;
          notify "🔴 CHECKOUT READY - MANUAL PLACE ORDER NEEDED!" true;;
          mret (Some false)
      | Found _ =>
          log "🎯 READY TO PLACE ORDER - Manual confirmation needed";;
          notify "🎉 READY TO PLACE ORDER! Check the browser!" true;;
          mret (Some true)
      end
  end.

End Script.

Definition savedCookies (tr : list event) : list string :=
  omap (fun ev => match ev with SaveCookies path => Some path | _ => None end) tr.

(** The example world after a login: the sign-in link is gone. *)
Definition signedIn : Ops Z :=
  {| random := random steady;
     now := now steady;
     elapse := elapse steady;
     goto := goto steady;
     query := fun sel w =>
       (Return (if bool_decide (sel = signInLink) || bool_decide (sel = accessDenied)
                then None else Some (ElementHandle 0)), w);
     queryAll := queryAll steady;
     boundingBox := boundingBox steady;
     textContent := textContent steady;
     click := click steady;
     mouseMove := mouseMove steady;
     mouseClick := mouseClick steady;
     keyboardType := keyboardType steady;
     scrollY := scrollY steady;
     scrollBy := scrollBy steady;
     screenshot := screenshot steady;
     waitForSelector := waitForSelector steady;
     saveCookies := saveCookies steady;
     post := post steady |}.

End CostcoScript.

(** ** What a script does, said of its trace *)

Module Traces.
Import Js Eff.

Section Traces.
Context {W Ev : Type}.

(** The events of a run from the world [w]. *)
Definition traceOf {A} (m : prog W Ev A) (w : W) : list Ev := snd (fst (m w)).

(** Every event of every run is a [good] one. *)
Definition always (good : Ev -> Prop) {A} (m : prog W Ev A) : Prop :=
  forall w, Forall good (traceOf m w).

(** Every run is made of events that are [early] followed by events
    that are [late]. *)
Definition splits (early late : Ev -> Prop) {A} (m : prog W Ev A) : Prop :=
  forall w, exists t1 t2,
    traceOf m w = t1 ++ t2 /\ Forall early t1 /\ Forall late t2.

(** Whenever a run returns, its value and its events satisfy [post]. *)
Definition ensures {A} (m : prog W Ev A) (post : A -> list Ev -> Prop) : Prop :=
  forall w a, snd (m w) = Return a -> post a (traceOf m w).

End Traces.

End Traces.

(** * Properties *)

(** ** Proxy pools *)

Module ProxyPoolFacts.
Import Js ProxyPool.

Example getNext_three_calls :
  fst (getNextMany 3 (mkRotating twoProxies (Idx 0))) = [Some res1; Some isp1; Some res1].
Proof. reflexivity. Qed.

Example getNext_empty_pool :
  getNextMany 2 (mkRotating [] (Idx 0)) = ([None; None], mkRotating [] IdxNaN).
Proof. reflexivity. Qed.

Example getAvailableProxy_example :
  getAvailableProxy 0 twoProxyDetector "target" = Some res1.
Proof. vm_compute. reflexivity. Qed.

(** *** Round robin *)

Lemma getNext_at (ps : list ProxyConfig) (i : nat) :
  getNext (mkRotating ps (Idx i))
  = (ps !! i, mkRotating ps (succ_mod (Idx i) (length ps))).
Proof. reflexivity. Qed.

Lemma succ_mod_lt (i len : nat) :
  (0 < len)%nat -> succ_mod (Idx i) len = Idx (S i mod len).
Proof. destruct len; [lia | reflexivity]. Qed.

Lemma getNextMany_round_robin (ps : list ProxyConfig) (n i : nat) :
  (i < length ps)%nat ->
  getNextMany n (mkRotating ps (Idx i))
  = ((fun j => ps !! ((i + j) mod length ps)%nat) <$> seq 0 n,
     mkRotating ps (Idx ((i + n) mod length ps))).
Proof.
  revert i. induction n as [|n IH]; intros i Hi.
  - cbn. rewrite Nat.add_0_r, Nat.mod_small by lia. reflexivity.
  - cbn [getNextMany]. rewrite getNext_at, succ_mod_lt by lia.
    rewrite IH by (apply Nat.mod_upper_bound; lia).
    cbn [seq fmap list_fmap]. rewrite Nat.add_0_r, (Nat.mod_small i) by lia.
    f_equal.
    + f_equal. rewrite <- seq_shift, <- list_fmap_compose.
      apply list_fmap_ext. intros _ j _. cbn.
      rewrite Nat.Div0.add_mod_idemp_l. do 2 f_equal. lia.
    + do 2 f_equal. rewrite Nat.Div0.add_mod_idemp_l. f_equal. lia.
Qed.

Lemma getAvailableMany_replicate (n : nat) (now : Z) (st : BanDetector) (r : string) :
  getAvailableMany n now st r = replicate n (getAvailableProxy now st r).
Proof. induction n as [|n IH]; cbn; [reflexivity | by rewrite IH]. Qed.

(** *** The loop of getAvailableProxy *)

Lemma firstUsable_filter (now : Z) (st : BanDetector) (r : string) (ps : list ProxyConfig) :
  firstUsable now st r ps = head (filter (fun p => usable now st r p = true) ps).
Proof.
  induction ps as [|p ps IH]; [reflexivity |].
  cbn [firstUsable]. rewrite filter_cons.
  destruct (usable now st r p) eqn:Hp.
  - rewrite decide_True by reflexivity. reflexivity.
  - rewrite decide_False by discriminate. exact IH.
Qed.

Lemma firstUsable_Some (now : Z) (st : BanDetector) (r : string)
    (ps : list ProxyConfig) (p : ProxyConfig) :
  firstUsable now st r ps = Some p -> p ∈ ps /\ usable now st r p = true.
Proof.
  induction ps as [|q ps IH]; cbn [firstUsable]; [discriminate |].
  destruct (usable now st r q) eqn:Hq.
  - intros [= <-]. split; [left | exact Hq].
  - intros H. destruct (IH H) as [Hin Hu]. split; [by right | exact Hu].
Qed.

(** *** Bans *)

Lemma bansOf_markAsBanned (now : Z) (id r : string) (d : Z) (st : BanDetector) (id' : string) :
  bansOf (markAsBanned now id r d st) id'
  = if decide (id = id') then bansOf st id ++ [mkBan r (mkDate (now + d))]
    else bansOf st id'.
Proof.
  unfold bansOf at 1. cbn. rewrite lookup_insert.
  destruct (decide (id = id')); reflexivity.
Qed.

Lemma isBannedFor_elem (now : Z) (st : BanDetector) (id r : string) (u : Z) :
  mkBan r (Some u) ∈ bansOf st id -> now < u -> isBannedFor now st id r = true.
Proof.
  intros Hin Hlt. unfold isBannedFor. apply existsb_exists.
  exists (mkBan r (Some u)). split; [by apply list_elem_of_In |].
  unfold banHolds. cbn. rewrite bool_decide_eq_true_2 by reflexivity.
  cbn. by apply Z.ltb_lt.
Qed.

Section Persistence.
Variable getFailures : gmap string ProxyHealth -> string -> Z.

Lemma perform_keeps_ban (st : BanDetector) (op : operation) (id : string) (b : Ban) :
  b ∈ bansOf st id -> b ∈ bansOf (perform getFailures st op) id.
Proof.
  intros Hin. destruct op as [now id' r d | start proxy o checkedAt]; cbn.
  - rewrite bansOf_markAsBanned. destruct (decide (id' = id)) as [-> |]; [| exact Hin].
    apply elem_of_app. by left.
  - exact Hin.
Qed.

Lemma performAll_keeps_ban (ops : list operation) (st : BanDetector) (id : string) (b : Ban) :
  b ∈ bansOf st id -> b ∈ bansOf (performAll getFailures st ops) id.
Proof.
  revert st. induction ops as [|op ops IH]; intros st Hin; [exact Hin |].
  cbn. apply IH. by apply perform_keeps_ban.
Qed.

Lemma perform_pool (st : BanDetector) (op : operation) :
  pool (perform getFailures st op) = pool st.
Proof. destruct op; reflexivity. Qed.

End Persistence.

Lemma isBannedFor_other_retailer (now t : Z) (id r : string) (d : Z)
    (st : BanDetector) (id' r' : string) :
  r' <> r ->
  isBannedFor t (markAsBanned now id r d st) id' r' = isBannedFor t st id' r'.
Proof.
  intros Hne. unfold isBannedFor. rewrite bansOf_markAsBanned.
  destruct (decide (id = id')) as [-> |]; [| reflexivity].
  rewrite existsb_app. cbn. unfold banHolds at 2. cbn.
  rewrite bool_decide_eq_false_2 by congruence. cbn.
  by rewrite !orb_false_r.
Qed.

Lemma firstUsable_other_retailer (now t : Z) (id r : string) (d : Z)
    (st : BanDetector) (r' : string) (ps : list ProxyConfig) :
  r' <> r ->
  firstUsable t (markAsBanned now id r d st) r' ps = firstUsable t st r' ps.
Proof.
  intros Hne. induction ps as [|p ps IH]; [reflexivity |].
  cbn [firstUsable]. rewrite IH. unfold usable.
  by rewrite isBannedFor_other_retailer.
Qed.

(** *** Leases *)

(** C1, as stated, fails.  In a pool of two proxies, three calls of
    [getNext] hand the first proxy out a second time while nothing was
    released, and three proxies are out at once; two calls of
    [getAvailableProxy] return the same proxy. *)
Lemma acquire_hands_out_proxy_twice :
  ~ exclusiveLeases 2 (fst (getNextMany 3 (mkRotating twoProxies (Idx 0))))
  /\ ~ exclusiveLeases 2 (getAvailableMany 2 0 twoProxyDetector "target").
Proof.
  split; intros [Hnd Hlen].
  - cbn in Hlen. lia.
  - vm_compute in Hnd. apply NoDup_cons in Hnd as [Hnotin _].
    apply Hnotin. left.
Qed.

(** C1, amended.  The pools keep no lease.  [getNext] hands the proxies
    out in round-robin order: started at index [i] of a pool of [N]
    proxies, its [j]-th call returns [proxies[(i + j) mod N]], so that a
    proxy is handed out again [N] calls later, released or not.
    [getAvailableProxy] changes nothing: called again while bans, health
    and clock are the same, it returns the same proxy. *)
Theorem getNext_round_robin_without_lease (ps : list ProxyConfig) (i n : nat)
    (now : Z) (st : BanDetector) (r : string) :
  (i < length ps)%nat ->
  fst (getNextMany n (mkRotating ps (Idx i)))
    = (fun j => ps !! ((i + j) mod length ps)%nat) <$> seq 0 n
  /\ getAvailableMany n now st r = replicate n (getAvailableProxy now st r).
Proof.
  intros Hi. split.
  - by rewrite getNextMany_round_robin.
  - apply getAvailableMany_replicate.
Qed.

Lemma getNext_round_robin_without_lease_witness :
  fst (getNextMany 3 (mkRotating twoProxies (Idx 0)))
    = (fun j => twoProxies !! ((0 + j) mod length twoProxies)%nat) <$> seq 0 3
  /\ getAvailableMany 3 0 twoProxyDetector "target"
      = replicate 3 (getAvailableProxy 0 twoProxyDetector "target").
Proof.
  apply (getNext_round_robin_without_lease twoProxies 0 3 0 twoProxyDetector "target").
  cbn. lia.
Defined.

(** *** Bans by retailer *)

Example ban_for_target_only :
  let st := markAsBanned 1000 "res-1" "target" 3600000 twoProxyDetector in
  getAvailableProxy 2000 st "target" = Some isp1
  /\ getAvailableProxy 2000 st "bestbuy" = Some res1
  /\ getAvailableProxy 3601000 st "target" = Some res1.
Proof. vm_compute. auto. Qed.

(** C2.  Let [markAsBanned(proxyId, retailer, durationMs)] be called when
    the clock reads [now], the ban expiring at [u = now + durationMs].
    Whatever is done to the detector afterwards (further bans, health
    checks), [getAvailableProxy(retailer)] called at a time before [u]
    returns no proxy with that id; and for any other retailer it returns
    what it returned before the ban. *)
Theorem markAsBanned_excludes_proxy_for_retailer
    (getFailures : gmap string ProxyHealth -> string -> Z)
    (st : BanDetector) (now : Z) (proxyId retailer : string) (durationMs u : Z) :
  mkDate (now + durationMs) = Some u ->
  (forall (ops : list operation) (t : Z) (p : ProxyConfig),
      t < u ->
      getAvailableProxy t
        (performAll getFailures (markAsBanned now proxyId retailer durationMs st) ops)
        retailer = Some p ->
      px_id p <> proxyId)
  /\ (forall (other : string) (t : Z),
        other <> retailer ->
        getAvailableProxy t (markAsBanned now proxyId retailer durationMs st) other
        = getAvailableProxy t st other).
Proof.
  intros Hu. split.
  - intros ops t p Ht Hget Hid.
    apply firstUsable_Some in Hget as [_ Husable].
    assert (isBannedFor t
              (performAll getFailures (markAsBanned now proxyId retailer durationMs st) ops)
              proxyId retailer = true) as Hban.
    { apply (isBannedFor_elem _ _ _ _ u); [| exact Ht].
      apply performAll_keeps_ban. rewrite bansOf_markAsBanned.
      rewrite decide_True by reflexivity. rewrite Hu.
      apply elem_of_app. right. left. }
    unfold usable in Husable. rewrite Hid, Hban in Husable. discriminate.
  - intros other t Hne. unfold getAvailableProxy. cbn [pool markAsBanned].
    by apply firstUsable_other_retailer.
Qed.

Lemma markAsBanned_excludes_proxy_for_retailer_witness :
  (forall (ops : list operation) (t : Z) (p : ProxyConfig),
      t < 3601000 ->
      getAvailableProxy t
        (performAll lastFailures (markAsBanned 1000 "res-1" "target" 3600000 twoProxyDetector) ops)
        "target" = Some p ->
      px_id p <> "res-1")
  /\ (forall (other : string) (t : Z),
        other <> "target" ->
        getAvailableProxy t (markAsBanned 1000 "res-1" "target" 3600000 twoProxyDetector) other
        = getAvailableProxy t twoProxyDetector other).
Proof.
  apply (markAsBanned_excludes_proxy_for_retailer lastFailures twoProxyDetector
           1000 "res-1" "target" 3600000 3601000).
  reflexivity.
Defined.

(** *** Selection *)

(** C4, as stated, fails.  Both proxies of the example are eligible and
    [isp-1] has the lower failure count, by the proxy's own
    [failureCount] and by the health checker's [consecutiveFailures];
    yet [getAvailableProxy] returns [res-1], and so does [getNext]. *)
Lemma selection_ignores_failure_count :
  ~ lowestFailureFirst failureCount (eligible 0 twoProxyDetector "target")
      (getAvailableProxy 0 twoProxyDetector "target")
  /\ ~ lowestFailureFirst (recentFailures twoProxyDetector)
        (eligible 0 twoProxyDetector "target")
        (getAvailableProxy 0 twoProxyDetector "target")
  /\ ~ lowestFailureFirst failureCount twoProxies
        (fst (getNext (mkRotating twoProxies (Idx 0)))).
Proof.
  assert (eligible 0 twoProxyDetector "target" = twoProxies) as ->.
  { unfold eligible. cbn [pool twoProxyDetector]. unfold twoProxies.
    rewrite !filter_cons, filter_nil.
    rewrite !decide_True by (vm_compute; reflexivity). reflexivity. }
  assert (isp1 ∈ twoProxies) as Hin by (right; left).
  repeat split; intros H.
  - specialize (H res1 isp1 ltac:(vm_compute; reflexivity) Hin). cbn in H. lia.
  - specialize (H res1 isp1 ltac:(vm_compute; reflexivity) Hin). vm_compute in H.
    by apply H.
  - specialize (H res1 isp1 eq_refl Hin). cbn in H. lia.
Qed.

(** C4, amended.  Failure counts and time of last use play no part in
    the selection: [getAvailableProxy] returns the first proxy, in the
    order of the pool, that is not banned for the retailer and is
    healthy ([null] if there is none), and [getNext] returns the proxy at
    the current index. *)
Theorem getAvailableProxy_first_in_pool_order
    (now : Z) (st : BanDetector) (r : string) (ps : list ProxyConfig) (i : nat) :
  getAvailableProxy now st r = head (eligible now st r)
  /\ fst (getNext (mkRotating ps (Idx i))) = ps !! i.
Proof. split; [apply firstUsable_filter | reflexivity]. Qed.

End ProxyPoolFacts.

(** ** withRetry *)

Module RetryFacts.
Import Js Retry.

Example withRetry_all_fail :
  withRetry alwaysFails 3 1000
  = (Rejected (Some (mkError "timeout")),
     [Invoke 1; Log 1 "timeout"; Sleep 1000;
      Invoke 2; Log 2 "timeout"; Sleep 2000;
      Invoke 3; Log 3 "timeout"]).
Proof. reflexivity. Qed.

Example withRetry_second_succeeds :
  withRetry (fun k => if (k <? 1)%nat then Throw (mkError "busy") else Return k) 3 1000
  = (Resolved 1%nat, [Invoke 1; Log 1 "busy"; Sleep 1000; Invoke 2]).
Proof. reflexivity. Qed.

Example withRetry_no_attempt :
  withRetry alwaysFails 0 1000 = (Rejected None, []).
Proof. reflexivity. Qed.

Section Loop.
Context {T : Type}.
Variable fn : nat -> completion T.
Variable maxAttempts : Z.
Variable delayMs : Z.

Abbreviation loop := (retryLoop fn maxAttempts delayMs).

(** One unfolding of the loop, by case. *)
Lemma loop_exit (fuel : nat) (attempt : Z) (ncalls : nat) (lastError : option Error) :
  maxAttempts < attempt ->
  loop (S fuel) attempt ncalls lastError = (Rejected lastError, []).
Proof. intros H. cbn. by rewrite (proj2 (Z.leb_gt _ _)). Qed.

Lemma loop_return (fuel : nat) (attempt : Z) (ncalls : nat) (lastError : option Error) (v : T) :
  attempt <= maxAttempts -> fn ncalls = Return v ->
  loop (S fuel) attempt ncalls lastError = (Resolved v, [Invoke attempt]).
Proof. intros H Hfn. cbn. by rewrite (proj2 (Z.leb_le _ _)), Hfn. Qed.

Lemma loop_throw (fuel : nat) (attempt : Z) (ncalls : nat) (lastError : option Error) (e : Error) :
  attempt <= maxAttempts -> fn ncalls = Throw e ->
  loop (S fuel) attempt ncalls lastError
  = (fst (loop fuel (attempt + 1) (S ncalls) (Some e)),
     Invoke attempt :: Log attempt (message e)
       :: (if attempt <? maxAttempts then [Sleep (delayMs * attempt)] else [])
       ++ snd (loop fuel (attempt + 1) (S ncalls) (Some e))).
Proof.
  intros H Hfn. cbn. rewrite (proj2 (Z.leb_le _ _)), Hfn by done.
  by destruct (loop fuel (attempt + 1) (S ncalls) (Some e)).
Qed.

Lemma loop_past_end (fuel : nat) (attempt : Z) (ncalls : nat) (lastError : option Error) :
  maxAttempts < attempt -> snd (loop fuel attempt ncalls lastError) = [].
Proof. intros H. destruct fuel; [reflexivity |]. by rewrite loop_exit. Qed.

Ltac loop_cases fuel attempt ncalls lastError IH :=
  induction fuel as [|fuel IH]; intros attempt ncalls lastError;
  [ | destruct (Z_lt_le_dec maxAttempts attempt) as [Hgt | Hle];
      [ rewrite loop_exit by done
      | destruct (fn ncalls) as [v | e] eqn:Hfn;
        [ rewrite (loop_return _ _ _ _ v) by done
        | rewrite (loop_throw _ _ _ _ e) by done ] ] ].

(** Enough fuel: the loop ends. *)
Lemma loop_total (fuel : nat) (attempt : Z) (ncalls : nat) (lastError : option Error) :
  (Z.to_nat (maxAttempts + 1 - attempt) < fuel)%nat ->
  fst (loop fuel attempt ncalls lastError) <> OutOfFuel.
Proof.
  revert attempt ncalls lastError.
  loop_cases fuel attempt ncalls lastError IH; cbn; try (intros; discriminate || lia).
  intros Hfuel. apply IH. lia.
Qed.

(** The loop variable takes the values [attempt], [attempt + 1], ... and
    stays at or below [maxAttempts]. *)
Lemma loop_invocations (fuel : nat) (attempt : Z) (ncalls : nat) (lastError : option Error) :
  exists n : Z,
    0 <= n <= Z.max 0 (maxAttempts + 1 - attempt)
    /\ invocations (snd (loop fuel attempt ncalls lastError)) = seqZ attempt n.
Proof.
  revert attempt ncalls lastError.
  loop_cases fuel attempt ncalls lastError IH; cbn [snd].
  - exists 0. split; [lia | reflexivity].
  - exists 0. split; [lia | reflexivity].
  - exists 1. split; [lia | reflexivity].
  - destruct (IH (attempt + 1) (S ncalls) (Some e)) as (n & Hn & Hinv).
    exists (n + 1). split; [lia |].
    rewrite (seqZ_cons attempt (n + 1)) by lia.
    replace (Z.pred (n + 1)) with n by lia.
    change (Z.succ attempt) with (attempt + 1). rewrite <- Hinv.
    unfold invocations. cbn. f_equal. rewrite omap_app.
    by destruct (attempt <? maxAttempts).
Qed.

(** The pause after the failure of attempt [a] is [delayMs * a]. *)
Lemma loop_sleeps (fuel : nat) (attempt : Z) (ncalls : nat) (lastError : option Error) :
  exists n : Z,
    0 <= n <= Z.max 0 (maxAttempts - attempt)
    /\ sleeps (snd (loop fuel attempt ncalls lastError))
       = (fun a => delayMs * a) <$> seqZ attempt n.
Proof.
  revert attempt ncalls lastError.
  loop_cases fuel attempt ncalls lastError IH; cbn [snd].
  - exists 0. split; [lia | reflexivity].
  - exists 0. split; [lia | reflexivity].
  - exists 0. split; [lia | reflexivity].
  - unfold sleeps. cbn. rewrite omap_app.
    destruct (Z.ltb_spec attempt maxAttempts) as [Hlt | Hge].
    + destruct (IH (attempt + 1) (S ncalls) (Some e)) as (n & Hn & Hsl).
      exists (n + 1). split; [lia |].
      rewrite (seqZ_cons attempt (n + 1)) by lia.
      replace (Z.pred (n + 1)) with n by lia.
      change (Z.succ attempt) with (attempt + 1). cbn.
      f_equal. exact Hsl.
    + exists 0. split; [lia |].
      rewrite loop_past_end by lia. reflexivity.
Qed.

(** When every invocation throws and the fuel suffices, there are
    [maxAttempts] invocations, a pause after each but the last, and the
    promise is rejected with the error of the last one. *)
Lemma loop_rejected (fuel : nat) (attempt : Z) (ncalls : nat)
    (lastError lastError' : option Error) :
  fst (loop fuel attempt ncalls lastError) = Rejected lastError' ->
  (maxAttempts < attempt /\ lastError' = lastError
   /\ snd (loop fuel attempt ncalls lastError) = [])
  \/ (attempt <= maxAttempts
      /\ exists (e : Error) (tr : list event),
           fn (ncalls + Z.to_nat (maxAttempts - attempt)) = Throw e
           /\ lastError' = Some e
           /\ snd (loop fuel attempt ncalls lastError)
              = tr ++ [Invoke maxAttempts; Log maxAttempts (message e)]
           /\ invocations (snd (loop fuel attempt ncalls lastError))
              = seqZ attempt (maxAttempts + 1 - attempt)).
Proof.
  revert attempt ncalls lastError.
  loop_cases fuel attempt ncalls lastError IH; cbn [fst snd]; try discriminate.
  - intros [= <-]. left. done.
  - intros Hrej. right. split; [done |].
    destruct (IH _ _ _ Hrej) as [(Hgt & -> & Hnil) | (Hle' & e' & tr & Hfn' & -> & Htr & Hinv)].
    + assert (attempt = maxAttempts) as -> by lia.
      exists e, []. rewrite Z.sub_diag, Nat.add_0_r, Hnil, Z.ltb_irrefl.
      repeat split; try done.
      replace (maxAttempts + 1 - maxAttempts) with 1 by lia. reflexivity.
    + exists e', (Invoke attempt :: Log attempt (message e)
                   :: (if attempt <? maxAttempts then [Sleep (delayMs * attempt)] else [])
                   ++ tr).
      repeat split.
      * rewrite <- Hfn'. f_equal. lia.
      * rewrite Htr. cbn. by rewrite <- app_assoc.
      * rewrite (seqZ_cons attempt) by lia.
        replace (Z.pred (maxAttempts + 1 - attempt)) with (maxAttempts + 1 - (attempt + 1)) by lia.
        change (Z.succ attempt) with (attempt + 1). rewrite <- Hinv. unfold invocations. cbn. f_equal. rewrite omap_app.
        by destruct (attempt <? maxAttempts).
Qed.

End Loop.

(** Every invocation throws: a pause after each attempt but the last. *)
Lemma loop_sleeps_all_throw {T : Type} (errs : nat -> Error) (maxAttempts delayMs : Z)
    (fuel : nat) (attempt : Z) (ncalls : nat) (lastError : option Error) :
  (Z.to_nat (maxAttempts + 1 - attempt) < fuel)%nat ->
  sleeps (snd (retryLoop (T := T) (fun k => Throw (errs k)) maxAttempts delayMs
                 fuel attempt ncalls lastError))
  = (fun a => delayMs * a) <$> seqZ attempt (maxAttempts - attempt).
Proof.
  revert attempt ncalls lastError.
  induction fuel as [|fuel IH]; intros attempt ncalls lastError Hfuel; [lia |].
  destruct (Z_lt_le_dec maxAttempts attempt) as [Hgt | Hle].
  - rewrite loop_exit by done. cbn. by rewrite seqZ_nil by lia.
  - rewrite (loop_throw _ _ _ _ _ _ _ (errs ncalls)) by done. cbn [snd].
    unfold sleeps. cbn. rewrite omap_app.
    destruct (Z.ltb_spec attempt maxAttempts) as [Hlt | Hge].
    + rewrite (seqZ_cons attempt) by lia.
      replace (Z.pred (maxAttempts - attempt)) with (maxAttempts - (attempt + 1)) by lia.
      change (Z.succ attempt) with (attempt + 1). cbn. f_equal.
      apply IH. lia.
    + rewrite loop_past_end by lia. by rewrite seqZ_nil by lia.
Qed.

(** *** Backoff *)

(** C5, as stated, fails.  When five attempts fail with [delayMs = 1000]
    the pauses are 1000, 2000, 3000 and 4000 ms: no ceiling and no
    factor make them an exponential sequence capped at the ceiling. *)
Lemma withRetry_delays_not_exponential :
  ~ exponentialCapped (sleeps (snd (withRetry alwaysFails 5 1000))).
Proof.
  intros (cap & Hall & Hgeo).
  change (sleeps (snd (withRetry alwaysFails 5 1000))) with [1000; 2000; 3000; 4000] in *.
  assert (4000 <= cap) as Hcap.
  { rewrite Forall_forall in Hall. apply Hall. do 3 right. left. }
  destruct (Hgeo 0%nat 1000 2000 3000 eq_refl eq_refl eq_refl ltac:(lia)) as [_ Heq].
  lia.
Qed.

(** C5, amended.  The pause made by [withRetry] after the failure of
    attempt [k] lasts [delayMs * k]: the pauses grow linearly with the
    number of consecutive failures and have no ceiling.  When every
    attempt fails they are [delayMs], [2 * delayMs], ...,
    [(maxAttempts - 1) * delayMs]. *)
Theorem withRetry_linear_backoff {T : Type} (fn : nat -> completion T)
    (errs : nat -> Error) (maxAttempts delayMs : Z) :
  (exists n : Z,
      0 <= n <= Z.max 0 (maxAttempts - 1)
      /\ sleeps (snd (withRetry fn maxAttempts delayMs))
         = (fun k => delayMs * k) <$> seqZ 1 n)
  /\ sleeps (snd (withRetry (T := T) (fun k => Throw (errs k)) maxAttempts delayMs))
     = (fun k => delayMs * k) <$> seqZ 1 (maxAttempts - 1).
Proof.
  split.
  - apply loop_sleeps.
  - apply loop_sleeps_all_throw. lia.
Qed.

(** *** Bounded attempts *)

(** C6.  [withRetry] returns; the attempts are numbered 1, 2, 3, ... and
    there are at most [maxAttempts] invocations of [fn]; if the promise
    is rejected and [maxAttempts >= 1], then [fn] was invoked
    [maxAttempts] times, the error is the one thrown by the last
    invocation and nothing follows the report of that failure: no pause,
    no further attempt. *)
Theorem withRetry_at_most_maxAttempts {T : Type} (fn : nat -> completion T)
    (maxAttempts delayMs : Z) :
  fst (withRetry fn maxAttempts delayMs) <> OutOfFuel
  /\ Z.of_nat (length (invocations (snd (withRetry fn maxAttempts delayMs))))
     <= Z.max 0 maxAttempts
  /\ invocations (snd (withRetry fn maxAttempts delayMs))
     = seqZ 1 (Z.of_nat (length (invocations (snd (withRetry fn maxAttempts delayMs)))))
  /\ forall lastError : option Error,
       fst (withRetry fn maxAttempts delayMs) = Rejected lastError ->
       (maxAttempts < 1 /\ lastError = None
        /\ snd (withRetry fn maxAttempts delayMs) = [])
       \/ (1 <= maxAttempts
           /\ exists (e : Error) (tr : list event),
                fn (Z.to_nat (maxAttempts - 1)) = Throw e
                /\ lastError = Some e
                /\ snd (withRetry fn maxAttempts delayMs)
                   = tr ++ [Invoke maxAttempts; Log maxAttempts (message e)]
                /\ invocations (snd (withRetry fn maxAttempts delayMs))
                   = seqZ 1 maxAttempts).
Proof.
  unfold withRetry.
  destruct (loop_invocations fn maxAttempts delayMs (S (Z.to_nat maxAttempts)) 1 0 None)
    as (n & Hn & Hinv).
  assert (Z.of_nat (length (invocations
            (snd (retryLoop fn maxAttempts delayMs (S (Z.to_nat maxAttempts)) 1 0 None)))) = n)
    as Hlen by (rewrite Hinv, length_seqZ; lia).
  repeat split.
  - apply loop_total. lia.
  - lia.
  - by rewrite Hlen.
  - intros lastError Hrej. apply loop_rejected in Hrej.
    destruct Hrej as [(Hgt & -> & Hnil) | (Hle & e & tr & Hfn & -> & Htr & Hinv')].
    + left. repeat split; [lia | done].
    + right. split; [done |]. exists e, tr. repeat split; try done.
      rewrite Hinv'. f_equal. lia.
Qed.

Lemma withRetry_at_most_maxAttempts_witness :
  (3 < 1 /\ Some (mkError "timeout") = None
   /\ snd (withRetry alwaysFails 3 1000) = [])
  \/ (1 <= 3
      /\ exists (e : Error) (tr : list event),
           alwaysFails (Z.to_nat (3 - 1)) = Throw e
           /\ Some (mkError "timeout") = Some e
           /\ snd (withRetry alwaysFails 3 1000)
              = tr ++ [Invoke 3; Log 3 (message e)]
           /\ invocations (snd (withRetry alwaysFails 3 1000)) = seqZ 1 3).
Proof.
  apply (withRetry_at_most_maxAttempts alwaysFails 3 1000). reflexivity.
Defined.

End RetryFacts.

(** ** Stock monitoring *)

Module MonitorFacts.
Import Js Monitor.

Example monitorStock_third_time_lucky :
  monitorStock thirdTimeLucky half 5000 10
  = (Resolved available,
     [CheckStock 0; Sleep (5000 + ((1 # 2) * 2000 - 1000));
      CheckStock 1; Sleep (5000 + ((1 # 2) * 2000 - 1000));
      CheckStock 2; Sleep (5000 + ((1 # 2) * 2000 - 1000));
      CheckStock 3]%Q).
Proof. reflexivity. Qed.

Section Loop.
Variable checkStock : nat -> completion StockStatus.
Variable random : nat -> Q.
Variable checkInterval : Q.

Abbreviation loop := (monitorLoop checkStock random checkInterval).

Lemma loop_out_of_stock (fuel n : nat) :
  outOfStockAt checkStock n ->
  loop (S fuel) n
  = (fst (loop fuel (S n)),
     CheckStock n :: Sleep (checkInterval + jitter random n)%Q :: snd (loop fuel (S n))).
Proof.
  intros (status & Hcheck & Hout). cbn. rewrite Hcheck, Hout.
  by destruct (loop fuel (S n)).
Qed.

Lemma loop_in_stock (fuel n : nat) (status : StockStatus) :
  checkStock n = Return status -> inStock status = true ->
  loop (S fuel) n = (Resolved status, [CheckStock n]).
Proof. intros Hcheck Hin. cbn. by rewrite Hcheck, Hin. Qed.

(** [m] checks out of stock: [m] checks, each followed by a sleep. *)
Lemma loop_waits (m fuel n : nat) :
  (forall k, (k < m)%nat -> outOfStockAt checkStock (n + k)) ->
  fst (loop (m + fuel) n) = fst (loop fuel (n + m))
  /\ checks (snd (loop (m + fuel) n)) = seq n m ++ checks (snd (loop fuel (n + m)))
  /\ sleeps (snd (loop (m + fuel) n))
     = ((fun k => (checkInterval + jitter random k)%Q) <$> seq n m)
       ++ sleeps (snd (loop fuel (n + m))).
Proof.
  revert n. induction m as [|m IH]; intros n Hout.
  - cbn. by rewrite Nat.add_0_r.
  - cbn [Nat.add]. rewrite loop_out_of_stock
      by (specialize (Hout 0%nat); rewrite Nat.add_0_r in Hout; apply Hout; lia).
    cbn [fst snd].
    destruct (IH (S n)) as (Hfst & Hchecks & Hsleeps).
    { intros k Hk. replace (S n + k)%nat with (n + S k)%nat by lia. apply Hout. lia. }
    replace (n + S m)%nat with (S n + m)%nat by lia.
    repeat split.
    + exact Hfst.
    + unfold checks in *. cbn. by rewrite Hchecks.
    + unfold sleeps in *. cbn. by rewrite Hsleeps.
Qed.

(** The sleep after a check lies within a second of [checkInterval]. *)
Lemma jitter_bounds (n : nat) :
  (0 <= random n < 1)%Q ->
  (checkInterval - 1000 <= checkInterval + jitter random n < checkInterval + 1000)%Q.
Proof. unfold jitter. intros [H0 H1]. split; lra. Qed.

End Loop.

(** *** The loop of monitor (src/test-costco.ts) *)

Example monitor_fourth_check :
  Costco.monitorLoop (Costco.CONFIG "https://www.costco.com/p.html" "https://hook") 
    Costco.fourthCheckWorld 4 0
  = (Costco.StillRunning,
     [Costco.ConsoleLog "Check"; Costco.CheckStock 1; Costco.ConsoleLog "Out of stock";
      Costco.WaitForTimeout 30000;
      Costco.ConsoleLog "Check"; Costco.CheckStock 2; Costco.ConsoleLog "Out of stock";
      Costco.WaitForTimeout 30000;
      Costco.ConsoleLog "Check"; Costco.CheckStock 3; Costco.ConsoleLog "Out of stock";
      Costco.WaitForTimeout 30000;
      Costco.ConsoleLog "Check"; Costco.CheckStock 4; Costco.ConsoleLog "IN STOCK";
      Costco.ConsoleLog "📢 🎉 ITEM IN STOCK! https://www.costco.com/p.html";
      Costco.Fetch "https://hook" "@everyone 🚨 🎉 ITEM IN STOCK! https://www.costco.com/p.html";
      Costco.ConsoleError "Failed to send Discord notification";
      Costco.Screenshot; Costco.AddToCart; Costco.Checkout;
      Costco.WaitForTimeout 30000]).
Proof. reflexivity. Qed.

Lemma iteration_out_of_stock (cfg : Costco.Config) (w : Costco.World)
    (n : Z) (buttonText : option string) :
  Costco.checkStock w n = Return (false, buttonText) ->
  Costco.iteration cfg w n tt
  = (tt,
     [Costco.ConsoleLog "Check"; Costco.CheckStock n; Costco.ConsoleLog "Out of stock";
      Costco.WaitForTimeout (Costco.checkIntervalMs cfg)],
     Costco.pause w n).
Proof.
  intros Hcheck. unfold Costco.iteration, mbind, Eff.prog_bind, Eff.bind, Eff.await, Eff.emit.
  rewrite Hcheck. reflexivity.
Qed.

Lemma monitor_never_in_stock (cfg : Costco.Config) (w : Costco.World) :
  (forall n, exists buttonText, Costco.checkStock w n = Return (false, buttonText)) ->
  (forall n, Costco.pause w n = Return tt) ->
  forall (fuel : nat) (checkCount : Z),
    fst (Costco.monitorLoop cfg w fuel checkCount) = Costco.StillRunning
    /\ Costco.checks (snd (Costco.monitorLoop cfg w fuel checkCount))
       = seqZ (checkCount + 1) (Z.of_nat fuel).
Proof.
  intros Hstock Hpause. induction fuel as [|fuel IH]; intros checkCount; [done |].
  cbn [Costco.monitorLoop]. destruct (Hstock (checkCount + 1)) as [bt Hbt].
  rewrite (iteration_out_of_stock _ _ _ bt Hbt), Hpause.
  destruct (IH (checkCount + 1)) as [Hfst Hchecks].
  destruct (Costco.monitorLoop cfg w fuel (checkCount + 1)) as [o tr].
  cbn in *. split; [exact Hfst |].
  unfold Costco.checks in *. cbn. rewrite Hchecks.
  rewrite (seqZ_cons (checkCount + 1)) by lia.
  do 2 f_equal. lia.
Qed.

(** *** No time limit *)

(** C3, as stated, fails.  For a product that never comes in stock,
    [monitorStock] is still checking after any number of checks, and so
    is the loop of [monitor]: neither is bounded, and no failure is
    reported. *)
Lemma monitoring_has_no_time_limit :
  ~ bounded (monitorStock neverInStock half defaultCheckInterval)
  /\ ~ Costco.bounded
        (fun fuel => Costco.monitorLoop (Costco.CONFIG "https://www.costco.com/p.html" "")
                       Costco.quietWorld fuel 0).
Proof.
  split; intros [fuel Hend]; apply Hend; clear Hend.
  - unfold monitorStock.
    destruct (loop_waits neverInStock half defaultCheckInterval fuel 0 0) as [Hfst _].
    { intros k _. by exists outOfStock. }
    by rewrite Nat.add_0_r in Hfst.
  - apply monitor_never_in_stock; [by exists None | done].
Qed.

(** C3, amended.  Monitoring has no time limit and no [StockTimeout].
    [monitorStock] returns when a check reports the product in stock,
    after one wait for each check before it; while every check reports
    out of stock it goes on: after any number of checks and as many waits
    it is still running.  The same holds of the loop of [monitor]. *)
Theorem monitorStock_runs_until_in_stock
    (checkStock : nat -> completion StockStatus) (random : nat -> Q) (checkInterval : Q)
    (cfg : Costco.Config) (w : Costco.World) :
  (forall (m : nat) (status : StockStatus) (fuel : nat),
      (forall k, (k < m)%nat -> outOfStockAt checkStock k) ->
      checkStock m = Return status -> inStock status = true ->
      fst (monitorStock checkStock random checkInterval (m + S fuel)) = Resolved status
      /\ checks (snd (monitorStock checkStock random checkInterval (m + S fuel)))
         = seq 0 (S m)
      /\ length (sleeps (snd (monitorStock checkStock random checkInterval (m + S fuel))))
         = m)
  /\ ((forall k, outOfStockAt checkStock k) ->
      forall fuel : nat,
        fst (monitorStock checkStock random checkInterval fuel) = Running
        /\ checks (snd (monitorStock checkStock random checkInterval fuel)) = seq 0 fuel
        /\ length (sleeps (snd (monitorStock checkStock random checkInterval fuel))) = fuel)
  /\ ((forall n, exists buttonText, Costco.checkStock w n = Return (false, buttonText)) ->
      (forall n, Costco.pause w n = Return tt) ->
      forall fuel : nat,
        fst (Costco.monitorLoop cfg w fuel 0) = Costco.StillRunning
        /\ Costco.checks (snd (Costco.monitorLoop cfg w fuel 0)) = seqZ 1 (Z.of_nat fuel)).
Proof.
  split; [| split].
  - intros m status fuel Hout Hcheck Hin. unfold monitorStock.
    destruct (loop_waits checkStock random checkInterval m (S fuel) 0 Hout)
      as (Hfst & Hchecks & Hsleeps).
    cbn [Nat.add] in Hfst, Hchecks, Hsleeps.
    rewrite (loop_in_stock _ _ _ _ _ status Hcheck Hin) in Hfst, Hchecks, Hsleeps.
    cbn [fst snd] in Hfst, Hchecks, Hsleeps.
    rewrite Hfst, Hchecks, Hsleeps. repeat split.
    + by rewrite seq_S.
    + rewrite length_app, length_fmap, length_seq. cbn. lia.
  - intros Hout fuel. unfold monitorStock.
    destruct (loop_waits checkStock random checkInterval fuel 0 0 (fun k _ => Hout k))
      as (Hfst & Hchecks & Hsleeps).
    rewrite Nat.add_0_r in Hfst, Hchecks, Hsleeps.
    rewrite Hfst, Hchecks, Hsleeps. cbn. repeat split.
    + by rewrite app_nil_r.
    + by rewrite app_nil_r, length_fmap, length_seq.
  - intros Hstock Hpause fuel. by apply monitor_never_in_stock.
Qed.

Lemma monitorStock_runs_until_in_stock_witness :
  (fst (monitorStock thirdTimeLucky half defaultCheckInterval (3 + 1)) = Resolved available
   /\ checks (snd (monitorStock thirdTimeLucky half defaultCheckInterval (3 + 1)))
      = seq 0 4
   /\ length (sleeps (snd (monitorStock thirdTimeLucky half defaultCheckInterval (3 + 1))))
      = 3%nat)
  /\ (fst (monitorStock neverInStock half defaultCheckInterval 7) = Running
      /\ checks (snd (monitorStock neverInStock half defaultCheckInterval 7)) = seq 0 7
      /\ length (sleeps (snd (monitorStock neverInStock half defaultCheckInterval 7)))
         = 7%nat)
  /\ (fst (Costco.monitorLoop (Costco.CONFIG "https://www.costco.com/p.html" "")
             Costco.quietWorld 7 0) = Costco.StillRunning
      /\ Costco.checks
           (snd (Costco.monitorLoop (Costco.CONFIG "https://www.costco.com/p.html" "")
                   Costco.quietWorld 7 0)) = seqZ 1 7).
Proof.
  split; [| split].
  - apply (proj1 (monitorStock_runs_until_in_stock thirdTimeLucky half defaultCheckInterval
                    (Costco.CONFIG "https://www.costco.com/p.html" "") Costco.quietWorld)
             3%nat available 0%nat).
    + intros k Hk. exists outOfStock. split; [| reflexivity].
      unfold thirdTimeLucky. by rewrite (proj2 (Nat.ltb_lt k 3) Hk).
    + reflexivity.
    + reflexivity.
  - apply (proj1 (proj2 (monitorStock_runs_until_in_stock neverInStock half
                           defaultCheckInterval
                           (Costco.CONFIG "https://www.costco.com/p.html" "")
                           Costco.quietWorld))).
    intros k. exists outOfStock. split; reflexivity.
  - apply (proj2 (proj2 (monitorStock_runs_until_in_stock neverInStock half
                           defaultCheckInterval
                           (Costco.CONFIG "https://www.costco.com/p.html" "")
                           Costco.quietWorld))).
    + intros n. exists None. reflexivity.
    + intros n. reflexivity.
Defined.

(** *** Waiting for stock *)

(** C7, as stated, fails.  Out of stock three times and then in stock:
    [monitorStock] sleeps three times before it returns, not twice, one
    sleep after each check that found the product out of stock. *)
Lemma monitorStock_waits_three_times :
  ~ length (sleeps (snd (monitorStock thirdTimeLucky half defaultCheckInterval 10)))
    = 2%nat.
Proof. cbn. discriminate. Qed.

(** C7, amended.  If [checkStock] reports out of stock three times and
    then in stock, [monitorStock] sleeps exactly three times, once after
    each of the three checks, and then returns the status of the fourth
    check, on which the caller adds to the cart.  Each sleep lasts
    [checkInterval] plus a jitter of at least -1000 ms and less than
    1000 ms; these two bounds are constants of the code.  In the loop of
    [monitor] the wait after a check that found the product out of stock
    is the fixed [CONFIG.checkIntervalMs]. *)
Theorem monitorStock_three_waits_then_in_stock
    (checkStock : nat -> completion StockStatus) (random : nat -> Q) (checkInterval : Q)
    (status : StockStatus) (fuel : nat)
    (cfg : Costco.Config) (w : Costco.World) (n : Z) (buttonText : option string) :
  (forall k, 0 <= random k < 1)%Q ->
  (forall k, (k < 3)%nat -> outOfStockAt checkStock k) ->
  checkStock 3%nat = Return status ->
  inStock status = true ->
  Costco.checkStock w n = Return (false, buttonText) ->
  fst (monitorStock checkStock random checkInterval (4 + fuel)) = Resolved status
  /\ checks (snd (monitorStock checkStock random checkInterval (4 + fuel)))
     = [0; 1; 2; 3]%nat
  /\ sleeps (snd (monitorStock checkStock random checkInterval (4 + fuel)))
     = [checkInterval + jitter random 0; checkInterval + jitter random 1;
        checkInterval + jitter random 2]%Q
  /\ Forall (fun ms => checkInterval - 1000 <= ms < checkInterval + 1000)%Q
       (sleeps (snd (monitorStock checkStock random checkInterval (4 + fuel))))
  /\ Costco.waits (snd (fst (Costco.iteration cfg w n tt)))
     = [Costco.checkIntervalMs cfg].
Proof.
  intros Hrandom Hout Hcheck Hin Hcostco. unfold monitorStock.
  destruct (loop_waits checkStock random checkInterval 3 (S fuel) 0 Hout)
    as (Hfst & Hchecks & Hsleeps).
  cbn [Nat.add] in Hfst, Hchecks, Hsleeps.
  rewrite (loop_in_stock _ _ _ _ _ status Hcheck Hin) in Hfst, Hchecks, Hsleeps.
  cbn [fst snd] in Hfst, Hchecks, Hsleeps.
  change (4 + fuel)%nat with (S (S (S (S fuel)))).
  rewrite Hfst, Hchecks, Hsleeps. repeat split.
  - cbn. repeat constructor; apply jitter_bounds, Hrandom.
  - by rewrite (iteration_out_of_stock _ _ _ buttonText Hcostco).
Qed.

Lemma monitorStock_three_waits_then_in_stock_witness :
  fst (monitorStock thirdTimeLucky half defaultCheckInterval (4 + 0)) = Resolved available
  /\ checks (snd (monitorStock thirdTimeLucky half defaultCheckInterval (4 + 0)))
     = [0; 1; 2; 3]%nat
  /\ sleeps (snd (monitorStock thirdTimeLucky half defaultCheckInterval (4 + 0)))
     = [defaultCheckInterval + jitter half 0; defaultCheckInterval + jitter half 1;
        defaultCheckInterval + jitter half 2]%Q
  /\ Forall (fun ms => defaultCheckInterval - 1000 <= ms < defaultCheckInterval + 1000)%Q
       (sleeps (snd (monitorStock thirdTimeLucky half defaultCheckInterval (4 + 0))))
  /\ Costco.waits
       (snd (fst (Costco.iteration (Costco.CONFIG "https://www.costco.com/p.html" "")
                    Costco.quietWorld 1 tt)))
     = [Costco.checkIntervalMs (Costco.CONFIG "https://www.costco.com/p.html" "")].
Proof.
  apply (monitorStock_three_waits_then_in_stock thirdTimeLucky half defaultCheckInterval
           available 0 (Costco.CONFIG "https://www.costco.com/p.html" "")
           Costco.quietWorld 1 None).
  - intros k. unfold half. split; [discriminate | reflexivity].
  - intros k Hk. exists outOfStock. split; [| reflexivity].
    unfold thirdTimeLucky. by rewrite (proj2 (Nat.ltb_lt k 3) Hk).
  - reflexivity.
  - reflexivity.
  - reflexivity.
Defined.

End MonitorFacts.

(** ** notify *)

Module NotifyFacts.
Import Js Eff Costco.

Example notify_webhook_down :
  notify (CONFIG "https://www.costco.com/p.html" "https://hook")
    (Throw (mkError "ECONNREFUSED")) "CAPTCHA" true tt
  = (tt,
     [ConsoleLog "📢 CAPTCHA"; Fetch "https://hook" "@everyone 🚨 CAPTCHA";
      ConsoleError "Failed to send Discord notification"],
     Return tt).
Proof. reflexivity. Qed.

(** Once the request has settled [notify] returns normally: when the
    request was rejected the error is caught and reported on the
    console; when no webhook is configured no request is made. *)
Lemma notify_swallows_failures (cfg : Config) (sent : completion unit)
    (message : string) (urgent : bool)
    (url : string) (interval : Z) (c : Ascii.ascii) (hook : string) (e : Error) :
  snd (notify cfg sent message urgent tt) = Return tt
  /\ notify (mkConfig url interval "") sent message urgent tt
     = (tt, [ConsoleLog ("📢 " +:+ message)], Return tt)
  /\ notify (mkConfig url interval (String c hook)) (Throw e) message urgent tt
     = (tt,
        [ConsoleLog ("📢 " +:+ message);
         Fetch (String c hook) (content message urgent);
         ConsoleError "Failed to send Discord notification"],
        Return tt).
Proof.
  split; [| split; reflexivity].
  unfold notify, mbind, mret, prog_bind, prog_ret, bind, tryCatch, emit, await, pure.
  destruct (truthy (discordWebhook cfg)); [| reflexivity].
  destruct sent as [[] | e']; reflexivity.
Qed.

(** The two models of [notify] agree on a request that has settled. *)
Lemma notify_settled (cfg : Config) (sent : completion unit) (message : string)
    (urgent : bool) :
  Awaiting.notify cfg (Awaiting.Settled sent) message urgent
  = (snd (fst (notify cfg sent message urgent tt)),
     Awaiting.Settled (snd (notify cfg sent message urgent tt))).
Proof.
  unfold Awaiting.notify, notify.
  destruct (truthy (discordWebhook cfg)); [| reflexivity].
  destruct sent as [[] | e]; reflexivity.
Qed.

(** With a webhook configured and a request that has not settled,
    [notify] has not returned, and the screenshot that follows
    [await notify(...)] in the loop has not been taken: the caller is
    blocked for as long as the request takes. *)
Lemma notify_blocks_while_request_pending :
  Awaiting.notify (CONFIG "https://www.costco.com/p.html" "https://hook")
    Awaiting.Pending "CAPTCHA" true
  = ([ConsoleLog "📢 CAPTCHA"; Fetch "https://hook" "@everyone 🚨 CAPTCHA"],
     Awaiting.Pending)
  /\ Awaiting.announce (CONFIG "https://www.costco.com/p.html" "https://hook")
       Awaiting.Pending (Awaiting.Settled (Return tt))
     = ([ConsoleLog "IN STOCK";
         ConsoleLog "📢 🎉 ITEM IN STOCK! https://www.costco.com/p.html";
         Fetch "https://hook" "@everyone 🚨 🎉 ITEM IN STOCK! https://www.costco.com/p.html"],
        Awaiting.Pending)
  /\ ~ Awaiting.fireAndForget.
Proof.
  split; [reflexivity |]. split; [reflexivity |].
  intros H.
  specialize (H (CONFIG "https://www.costco.com/p.html" "https://hook")
                Awaiting.Pending "CAPTCHA" true).
  discriminate H.
Qed.

(** C8.  [notify] swallows failures but is not fire-and-forget.  It never
    throws, whatever the request does.  Once the request has settled,
    resolved or rejected, it has returned normally; a rejection is caught
    and reported on the console, and with no webhook configured no
    request is made and it returns at once.  It awaits the request: with
    a webhook configured and the request pending it has not returned, and
    whatever the caller does after [await notify(...)] has not run. *)
Theorem notify_returns_when_request_settles (cfg : Config) (sent : completion unit)
    (request : Awaiting.promise unit) (message : string) (urgent : bool)
    (url : string) (interval : Z) (c : Ascii.ascii) (hook : string) (e : Error)
    (next : unit -> Awaiting.async unit) :
  (forall e', snd (Awaiting.notify cfg request message urgent)
              <> Awaiting.Settled (Throw e'))
  /\ snd (Awaiting.notify cfg (Awaiting.Settled sent) message urgent)
     = Awaiting.Settled (Return tt)
  /\ Awaiting.notify (mkConfig url interval "") request message urgent
     = ([ConsoleLog ("📢 " +:+ message)], Awaiting.Settled (Return tt))
  /\ Awaiting.notify (mkConfig url interval (String c hook))
       (Awaiting.Settled (Throw e)) message urgent
     = ([ConsoleLog ("📢 " +:+ message);
         Fetch (String c hook) (content message urgent);
         ConsoleError "Failed to send Discord notification"],
        Awaiting.Settled (Return tt))
  /\ Awaiting.notify (mkConfig url interval (String c hook)) Awaiting.Pending message urgent
     = ([ConsoleLog ("📢 " +:+ message);
         Fetch (String c hook) (content message urgent)],
        Awaiting.Pending)
  /\ (Awaiting.notify (mkConfig url interval (String c hook)) Awaiting.Pending message urgent
      ≫= next)
     = ([ConsoleLog ("📢 " +:+ message);
         Fetch (String c hook) (content message urgent)],
        Awaiting.Pending).
Proof.
  split; [| split; [| repeat split; reflexivity]].
  - intros e'. unfold Awaiting.notify.
    destruct (truthy (discordWebhook cfg)); [| discriminate].
    destruct request as [[[] | e0] |]; discriminate.
  - unfold Awaiting.notify.
    destruct (truthy (discordWebhook cfg)); [| reflexivity].
    destruct sent as [[] | e0]; reflexivity.
Qed.

End NotifyFacts.

(** ** The MCP server *)

Module McpServerFacts.
Import Js Eff Launcher McpServer.

Example wait_five_seconds :
  handleToolCall calmWorld "wait" (secondsArg (VNum (Fin 5))) initial
  = (initial, [Log "Waiting"; Sleep (Fin (5 * 1000))], Return (Waited (Fin 5))).
Proof. reflexivity. Qed.

Example wait_a_day :
  handleToolCall calmWorld "wait" (secondsArg (VNum (Fin 86400))) initial
  = (initial, [Log "Waiting"; Sleep (Fin (30 * 1000))], Return (Waited (Fin 30))).
Proof. reflexivity. Qed.

(** Without a [seconds] argument the clamp yields NaN. *)
Example wait_without_seconds :
  handleToolCall calmWorld "wait" noArgs initial
  = (initial, [Log "Waiting"; Sleep NaN], Return (Waited NaN)).
Proof. reflexivity. Qed.

Example click_before_launch :
  callTool calmWorld "click" (Some noArgs) initial
  = (initial, [],
     Return (mkResponse (ErrorText "Browser not launched. Call launchBrowser() first.")
               (Some true))).
Proof. reflexivity. Qed.

Example click_after_launch :
  let '(st, _, _) := callTool calmWorld "launch_browser" None initial in
  callTool calmWorld "click" (Some noArgs) st
  = (st, [Log "Clicking"], Return (mkResponse (ResultText (Success "Clicked undefined")) None)).
Proof. reflexivity. Qed.

(** *** The wait tool *)

Lemma clamp_in_range (n : number) :
  n <> NaN ->
  exists s : Q,
    Math_min (Math_max n (Fin 1)) (Fin 30) = Fin s
    /\ (1 <= s <= 30)%Q
    /\ forall q, n = Fin q -> (s == Qmin (Qmax q 1) 30)%Q.
Proof.
  intros Hn. destruct n as [q | | |]; [| | | done].
  - cbn. destruct (Qle_bool q 1) eqn:Hq1.
    + exists 1%Q. cbn. apply Qle_bool_iff in Hq1. repeat split; try done.
      intros q' [= <-].
      destruct (Q.max_spec q 1) as [[Hc Hmax] | [Hc Hmax]],
               (Q.min_spec (Qmax q 1) 30) as [[Hlt Hmin] | [Hlt Hmin]]; lra.
    + assert (1 < q)%Q as Hlt1.
      { apply Qnot_le_lt. intros Hle. apply Qle_bool_iff in Hle. congruence. }
      cbn. destruct (Qle_bool q 30) eqn:Hq30.
      * exists q. apply Qle_bool_iff in Hq30. repeat split; [lra | lra |].
        intros q' [= <-].
        destruct (Q.max_spec q 1) as [[Hc Hmax] | [Hc Hmax]],
                 (Q.min_spec (Qmax q 1) 30) as [[Hlt Hmin] | [Hlt Hmin]]; lra.
      * assert (30 < q)%Q as Hlt30.
        { apply Qnot_le_lt. intros Hle. apply Qle_bool_iff in Hle. congruence. }
        exists 30%Q. repeat split; try done.
        intros q' [= <-].
        destruct (Q.max_spec q 1) as [[Hc Hmax] | [Hc Hmax]],
                 (Q.min_spec (Qmax q 1) 30) as [[Hlt Hmin] | [Hlt Hmin]]; lra.
  - exists 30%Q. cbn. repeat split; done.
  - exists 1%Q. cbn. repeat split; done.
Qed.

(** C9.  For a numeric [seconds] (any number but NaN, which JSON cannot
    carry) the [wait] tool sleeps [s * 1000] ms and reports [s] seconds
    where [s] is [min(max(seconds, 1), 30)]: at least 1 and at most 30
    seconds. *)
Theorem wait_clamps_seconds (w : World) (args : Args) (st : Store) (n : number) :
  seconds args = VNum n ->
  n <> NaN ->
  exists s : Q,
    handleToolCall w "wait" args st
    = (st, [Log "Waiting"; Sleep (Fin (s * 1000))], Return (Waited (Fin s)))
    /\ (1 <= s <= 30)%Q
    /\ (1000 <= s * 1000 <= 30000)%Q
    /\ forall q, n = Fin q -> (s == Qmin (Qmax q 1) 30)%Q.
Proof.
  intros Hargs Hn. destruct (clamp_in_range n Hn) as (s & Hclamp & Hrange & Hs).
  exists s. repeat split; try tauto; try lra.
  unfold handleToolCall. cbn [String.eqb Ascii.eqb Bool.eqb].
  rewrite Hargs. cbn [ToNumber]. rewrite Hclamp. reflexivity.
Qed.

Lemma wait_clamps_seconds_witness :
  exists s : Q,
    handleToolCall calmWorld "wait" (secondsArg (VNum (Fin 86400))) initial
    = (initial, [Log "Waiting"; Sleep (Fin (s * 1000))], Return (Waited (Fin s)))
    /\ (1 <= s <= 30)%Q
    /\ (1000 <= s * 1000 <= 30000)%Q
    /\ forall q, Fin 86400 = Fin q -> (s == Qmin (Qmax q 1) 30)%Q.
Proof.
  apply (wait_clamps_seconds calmWorld (secondsArg (VNum (Fin 86400))) initial (Fin 86400)).
  - reflexivity.
  - discriminate.
Defined.

(** *** Tools that need the page *)

Lemma getPage_not_launched (st : Store) :
  page st = None ->
  getPage st = (st, [], Throw (mkError "Browser not launched. Call launchBrowser() first.")).
Proof. intros Hpage. unfold getPage, mbind, prog_bind, bind, get. cbn. by rewrite Hpage. Qed.

Lemma bind_throw {S Ev A B : Type} (m : Eff.prog S Ev A) (f : A -> Eff.prog S Ev B)
    (s s' : S) (tr : list Ev) (e : Error) :
  m s = (s', tr, Throw e) -> (m ≫= f) s = (s', tr, Throw e).
Proof. intros Hm. unfold mbind, prog_bind, bind. by rewrite Hm. Qed.

Lemma callTool_catches (w : World) (name : string) (args : option Args) (st : Store) :
  callTool w name args st
  = match handleToolCall w name (default noArgs args) st with
    | (st', tr, Return result) => (st', tr, Return (mkResponse (ResultText result) None))
    | (st', tr, Throw error) =>
        (st', tr, Return (mkResponse (ErrorText (message error)) (Some true)))
    end.
Proof.
  unfold callTool, tryCatch, mbind, mret, prog_bind, prog_ret, bind, pure.
  destruct (handleToolCall w name (default noArgs args) st) as [[st' tr] [result | error]];
    cbn; by rewrite app_nil_r.
Qed.

(** C10.  While no page is open (before [launch_browser], and after
    [close_browser]), each of the seven tools that work on the page
    throws the error of [getPage], and the handler answers with
    [isError: true] and that message.  Whatever the tool and its
    arguments, the handler itself returns: an error thrown by the tool
    becomes the text of a response with [isError: true]. *)
Theorem browser_tools_fail_before_launch (w : World) (tool : string) (args : Args)
    (st : Store) :
  tool ∈ browserTools ->
  page st = None ->
  handleToolCall w tool args st
  = (st, [], Throw (mkError "Browser not launched. Call launchBrowser() first."))
  /\ callTool w tool (Some args) st
     = (st, [],
        Return (mkResponse (ErrorText "Browser not launched. Call launchBrowser() first.")
                  (Some true)))
  /\ (forall (name : string) (request : option Args) (s : Store),
        exists (s' : Store) (tr : list event) (response : CallToolResult),
          callTool w name request s = (s', tr, Return response))
  /\ (forall (name : string) (request : option Args) (s s' : Store)
             (tr : list event) (error : Error),
        handleToolCall w name (default noArgs request) s = (s', tr, Throw error) ->
        callTool w name request s
        = (s', tr, Return (mkResponse (ErrorText (message error)) (Some true)))).
Proof.
  intros Htool Hpage.
  assert (handleToolCall w tool args st
          = (st, [], Throw (mkError "Browser not launched. Call launchBrowser() first.")))
    as Hthrow.
  { unfold browserTools in Htool.
    repeat (apply elem_of_cons in Htool as [-> | Htool]);
      [.. | by apply elem_of_nil in Htool];
      unfold handleToolCall; cbn [String.eqb Ascii.eqb Bool.eqb];
      apply bind_throw, getPage_not_launched, Hpage. }
  repeat split.
  - exact Hthrow.
  - rewrite callTool_catches.
    change (default noArgs (Some args)) with args. by rewrite Hthrow.
  - intros name request s. rewrite callTool_catches.
    destruct (handleToolCall w name (default noArgs request) s) as [[s' tr] [result | error]];
      eauto.
  - intros name request s s' tr error Hcall. rewrite callTool_catches. by rewrite Hcall.
Qed.

Lemma browser_tools_fail_before_launch_witness :
  handleToolCall calmWorld "navigate" noArgs initial
  = (initial, [], Throw (mkError "Browser not launched. Call launchBrowser() first."))
  /\ callTool calmWorld "navigate" (Some noArgs) initial
     = (initial, [],
        Return (mkResponse (ErrorText "Browser not launched. Call launchBrowser() first.")
                  (Some true))).
Proof.
  destruct (browser_tools_fail_before_launch calmWorld "navigate" noArgs initial)
    as (Hcall & Hresponse & _).
  - unfold browserTools. right. left.
  - reflexivity.
  - split; [exact Hcall | exact Hresponse].
Defined.

End McpServerFacts.

(** * Further properties of the code *)

(** ** Proxy pools: rotation, health and bans *)

Module ProxyPoolMore.
Import Js ProxyPool.

(** *** getNext on a pool that is, or is not, empty *)

Lemma getNextMany_empty (n : nat) (i : index) :
  fst (getNextMany n (mkRotating [] i)) = replicate n None.
Proof.
  revert i. induction n as [|n IH]; intros i; [reflexivity |].
  cbn [getNextMany]. unfold getNext. cbn [proxies currentIndex length].
  specialize (IH (succ_mod i 0)).
  destruct (getNextMany n (mkRotating [] (succ_mod i 0))) as [ps s]. cbn in *.
  rewrite IH. f_equal. destruct i; reflexivity.
Qed.

(** X1.  On a pool that is not empty and whose index is in range,
    [getNext] never returns [undefined], however often it is called, and
    it leaves the index in range and the list of proxies as it was; on
    an empty pool every call returns [undefined]. *)
Theorem getNext_defined_on_nonempty_pool (ps : list ProxyConfig) (i n : nat) (j : index) :
  (i < length ps)%nat ->
  Forall (fun p => exists q, p = Some q /\ q ∈ ps)
    (fst (getNextMany n (mkRotating ps (Idx i))))
  /\ (exists i', (i' < length ps)%nat
               /\ snd (getNextMany n (mkRotating ps (Idx i))) = mkRotating ps (Idx i'))
  /\ fst (getNextMany n (mkRotating [] j)) = replicate n None.
Proof.
  intros Hi. rewrite ProxyPoolFacts.getNextMany_round_robin by done. cbn [fst snd].
  repeat split.
  - apply Forall_fmap, Forall_forall. intros k _. cbn.
    destruct (lookup_lt_is_Some_2 ps ((i + k) mod length ps)) as [q Hq].
    { apply Nat.mod_upper_bound. lia. }
    exists q. split; [done |]. by eapply list_elem_of_lookup_2.
  - exists ((i + n) mod length ps)%nat. split; [| done].
    apply Nat.mod_upper_bound. lia.
  - apply getNextMany_empty.
Qed.

Lemma getNext_defined_on_nonempty_pool_witness :
  Forall (fun p => exists q, p = Some q /\ q ∈ twoProxies)
    (fst (getNextMany 5 (mkRotating twoProxies (Idx 1))))
  /\ (exists i', (i' < length twoProxies)%nat
               /\ snd (getNextMany 5 (mkRotating twoProxies (Idx 1)))
                  = mkRotating twoProxies (Idx i'))
  /\ fst (getNextMany 5 (mkRotating [] (Idx 0))) = replicate 5 None.
Proof.
  apply (getNext_defined_on_nonempty_pool twoProxies 1 5 (Idx 0)). cbn. lia.
Defined.

(** *** Health after a check *)

(** X2.  Right after [checkProxy], the proxy checked is healthy exactly
    when the request was answered with [response.ok] in less than
    5000 ms, whatever its earlier failures; a request that threw makes it
    unhealthy.  The health of every other proxy is untouched. *)
Theorem checkProxy_decides_health
    (getFailures : gmap string ProxyHealth -> string -> Z)
    (start : Z) (proxy : ProxyConfig) (o : fetch_outcome) (checkedAt : Z)
    (healthMap : gmap string ProxyHealth) (other : string) :
  isProxyHealthy (snd (checkProxy getFailures start proxy o checkedAt healthMap))
    (px_id proxy)
  = match o with
    | Answered ok finished => ok && (finished - start <? 5000)
    | Failed => false
    end
  /\ (other <> px_id proxy ->
      isProxyHealthy (snd (checkProxy getFailures start proxy o checkedAt healthMap)) other
      = isProxyHealthy healthMap other).
Proof.
  split.
  - unfold isProxyHealthy, checkProxy.
    destruct o as [ok finished |]; cbn; rewrite lookup_insert_eq; cbn.
    + destruct ok; cbn; [| reflexivity]. reflexivity.
    + reflexivity.
  - intros Hne. unfold isProxyHealthy, checkProxy.
    destruct o as [ok finished |]; cbn; by rewrite lookup_insert_ne.
Qed.

Lemma checkProxy_decides_health_witness :
  isProxyHealthy
    (snd (checkProxy lastFailures 0 res1 (Answered true 120) 120 (healthMap twoProxyDetector)))
    "isp-1"
  = isProxyHealthy (healthMap twoProxyDetector) "isp-1".
Proof.
  apply (checkProxy_decides_health lastFailures 0 res1 (Answered true 120) 120
           (healthMap twoProxyDetector) "isp-1").
  discriminate.
Defined.

(** *** Bans in time *)

Lemma banHolds_earlier (t1 t2 : Z) (r : string) (b : Ban) :
  t1 <= t2 -> banHolds t2 r b = true -> banHolds t1 r b = true.
Proof.
  intros Hle. unfold banHolds. destruct (bool_decide (retailer b = r)); [| done].
  cbn. destruct (until b) as [u |]; cbn; [| done].
  rewrite !Z.ltb_lt. lia.
Qed.

(** X3.  Bans only expire: for a detector that is not changed, a proxy
    banned for a retailer at some time was banned for it at every
    earlier time, so that a proxy free of a ban stays free of it until
    [markAsBanned] is called again. *)
Theorem ban_holds_at_earlier_times (st : BanDetector) (proxyId retailer : string)
    (t1 t2 : Z) :
  t1 <= t2 ->
  isBannedFor t2 st proxyId retailer = true ->
  isBannedFor t1 st proxyId retailer = true.
Proof.
  intros Hle. unfold isBannedFor. rewrite !existsb_exists.
  intros (b & Hin & Hb). exists b. split; [done |]. by eapply banHolds_earlier.
Qed.

Lemma ban_holds_at_earlier_times_witness :
  isBannedFor 2000 (markAsBanned 1000 "res-1" "target" 3600000 twoProxyDetector)
    "res-1" "target" = true.
Proof.
  apply (ban_holds_at_earlier_times
           (markAsBanned 1000 "res-1" "target" 3600000 twoProxyDetector)
           "res-1" "target" 2000 3000).
  - lia.
  - vm_compute. reflexivity.
Defined.

(** X4.  [markAsBanned] adds to what was banned before: afterwards the
    proxy is banned for the retailer at time [t] exactly when it was
    already, or [t] is before [now + durationMs].  Proxies with another
    id are banned as before. *)
Theorem markAsBanned_holds_until_expiry (st : BanDetector) (now : Z)
    (proxyId retailer : string) (durationMs t : Z) (other : string) :
  Z.abs (now + durationMs) <= maxTime ->
  isBannedFor t (markAsBanned now proxyId retailer durationMs st) proxyId retailer
  = isBannedFor t st proxyId retailer || (t <? now + durationMs)
  /\ (other <> proxyId ->
      isBannedFor t (markAsBanned now proxyId retailer durationMs st) other retailer
      = isBannedFor t st other retailer).
Proof.
  intros Hvalid. unfold isBannedFor. rewrite !ProxyPoolFacts.bansOf_markAsBanned. split.
  - rewrite decide_True by done. rewrite existsb_app. cbn.
    unfold banHolds at 2. cbn. rewrite bool_decide_eq_true_2 by done.
    unfold mkDate. rewrite (proj2 (Z.leb_le _ _) Hvalid). cbn.
    by rewrite orb_false_r.
  - intros Hne. by rewrite decide_False by done.
Qed.

Lemma markAsBanned_holds_until_expiry_witness :
  isBannedFor 3601000 (markAsBanned 1000 "res-1" "target" 3600000 twoProxyDetector)
    "res-1" "target"
  = isBannedFor 3601000 twoProxyDetector "res-1" "target" || (3601000 <? 1000 + 3600000)
  /\ ("isp-1" <> "res-1" ->
      isBannedFor 3601000 (markAsBanned 1000 "res-1" "target" 3600000 twoProxyDetector)
        "isp-1" "target"
      = isBannedFor 3601000 twoProxyDetector "isp-1" "target").
Proof.
  apply (markAsBanned_holds_until_expiry twoProxyDetector 1000 "res-1" "target"
           3600000 3601000 "isp-1").
  vm_compute. discriminate.
Defined.

(** X5.  A duration that carries the expiry past the last instant a
    [Date] can hold gives an Invalid Date, which is later than no time:
    such a call of [markAsBanned] bans nothing, and
    [getAvailableProxy] answers as before. *)
Theorem markAsBanned_out_of_range_bans_nothing (st : BanDetector) (now : Z)
    (proxyId retailer : string) (durationMs t : Z) (id r : string) :
  maxTime < Z.abs (now + durationMs) ->
  isBannedFor t (markAsBanned now proxyId retailer durationMs st) id r
  = isBannedFor t st id r
  /\ getAvailableProxy t (markAsBanned now proxyId retailer durationMs st) r
     = getAvailableProxy t st r.
Proof.
  intros Hover.
  assert (forall id', isBannedFor t (markAsBanned now proxyId retailer durationMs st) id' r
                      = isBannedFor t st id' r) as Hsame.
  { intros id'. unfold isBannedFor. rewrite ProxyPoolFacts.bansOf_markAsBanned.
    destruct (decide (proxyId = id')) as [<- |]; [| done].
    rewrite existsb_app. cbn. unfold banHolds at 2, mkDate. cbn.
    rewrite (proj2 (Z.leb_gt _ _) Hover). cbn.
    by rewrite andb_false_r, !orb_false_r. }
  split; [apply Hsame |].
  unfold getAvailableProxy. cbn [pool markAsBanned].
  induction (pool st) as [|p ps IH]; [done |].
  cbn [firstUsable]. rewrite IH. unfold usable. by rewrite Hsame.
Qed.

Lemma markAsBanned_out_of_range_bans_nothing_witness :
  isBannedFor 2000
    (markAsBanned 1000 "res-1" "target" 9000000000000000 twoProxyDetector) "res-1" "target"
  = isBannedFor 2000 twoProxyDetector "res-1" "target"
  /\ getAvailableProxy 2000
       (markAsBanned 1000 "res-1" "target" 9000000000000000 twoProxyDetector) "target"
     = getAvailableProxy 2000 twoProxyDetector "target".
Proof.
  apply (markAsBanned_out_of_range_bans_nothing twoProxyDetector 1000 "res-1" "target"
           9000000000000000 2000 "res-1" "target").
  vm_compute. reflexivity.
Defined.

(** *** What getAvailableProxy returns *)

Lemma firstUsable_None (now : Z) (st : BanDetector) (r : string) (ps : list ProxyConfig) :
  firstUsable now st r ps = None <-> forall p, p ∈ ps -> usable now st r p = false.
Proof.
  induction ps as [|q ps IH]; cbn [firstUsable].
  - split; [| done]. intros _ p Hp. by apply elem_of_nil in Hp.
  - destruct (usable now st r q) eqn:Hq.
    + split; [done |]. intros H. specialize (H q ltac:(left)). congruence.
    + rewrite IH. split.
      * intros H p Hp. apply elem_of_cons in Hp as [-> | Hp]; [done | by apply H].
      * intros H p Hp. apply H. by right.
Qed.

(** X6.  A proxy returned by [getAvailableProxy] is one of the pool, is
    not banned for the retailer and is healthy; [null] is returned
    exactly when every proxy of the pool is banned for the retailer or
    unhealthy. *)
Theorem getAvailableProxy_sound_and_complete (now : Z) (st : BanDetector) (r : string) :
  (forall p, getAvailableProxy now st r = Some p ->
     p ∈ pool st
     /\ isBannedFor now st (px_id p) r = false
     /\ isProxyHealthy (healthMap st) (px_id p) = true)
  /\ (getAvailableProxy now st r = None <->
      forall p, p ∈ pool st ->
        isBannedFor now st (px_id p) r = true
        \/ isProxyHealthy (healthMap st) (px_id p) = false).
Proof.
  split.
  - intros p Hget. apply ProxyPoolFacts.firstUsable_Some in Hget as [Hin Hu].
    unfold usable in Hu. apply andb_true_iff in Hu as [Hban Hhealthy].
    apply negb_true_iff in Hban. done.
  - unfold getAvailableProxy. rewrite firstUsable_None. unfold usable.
    split; intros H p Hp; specialize (H p Hp).
    + apply andb_false_iff in H as [H | H]; [left | right; done].
      by apply negb_false_iff in H.
    + apply andb_false_iff. destruct H as [H | H]; [left | right; done].
      by apply negb_false_iff.
Qed.

Lemma getAvailableProxy_sound_and_complete_witness :
  res1 ∈ pool twoProxyDetector
  /\ isBannedFor 0 twoProxyDetector (px_id res1) "target" = false
  /\ isProxyHealthy (healthMap twoProxyDetector) (px_id res1) = true.
Proof.
  apply (proj1 (getAvailableProxy_sound_and_complete 0 twoProxyDetector "target") res1).
  vm_compute. reflexivity.
Defined.

End ProxyPoolMore.

(** ** Sticky sessions and geographic targeting *)

Module ProxySessionsFacts.
Import Js ProxyPool ProxySessions.

(** A manager over the two example proxies in which the session
    [checkout-1] holds [isp-1] until time 600000. *)
Example sticky_example :
  getProxyForSession "checkout-1" defaultDurationMs 0 0
    (mkSticky ∅ (mkRotating twoProxies (Idx 1)))
  = (Some isp1,
     mkSticky {[ "checkout-1" := mkSession (Some isp1) (Some 600000) ]}
       (mkRotating twoProxies (Idx 0))).
Proof. vm_compute. reflexivity. Qed.

Lemma perform_keeps_session (m : StickyProxyManager) (c : Call) (sid : string)
    (p : option ProxyConfig) (u : Z) :
  sessions m !! sid = Some (mkSession p (Some u)) ->
  callSession c <> sid \/ callChecked c < u ->
  sessions (snd (perform m c)) !! sid = Some (mkSession p (Some u)).
Proof.
  intros Hs Hc. unfold perform, getProxyForSession.
  destruct (decide (callSession c = sid)) as [Heq | Hne].
  - destruct Hc as [Hc | Hc]; [done |].
    rewrite Heq, Hs. cbn. by rewrite (proj2 (Z.ltb_lt _ _) Hc).
  - destruct (getNext (rotation m)) as [q rotation'].
    destruct (sessions m !! callSession c) as [existing |];
      [destruct (date_gt_now (expires existing) (callChecked c)) |];
      cbn; try done; by rewrite lookup_insert_ne.
Qed.

(** X7.  A session keeps its proxy until it expires, whatever the other
    sessions do: when [sessionId] holds proxy [p] until [u], then after
    any calls that are for other sessions or are made before [u],
    [getProxyForSession(sessionId)] called before [u] returns [p] and
    takes nothing from the rotation. *)
Theorem session_keeps_proxy_until_expiry (m : StickyProxyManager) (sessionId : string)
    (p : option ProxyConfig) (u : Z) (cs : list Call) (durationMs checked stamped : Z) :
  sessions m !! sessionId = Some (mkSession p (Some u)) ->
  Forall (fun c => callSession c <> sessionId \/ callChecked c < u) cs ->
  checked < u ->
  getProxyForSession sessionId durationMs checked stamped (afterCalls m cs)
  = (p, afterCalls m cs).
Proof.
  intros Hs Hcs Hlt.
  assert (sessions (afterCalls m cs) !! sessionId = Some (mkSession p (Some u))) as Hafter.
  { revert m Hs. induction Hcs as [|c cs Hc _ IH]; intros m Hs; [done |].
    cbn. apply IH. by apply perform_keeps_session. }
  unfold getProxyForSession. rewrite Hafter. cbn.
  by rewrite (proj2 (Z.ltb_lt _ _) Hlt).
Qed.

Lemma session_keeps_proxy_until_expiry_witness :
  getProxyForSession "checkout-1" defaultDurationMs 599999 599999
    (afterCalls
       (mkSticky {[ "checkout-1" := mkSession (Some isp1) (Some 600000) ]}
          (mkRotating twoProxies (Idx 0)))
       [mkCall "checkout-2" defaultDurationMs 700000 700000;
        mkCall "checkout-1" defaultDurationMs 1000 1000])
  = (Some isp1,
     afterCalls
       (mkSticky {[ "checkout-1" := mkSession (Some isp1) (Some 600000) ]}
          (mkRotating twoProxies (Idx 0)))
       [mkCall "checkout-2" defaultDurationMs 700000 700000;
        mkCall "checkout-1" defaultDurationMs 1000 1000]).
Proof.
  apply (session_keeps_proxy_until_expiry
           (mkSticky {[ "checkout-1" := mkSession (Some isp1) (Some 600000) ]}
              (mkRotating twoProxies (Idx 0)))
           "checkout-1" (Some isp1) 600000).
  - reflexivity.
  - constructor; [left; discriminate |].
    constructor; [right; cbn; lia |].
    constructor.
  - lia.
Defined.

(** X8.  Sessions that the manager has not seen take the proxies of
    the pool in rotation: called for distinct new session ids, with the
    rotation at index [i] of [N] proxies, the [j]-th call returns
    [proxies[(i + j) mod N]]. *)
Theorem new_sessions_take_proxies_in_rotation (ps : list ProxyConfig) (i : nat)
    (known : gmap string Session) (cs : list Call) :
  (i < length ps)%nat ->
  NoDup (callSession <$> cs) ->
  Forall (fun c => known !! callSession c = None) cs ->
  answers (mkSticky known (mkRotating ps (Idx i))) cs
  = (fun j => ps !! ((i + j) mod length ps)%nat) <$> seq 0 (length cs).
Proof.
  intros Hi Hnd Hnew. revert i known Hi Hnd Hnew.
  induction cs as [|c cs IH]; intros i known Hi Hnd Hnew; [reflexivity |].
  apply Forall_cons in Hnew as [Hc Hnew].
  rewrite fmap_cons in Hnd. apply NoDup_cons in Hnd as [Hnotin Hnd].
  cbn [answers length seq fmap list_fmap].
  unfold perform at 1 2, getProxyForSession. cbn [sessions rotation]. rewrite Hc.
  rewrite ProxyPoolFacts.getNext_at, ProxyPoolFacts.succ_mod_lt by lia. cbn [fst snd].
  rewrite Nat.add_0_r, (Nat.mod_small i) by lia. f_equal.
  rewrite IH.
  - rewrite <- seq_shift, <- list_fmap_compose.
    apply list_fmap_ext. intros _ j _. cbn.
    rewrite Nat.Div0.add_mod_idemp_l. do 2 f_equal. lia.
  - apply Nat.mod_upper_bound. lia.
  - done.
  - rewrite Forall_forall in Hnew |- *. intros c' Hc'.
    rewrite lookup_insert_ne; [by apply Hnew |].
    intros Heq. apply Hnotin. rewrite Heq. by apply list_elem_of_fmap_2.
Qed.

Lemma new_sessions_take_proxies_in_rotation_witness :
  answers (mkSticky ∅ (mkRotating twoProxies (Idx 1)))
    [mkCall "a" defaultDurationMs 0 0; mkCall "b" defaultDurationMs 5 5;
     mkCall "c" defaultDurationMs 9 9]
  = (fun j => twoProxies !! ((1 + j) mod length twoProxies)%nat) <$> seq 0 3.
Proof.
  apply (new_sessions_take_proxies_in_rotation twoProxies 1 ∅
           [mkCall "a" defaultDurationMs 0 0; mkCall "b" defaultDurationMs 5 5;
            mkCall "c" defaultDurationMs 9 9]).
  - cbn. lia.
  - cbn. apply (bool_decide_unpack (NoDup ["a"; "b"; "c"])). vm_compute. exact I.
  - repeat constructor.
Defined.

(** *** Geographic targeting *)

Lemma floor_index_in_range (r : Q) (n : nat) :
  (0 <= r < 1)%Q -> (0 < n)%nat ->
  0 <= Qfloor (r * inject_Z (Z.of_nat n)) < Z.of_nat n.
Proof.
  intros [H0 H1] Hn.
  assert (0 < inject_Z (Z.of_nat n))%Q as Hpos.
  { change 0%Q with (inject_Z 0). rewrite <- Zlt_Qlt. lia. }
  split.
  - change 0 with (Qfloor (inject_Z 0)) at 1.
    apply Qfloor_resp_le. change (inject_Z 0) with 0%Q. nra.
  - rewrite Zlt_Qlt. eapply Qle_lt_trans; [apply Qfloor_le |]. nra.
Qed.

(** X9.  When the map holds proxies for the state asked for,
    [getProxyForLocation] returns one of them: the index drawn is always
    in range, so that the result is never [undefined]. *)
Theorem getProxyForLocation_picks_from_state (anyUSProxy : option ProxyConfig)
    (proxyByState : gmap string (list ProxyConfig)) (state : string)
    (stateProxies : list ProxyConfig) (r : Q) :
  proxyByState !! state = Some stateProxies ->
  stateProxies <> [] ->
  (0 <= r < 1)%Q ->
  exists p, getProxyForLocation anyUSProxy proxyByState state r = Some p
            /\ p ∈ stateProxies.
Proof.
  intros Hstate Hne Hr. unfold getProxyForLocation. rewrite Hstate.
  destruct stateProxies as [|p0 rest]; [done |].
  destruct (floor_index_in_range r (length (p0 :: rest)) Hr ltac:(cbn; lia)) as [Hlo Hhi].
  rewrite (proj2 (Z.ltb_ge _ _) Hlo).
  destruct (lookup_lt_is_Some_2 (p0 :: rest)
              (Z.to_nat (Qfloor (r * inject_Z (Z.of_nat (length (p0 :: rest)))))))
    as [p Hp]; [lia |].
  exists p. split; [done |]. by eapply list_elem_of_lookup_2.
Qed.

Lemma getProxyForLocation_picks_from_state_witness :
  exists p, getProxyForLocation None {[ "NY" := twoProxies ]} "NY" (3 # 4) = Some p
            /\ p ∈ twoProxies.
Proof.
  apply (getProxyForLocation_picks_from_state None {[ "NY" := twoProxies ]} "NY"
           twoProxies (3 # 4)).
  - reflexivity.
  - discriminate.
  - split; [discriminate | reflexivity].
Defined.

End ProxySessionsFacts.

(** ** withRetry and monitorStock: success and failure *)

Module RetryMonitorMore.
Import Js.

Section FirstSuccess.
Import Retry.
Context {T : Type}.
Variable fn : nat -> completion T.
Variable maxAttempts : Z.
Variable delayMs : Z.

(** [k] failures, then a success, all within [maxAttempts]. *)
Lemma loop_first_success (k fuel : nat) (attempt : Z) (ncalls : nat)
    (lastError : option Error) (v : T) :
  (forall j, (j < k)%nat -> exists e, fn (ncalls + j) = Throw e) ->
  fn (ncalls + k) = Return v ->
  attempt + Z.of_nat k <= maxAttempts ->
  (k < fuel)%nat ->
  fst (retryLoop fn maxAttempts delayMs fuel attempt ncalls lastError) = Resolved v
  /\ invocations (snd (retryLoop fn maxAttempts delayMs fuel attempt ncalls lastError))
     = seqZ attempt (Z.of_nat k + 1)
  /\ sleeps (snd (retryLoop fn maxAttempts delayMs fuel attempt ncalls lastError))
     = (fun a => delayMs * a) <$> seqZ attempt (Z.of_nat k)
  /\ last (snd (retryLoop fn maxAttempts delayMs fuel attempt ncalls lastError))
     = Some (Invoke (attempt + Z.of_nat k)).
Proof.
  revert fuel attempt ncalls lastError.
  induction k as [|k IH]; intros fuel attempt ncalls lastError Hfail Hok Hle Hfuel;
    (destruct fuel as [|fuel]; [lia |]).
  - rewrite Nat.add_0_r in Hok.
    rewrite (RetryFacts.loop_return _ _ _ _ _ _ _ v) by (done || lia).
    cbn. rewrite Z.add_0_r. done.
  - destruct (Hfail 0%nat ltac:(lia)) as [e He]. rewrite Nat.add_0_r in He.
    rewrite (RetryFacts.loop_throw _ _ _ _ _ _ _ e) by (done || lia).
    cbn [fst snd].
    destruct (IH fuel (attempt + 1) (S ncalls) (Some e)) as (Hfst & Hinv & Hsl & Hlast).
    { intros j Hj. replace (S ncalls + j)%nat with (ncalls + S j)%nat by lia.
      apply Hfail. lia. }
    { by replace (S ncalls + k)%nat with (ncalls + S k)%nat by lia. }
    { lia. }
    { lia. }
    rewrite (proj2 (Z.ltb_lt attempt maxAttempts)) by lia.
    repeat split.
    + exact Hfst.
    + unfold invocations in *. cbn. rewrite Hinv.
      rewrite (seqZ_cons attempt) by lia. change (Z.succ attempt) with (attempt + 1).
      do 2 f_equal. lia.
    + unfold sleeps in *. cbn. rewrite Hsl.
      rewrite (seqZ_cons attempt (Z.of_nat (S k))) by lia.
      change (Z.succ attempt) with (attempt + 1). cbn. do 3 f_equal. lia.
    + cbn [app]. rewrite !last_cons, Hlast. f_equal. f_equal. lia.
Qed.

End FirstSuccess.

Lemma sum_linear (d a : Z) (k : nat) :
  2 * foldr Z.add 0 ((fun x => d * x) <$> seqZ a (Z.of_nat k))
  = d * Z.of_nat k * (2 * a + Z.of_nat k - 1).
Proof.
  revert a. induction k as [|k IH]; intros a; [rewrite seqZ_nil by done; cbn; lia |].
  rewrite (seqZ_cons a) by lia. cbn [fmap list_fmap foldr].
  replace (Z.pred (Z.of_nat (S k))) with (Z.of_nat k) by lia.
  change (Z.succ a) with (a + 1).
  specialize (IH (a + 1)). cbn [fmap] in IH. nia.
Qed.

(** X10.  If the first [k] invocations of [fn] throw, the next one returns
    [v], and [k < maxAttempts], then [withRetry] resolves with [v]:
    [fn] is invoked [k + 1] times and not again after its success, the
    pauses are [delayMs], ..., [k * delayMs], and they add up to
    [delayMs * k * (k + 1) / 2]. *)
Theorem withRetry_resolves_with_first_success {T : Type} (fn : nat -> completion T)
    (maxAttempts delayMs : Z) (k : nat) (v : T) :
  (forall j, (j < k)%nat -> exists e, fn j = Throw e) ->
  fn k = Return v ->
  Z.of_nat k < maxAttempts ->
  fst (Retry.withRetry fn maxAttempts delayMs) = Retry.Resolved v
  /\ Retry.invocations (snd (Retry.withRetry fn maxAttempts delayMs))
     = seqZ 1 (Z.of_nat k + 1)
  /\ last (snd (Retry.withRetry fn maxAttempts delayMs))
     = Some (Retry.Invoke (Z.of_nat k + 1))
  /\ Retry.sleeps (snd (Retry.withRetry fn maxAttempts delayMs))
     = (fun a => delayMs * a) <$> seqZ 1 (Z.of_nat k)
  /\ 2 * foldr Z.add 0 (Retry.sleeps (snd (Retry.withRetry fn maxAttempts delayMs)))
     = delayMs * Z.of_nat k * (Z.of_nat k + 1).
Proof.
  intros Hfail Hok Hk. unfold Retry.withRetry.
  destruct (loop_first_success fn maxAttempts delayMs k (S (Z.to_nat maxAttempts)) 1 0 None v)
    as (Hfst & Hinv & Hsl & Hlast); try done; try lia.
  repeat split; try done.
  - rewrite Hlast. do 2 f_equal. lia.
  - rewrite Hsl, sum_linear. lia.
Qed.

Lemma withRetry_resolves_with_first_success_witness :
  fst (Retry.withRetry
         (fun j => if (j <? 2)%nat then Throw (mkError "busy") else Return j) 3 1000)
  = Retry.Resolved 2%nat
  /\ Retry.invocations
       (snd (Retry.withRetry
               (fun j => if (j <? 2)%nat then Throw (mkError "busy") else Return j) 3 1000))
     = seqZ 1 (Z.of_nat 2 + 1)
  /\ last (snd (Retry.withRetry
                  (fun j => if (j <? 2)%nat then Throw (mkError "busy") else Return j)
                  3 1000))
     = Some (Retry.Invoke (Z.of_nat 2 + 1))
  /\ Retry.sleeps
       (snd (Retry.withRetry
               (fun j => if (j <? 2)%nat then Throw (mkError "busy") else Return j) 3 1000))
     = (fun a => 1000 * a) <$> seqZ 1 (Z.of_nat 2)
  /\ 2 * foldr Z.add 0
           (Retry.sleeps
              (snd (Retry.withRetry
                      (fun j => if (j <? 2)%nat then Throw (mkError "busy") else Return j)
                      3 1000)))
     = 1000 * Z.of_nat 2 * (Z.of_nat 2 + 1).
Proof.
  apply (withRetry_resolves_with_first_success
           (fun j => if (j <? 2)%nat then Throw (mkError "busy") else Return j) 3 1000 2 2%nat).
  - intros j Hj. exists (mkError "busy"). by rewrite (proj2 (Nat.ltb_lt j 2) Hj).
  - reflexivity.
  - lia.
Defined.

(** X11.  [monitorStock] does not catch: if the checks before the
    [m]-th report out of stock and the [m]-th throws, the promise is
    rejected with that error after [m + 1] checks and [m] sleeps. *)
Theorem monitorStock_rejects_when_check_throws
    (checkStock : nat -> completion Monitor.StockStatus) (random : nat -> Q)
    (checkInterval : Q) (m fuel : nat) (e : Error) :
  (forall k, (k < m)%nat -> Monitor.outOfStockAt checkStock k) ->
  checkStock m = Throw e ->
  fst (Monitor.monitorStock checkStock random checkInterval (m + S fuel))
  = Monitor.Rejected e
  /\ Monitor.checks (snd (Monitor.monitorStock checkStock random checkInterval (m + S fuel)))
     = seq 0 (S m)
  /\ length (Monitor.sleeps
               (snd (Monitor.monitorStock checkStock random checkInterval (m + S fuel))))
     = m.
Proof.
  intros Hout Hthrow. unfold Monitor.monitorStock.
  destruct (MonitorFacts.loop_waits checkStock random checkInterval m (S fuel) 0 Hout)
    as (Hfst & Hchecks & Hsleeps).
  cbn [Nat.add] in Hfst, Hchecks, Hsleeps.
  assert (Monitor.monitorLoop checkStock random checkInterval (S fuel) m
          = (Monitor.Rejected e, [Monitor.CheckStock m])) as Hstep.
  { cbn. by rewrite Hthrow. }
  rewrite Hstep in Hfst, Hchecks, Hsleeps. cbn [fst snd] in Hfst, Hchecks, Hsleeps.
  rewrite Hfst, Hchecks, Hsleeps. repeat split.
  - by rewrite seq_S.
  - rewrite length_app, length_fmap, length_seq. cbn. lia.
Qed.

Lemma monitorStock_rejects_when_check_throws_witness :
  fst (Monitor.monitorStock
         (fun n => if (n <? 2)%nat then Return Monitor.outOfStock
                   else Throw (mkError "net::ERR_TIMED_OUT"))
         Monitor.half Monitor.defaultCheckInterval (2 + 1))
  = Monitor.Rejected (mkError "net::ERR_TIMED_OUT")
  /\ Monitor.checks
       (snd (Monitor.monitorStock
               (fun n => if (n <? 2)%nat then Return Monitor.outOfStock
                         else Throw (mkError "net::ERR_TIMED_OUT"))
               Monitor.half Monitor.defaultCheckInterval (2 + 1)))
     = seq 0 3
  /\ length (Monitor.sleeps
               (snd (Monitor.monitorStock
                       (fun n => if (n <? 2)%nat then Return Monitor.outOfStock
                                 else Throw (mkError "net::ERR_TIMED_OUT"))
                       Monitor.half Monitor.defaultCheckInterval (2 + 1))))
     = 2%nat.
Proof.
  apply (monitorStock_rejects_when_check_throws
           (fun n => if (n <? 2)%nat then Return Monitor.outOfStock
                     else Throw (mkError "net::ERR_TIMED_OUT"))
           Monitor.half Monitor.defaultCheckInterval 2 0 (mkError "net::ERR_TIMED_OUT")).
  - intros k Hk. exists Monitor.outOfStock.
    by rewrite (proj2 (Nat.ltb_lt k 2) Hk).
  - reflexivity.
Defined.

End RetryMonitorMore.

(** ** The launcher: the life of the browser handles *)

Module LauncherFacts.
Import Js Eff Launcher.

Ltac step_prog :=
  unfold mbind, mret, prog_bind, prog_ret, bind, pure, await, emit, get, put, throw,
    tryCatch in *.

(** What a launch does when each of its four calls returns. *)
Lemma launchBrowser_returns (pw : Playwright) (options : BrowserOptions) (st : Store)
    (b : Browser) (c : BrowserContext) (p : Page) :
  launch pw (default false (headless options)) = Return b ->
  newContext pw b (proxy options) = Return c ->
  addInitScript pw c = Return tt ->
  newPage pw c = Return p ->
  launchBrowser pw options st
  = (mkStore (Some b) (Some c) (Some p), [Log "Browser launched with stealth mode"],
     Return p).
Proof.
  intros Hb Hc Hs Hp.
  unfold launchBrowser, setBrowser, setContext, setPage. step_prog.
  rewrite Hb. cbn. rewrite Hc. cbn. rewrite Hs. cbn. rewrite Hp. reflexivity.
Qed.

(** X12.  After a launch whose calls into Playwright all return,
    [getPage] returns the page just opened, and the three variables hold
    the new handles, whatever they held before. *)
Theorem getPage_after_launch (pw : Playwright) (options : BrowserOptions) (st : Store)
    (b : Browser) (c : BrowserContext) (p : Page) :
  launch pw (default false (headless options)) = Return b ->
  newContext pw b (proxy options) = Return c ->
  addInitScript pw c = Return tt ->
  newPage pw c = Return p ->
  (launchBrowser pw options ≫= fun _ => getPage) st
  = (mkStore (Some b) (Some c) (Some p), [Log "Browser launched with stealth mode"],
     Return p).
Proof.
  intros Hb Hc Hs Hp.
  unfold mbind at 1, prog_bind, bind.
  rewrite (launchBrowser_returns pw options st b c p Hb Hc Hs Hp).
  reflexivity.
Qed.

Lemma getPage_after_launch_witness :
  (launchBrowser (McpServer.pw McpServer.calmWorld) (mkOptions None None)
     ≫= fun _ => getPage)
    (mkStore (Some (BrowserHandle 7)) (Some (ContextHandle 7)) (Some (PageHandle 7)))
  = (mkStore (Some (BrowserHandle 0)) (Some (ContextHandle 0)) (Some (PageHandle 0)),
     [Log "Browser launched with stealth mode"], Return (PageHandle 0)).
Proof.
  apply (getPage_after_launch (McpServer.pw McpServer.calmWorld) (mkOptions None None)
           (mkStore (Some (BrowserHandle 7)) (Some (ContextHandle 7)) (Some (PageHandle 7)))
           (BrowserHandle 0) (ContextHandle 0) (PageHandle 0));
    reflexivity.
Defined.

(** X13.  A launch that throws never assigns [page] and logs nothing:
    [getPage] answers as it did before the attempt.  When the throw comes
    after [chromium.launch] returned, the new browser handle stays in
    [browser]. *)
Theorem failed_launch_leaves_page (pw : Playwright) (options : BrowserOptions)
    (st st' : Store) (tr : list event) (e : Error) :
  launchBrowser pw options st = (st', tr, Throw e) ->
  page st' = page st
  /\ tr = []
  /\ getPage st' = (st', [], snd (getPage st))
  /\ (forall b, launch pw (default false (headless options)) = Return b ->
        browser st' = Some b).
Proof.
  unfold launchBrowser, setBrowser, setContext, setPage. step_prog.
  destruct (launch pw (default false (headless options))) as [b | eb]; cbn.
  - destruct (newContext pw b (proxy options)) as [c | ec]; cbn.
    + destruct (addInitScript pw c) as [[] | es]; cbn.
      * destruct (newPage pw c) as [p | ep]; cbn; [discriminate |].
        intros [= <- <- <-]. cbn. repeat split; try done.
        -- unfold getPage. step_prog. cbn. by destruct (page st).
        -- by intros b' [= <-].
      * intros [= <- <- <-]. cbn. repeat split; try done.
        -- unfold getPage. step_prog. cbn. by destruct (page st).
        -- by intros b' [= <-].
    + intros [= <- <- <-]. cbn. repeat split; try done.
      * unfold getPage. step_prog. cbn. by destruct (page st).
      * by intros b' [= <-].
  - intros [= <- <- <-]. repeat split; try done.
    unfold getPage. step_prog. cbn. by destruct (page st).
Qed.

(** A Playwright whose [browser.newContext] throws. *)
Lemma failed_launch_leaves_page_witness :
  page (mkStore (Some (BrowserHandle 0)) None None) = page initial
  /\ [] = @nil event
  /\ getPage (mkStore (Some (BrowserHandle 0)) None None)
     = (mkStore (Some (BrowserHandle 0)) None None, [], snd (getPage initial))
  /\ (forall b,
        Return (BrowserHandle 0) = Return b ->
        browser (mkStore (Some (BrowserHandle 0)) None None) = Some b).
Proof.
  apply (failed_launch_leaves_page
           {| launch := fun _ => Return (BrowserHandle 0);
              newContext := fun _ _ => Throw (mkError "proxy refused");
              addInitScript := fun _ => Return tt;
              newPage := fun _ => Return (PageHandle 0);
              closePage := fun _ => Return tt;
              closeContext := fun _ => Return tt;
              closeBrowserProcess := fun _ => Return tt;
              cookies := fun _ => Return "[]";
              writeFile := fun _ _ => Return tt;
              readFile := fun _ => Return "[]";
              parse := fun _ => Return (JsonValue 0);
              addCookies := fun _ _ => Return tt |}
           (mkOptions None None) initial
           (mkStore (Some (BrowserHandle 0)) None None) [] (mkError "proxy refused")).
  reflexivity.
Defined.

(** X14.  [closeBrowser] is all or nothing on the three variables: when
    it returns they are all [null] (so that [getPage] throws again) and
    one line is logged; when one of its calls throws they are all as
    before, those not yet closed included. *)
Theorem closeBrowser_all_or_nothing (pw : Playwright) (st st' : Store)
    (tr : list event) (r : completion unit) :
  closeBrowser pw st = (st', tr, r) ->
  match r with
  | Return _ =>
      st' = initial /\ tr = [Log "Browser closed"]
      /\ getPage st'
         = (st', [], Throw (mkError "Browser not launched. Call launchBrowser() first."))
  | Throw _ => st' = st /\ tr = []
  end.
Proof.
  unfold closeBrowser, setBrowser, setContext, setPage. step_prog.
  destruct st as [ob oc op]. cbn.
  destruct op as [p |]; cbn;
    [destruct (closePage pw p) as [[] | e1]; cbn; [| by intros [= <- <- <-]] |];
    (destruct oc as [c |]; cbn;
     [destruct (closeContext pw c) as [[] | e2]; cbn; [| by intros [= <- <- <-]] |]);
    (destruct ob as [b |]; cbn;
     [destruct (closeBrowserProcess pw b) as [[] | e3]; cbn; [| by intros [= <- <- <-]] |]);
    by intros [= <- <- <-].
Qed.

Lemma closeBrowser_all_or_nothing_witness :
  initial = initial /\ [Log "Browser closed"] = [Log "Browser closed"]
  /\ getPage initial
     = (initial, [], Throw (mkError "Browser not launched. Call launchBrowser() first.")).
Proof.
  apply (closeBrowser_all_or_nothing (McpServer.pw McpServer.calmWorld)
           (mkStore (Some (BrowserHandle 0)) (Some (ContextHandle 0)) (Some (PageHandle 0)))
           initial [Log "Browser closed"] (Return tt)).
  reflexivity.
Defined.

(** A readable file that is not JSON: [loadCookies] returns [false],
    although [addCookies] would have accepted anything. *)
Example loadCookies_not_json :
  loadCookies brokenFile "./data/cookies/costco.json"
    (mkStore (Some (BrowserHandle 0)) (Some (ContextHandle 0)) (Some (PageHandle 0)))
  = (mkStore (Some (BrowserHandle 0)) (Some (ContextHandle 0)) (Some (PageHandle 0)),
     [Log "No cookies found"], Return false).
Proof. reflexivity. Qed.

(** X15.  With a browser context, [loadCookies] never throws and changes
    none of the three variables: it returns [true] when the file was
    read, its text parsed and the cookies added, and [false] when one of
    the three threw.  Without a context it throws [No browser context],
    and so does [saveCookies]. *)
Theorem loadCookies_never_throws_with_context (pw : Playwright) (filepath : string)
    (st : Store) :
  match context st with
  | Some c =>
      exists (loaded : bool) (tr : list event),
        loadCookies pw filepath st = (st, tr, Return loaded)
        /\ (loaded = true <->
            exists data parsed,
              readFile pw filepath = Return data
              /\ parse pw data = Return parsed
              /\ addCookies pw c parsed = Return tt)
  | None =>
      loadCookies pw filepath st = (st, [], Throw (mkError "No browser context"))
      /\ saveCookies pw filepath st = (st, [], Throw (mkError "No browser context"))
  end.
Proof.
  unfold loadCookies, saveCookies. step_prog. cbn.
  destruct (context st) as [c |]; [| done].
  destruct (readFile pw filepath) as [data | e1] eqn:Hread; cbn.
  - destruct (parse pw data) as [parsed | e2] eqn:Hparse; cbn.
    + destruct (addCookies pw c parsed) as [[] | e3] eqn:Hadd; cbn.
      * exists true, [Log "Cookies loaded"]. split; [done |]. split; [| done].
        intros _. by exists data, parsed.
      * exists false, [Log "No cookies found"]. split; [done |]. split; [done |].
        intros (data' & parsed' & [= <-] & Hp & Hadd'). congruence.
    + exists false, [Log "No cookies found"]. split; [done |]. split; [done |].
      intros (data' & parsed' & [= <-] & Hp & _). congruence.
  - exists false, [Log "No cookies found"]. split; [done |]. split; [done |].
    by intros (data' & parsed' & Hd & _).
Qed.

End LauncherFacts.

(** ** The MCP server: tools advertised, failures reported *)

Module McpServerMore.
Import Js Eff Launcher McpServer McpTools.

Ltac step_prog :=
  unfold mbind, mret, prog_bind, prog_ret, bind, pure, await, emit, get, put, throw,
    tryCatch in *.

Ltac pick_tool := cbn [String.eqb Ascii.eqb Bool.eqb].

Example advertised_names :
  toolNames
  = ["launch_browser"; "screenshot"; "navigate"; "click"; "type_text"; "scroll";
     "get_page_info"; "check_element"; "wait"; "save_session"; "load_session";
     "close_browser"].
Proof. reflexivity. Qed.

(** X16.  A name that is not among the tools advertised is answered with
    [isError: true] and the text [Unknown tool: name]; nothing is logged
    and the browser variables are untouched. *)
Theorem unknown_tool_is_an_error (w : World) (name : string) (args : Args) (st : Store) :
  name ∉ toolNames ->
  handleToolCall w name args st = (st, [], Throw (mkError ("Unknown tool: " +:+ name)))
  /\ callTool w name (Some args) st
     = (st, [], Return (mkResponse (ErrorText ("Unknown tool: " +:+ name)) (Some true))).
Proof.
  intros Hname.
  assert (handleToolCall w name args st
          = (st, [], Throw (mkError ("Unknown tool: " +:+ name)))) as Hthrow.
  { unfold toolNames, tools in Hname. cbn in Hname.
    repeat (apply not_elem_of_cons in Hname as [?%String.eqb_neq Hname]).
    unfold handleToolCall.
    repeat match goal with H : String.eqb _ _ = false |- _ => rewrite H; clear H end.
    reflexivity. }
  split; [exact Hthrow |].
  rewrite McpServerFacts.callTool_catches.
  change (default noArgs (Some args)) with args. by rewrite Hthrow.
Qed.

Lemma unknown_tool_is_an_error_witness :
  handleToolCall calmWorld "costco_add_to_cart" noArgs initial
  = (initial, [], Throw (mkError ("Unknown tool: " +:+ "costco_add_to_cart")))
  /\ callTool calmWorld "costco_add_to_cart" (Some noArgs) initial
     = (initial, [],
        Return (mkResponse (ErrorText ("Unknown tool: " +:+ "costco_add_to_cart"))
                  (Some true))).
Proof.
  apply (unknown_tool_is_an_error calmWorld "costco_add_to_cart" noArgs initial).
  apply (bool_decide_unpack ("costco_add_to_cart" ∉ toolNames)). vm_compute. exact I.
Defined.





(** X18.  A failure on the page is reported in two ways.  [click] and
    [type_text] catch it and answer [{ success: false, error }] in an
    ordinary response, without [isError]; the other five page tools let
    it through, and the handler answers with [isError: true].  In both
    cases the text is the message of the error. *)
Theorem page_failure_is_reported (w : World) (tool : string) (args : Args) (st : Store)
    (p : Page) (e : Error) :
  page st = Some p ->
  pageWork w tool args p = Throw e ->
  (tool ∈ ["click"; "type_text"] ->
   exists tr, callTool w tool (Some args) st
              = (st, tr, Return (mkResponse (ResultText (Unsuccessful (message e))) None)))
  /\ (tool ∈ ["screenshot"; "navigate"; "scroll"; "get_page_info"; "check_element"] ->
      exists tr, callTool w tool (Some args) st
                 = (st, tr, Return (mkResponse (ErrorText (message e)) (Some true)))).
Proof.
  intros Hpage Hwork.
  split; intros Htool;
    repeat (apply elem_of_cons in Htool as [-> | Htool]);
    try (by apply elem_of_nil in Htool);
    rewrite McpServerFacts.callTool_catches;
    change (default noArgs (Some args)) with args;
    unfold handleToolCall; pick_tool; unfold getPage; step_prog; cbn;
    rewrite Hpage; cbn; rewrite Hwork; cbn; eauto.
Qed.

Lemma page_failure_is_reported_witness :
  exists tr,
    callTool (mkWorld (pw calmWorld) (mkdir calmWorld)
                (fun _ _ _ => Throw (mkError "Element not found: #buy")))
      "click" (Some noArgs) (mkStore None None (Some (PageHandle 0)))
    = (mkStore None None (Some (PageHandle 0)), tr,
       Return (mkResponse
                 (ResultText (Unsuccessful (message (mkError "Element not found: #buy"))))
                 None)).
Proof.
  apply (proj1 (page_failure_is_reported
                  (mkWorld (pw calmWorld) (mkdir calmWorld)
                     (fun _ _ _ => Throw (mkError "Element not found: #buy")))
                  "click" noArgs (mkStore None None (Some (PageHandle 0)))
                  (PageHandle 0) (mkError "Element not found: #buy")
                  eq_refl eq_refl)).
  left.
Defined.

Lemma closeBrowser_resets (pw : Playwright) (st st' : Store) (tr : list event) :
  closeBrowser pw st = (st', tr, Return tt) -> st' = initial.
Proof.
  unfold closeBrowser, setBrowser, setContext, setPage. step_prog.
  destruct st as [ob oc op]. cbn.
  destruct op as [p |]; cbn;
    [destruct (closePage pw p) as [[] | e1]; cbn; [| discriminate] |];
    (destruct oc as [c |]; cbn;
     [destruct (closeContext pw c) as [[] | e2]; cbn; [| discriminate] |]);
    (destruct ob as [b |]; cbn;
     [destruct (closeBrowserProcess pw b) as [[] | e3]; cbn; [| discriminate] |]);
    by intros [= <- <-].
Qed.

(** X19.  Once [close_browser] has answered without [isError], each of
    the seven page tools is answered with [isError: true] and the
    message of [getPage], as before any launch; the call leaves no
    event and the variables [null]. *)
Theorem page_tools_fail_after_close (w : World) (request : option Args)
    (st st' : Store) (tr : list event) (result : ToolResult)
    (tool : string) (args : Args) :
  callTool w "close_browser" request st
  = (st', tr, Return (mkResponse (ResultText result) None)) ->
  tool ∈ browserTools ->
  callTool w tool (Some args) st'
  = (st', [],
     Return (mkResponse (ErrorText "Browser not launched. Call launchBrowser() first.")
               (Some true))).
Proof.
  intros Hclose Htool.
  assert (st' = initial) as ->.
  { rewrite McpServerFacts.callTool_catches in Hclose.
    unfold handleToolCall in Hclose. pick_tool.
    cbn [String.eqb Ascii.eqb Bool.eqb] in Hclose.
    unfold mbind at 1, prog_bind, bind in Hclose.
    destruct (closeBrowser (pw w) st) as [[st1 tr1] [[] | e]] eqn:Hc; [| discriminate].
    cbn in Hclose. injection Hclose as <- _ _.
    by eapply closeBrowser_resets. }
  rewrite McpServerFacts.callTool_catches.
  change (default noArgs (Some args)) with args.
  unfold browserTools in Htool.
  repeat (apply elem_of_cons in Htool as [-> | Htool]);
    [.. | by apply elem_of_nil in Htool];
    unfold handleToolCall; pick_tool;
    by rewrite (McpServerFacts.bind_throw _ _ _ _ _ _
                  (McpServerFacts.getPage_not_launched initial eq_refl)).
Qed.

Lemma page_tools_fail_after_close_witness :
  callTool calmWorld "get_page_info" (Some noArgs) initial
  = (initial, [],
     Return (mkResponse (ErrorText "Browser not launched. Call launchBrowser() first.")
               (Some true))).
Proof.
  apply (page_tools_fail_after_close calmWorld None
           (mkStore (Some (BrowserHandle 0)) (Some (ContextHandle 0)) (Some (PageHandle 0)))
           initial [Log "Browser closed"] (Success "Browser closed")
           "get_page_info" noArgs).
  - reflexivity.
  - unfold browserTools. do 5 right. left.
Defined.

(** X20.  The session tools need a browser context.  Without one,
    [load_session] is answered with [isError: true] and
    [No browser context], and so is [save_session] once its directory
    was made.  With one, [load_session] is never an error: a file that
    cannot be read gives [success: false]. *)
Theorem session_tools_need_context (w : World) (args : Args) (st : Store) :
  match context st with
  | None =>
      callTool w "load_session" (Some args) st
      = (st, [], Return (mkResponse (ErrorText "No browser context") (Some true)))
      /\ (mkdir w "./data/cookies" = Return tt ->
          callTool w "save_session" (Some args) st
          = (st, [], Return (mkResponse (ErrorText "No browser context") (Some true))))
  | Some c =>
      exists (loaded : bool) (tr : list event),
        callTool w "load_session" (Some args) st
        = (st, tr, Return (mkResponse (ResultText (Session loaded)) None))
  end.
Proof.
  rewrite !McpServerFacts.callTool_catches.
  change (default noArgs (Some args)) with args.
  unfold handleToolCall. pick_tool. unfold loadCookies, saveCookies. step_prog. cbn.
  destruct (context st) as [c |].
  - destruct (readFile (pw w) _) as [data | e1]; cbn; [| by eauto].
    destruct (parse (pw w) data) as [parsed | e2]; cbn; [| by eauto].
    destruct (addCookies (pw w) c parsed) as [[] | e3]; cbn; by eauto.
  - split; [done |]. intros ->. cbn. reflexivity.
Qed.

Lemma session_tools_need_context_witness :
  callTool calmWorld "load_session" (Some noArgs) initial
  = (initial, [], Return (mkResponse (ErrorText "No browser context") (Some true)))
  /\ callTool calmWorld "save_session" (Some noArgs) initial
     = (initial, [], Return (mkResponse (ErrorText "No browser context") (Some true))).
Proof.
  destruct (session_tools_need_context calmWorld noArgs initial) as [Hload Hsave].
  split; [exact Hload | apply Hsave; reflexivity].
Defined.

End McpServerMore.

(** ** Human-like input: delays, typing, clicking, moving, scrolling *)

Module HumanFacts.
Import Js Eff Page Human.

Example randomDelay_steady :
  randomDelay steady 100 300 0 = (200, [Sleep 200], Return tt).
Proof. reflexivity. Qed.

(** Typing [a b]: the pause after the space is longer. *)
Example humanType_steady :
  typed (snd (fst (humanType steady "#logonId" [97; 32; 98]%N 0))) = [97; 32; 98]%N
  /\ sleeps (snd (fst (humanType steady "#logonId" [97; 32; 98]%N 0))) = [200; 80; 125; 80].
Proof. vm_compute. auto. Qed.

(** Typing the one code unit of U+00E9: one key, two sleeps. *)
Example humanType_e_acute :
  typed (snd (fst (humanType steady "#logonId" [233]%N 0))) = [233]%N
  /\ sleeps (snd (fst (humanType steady "#logonId" [233]%N 0))) = [200; 80].
Proof. vm_compute. auto. Qed.

(** How a sequence runs. *)
Lemma run_bind {W Ev A B : Type} (m : Eff.prog W Ev A) (f : A -> Eff.prog W Ev B) (w : W) :
  (m ≫= f) w
  = match m w with
    | (w1, t1, Return a) =>
        match f a w1 with
        | (w2, t2, r) => (w2, t1 ++ t2, r)
        end
    | (w1, t1, Throw e) => (w1, t1, Throw e)
    end.
Proof. reflexivity. Qed.

Lemma run_ret {W Ev A : Type} (a : A) (w : W) :
  (mret a : Eff.prog W Ev A) w = (w, [], Return a).
Proof. reflexivity. Qed.

Lemma call_run {W A : Type} (ev : event) (op : W -> completion A * W) (w : W) :
  call ev op w = (snd (op w), [ev], fst (op w)).
Proof. unfold call. by destruct (op w). Qed.

Lemma floor_in_range (r : Q) (n : Z) :
  (0 <= r < 1)%Q -> 0 < n -> 0 <= Qfloor (r * inject_Z n) < n.
Proof.
  intros [H0 H1] Hn.
  assert (0 < inject_Z n)%Q as Hpos.
  { change 0%Q with (inject_Z 0). rewrite <- Zlt_Qlt. lia. }
  split.
  - change 0 with (Qfloor (inject_Z 0)) at 1.
    apply Qfloor_resp_le. change (inject_Z 0) with 0%Q. nra.
  - rewrite Zlt_Qlt. eapply Qle_lt_trans; [apply Qfloor_le |]. nra.
Qed.

Section Random.
Context {W : Type}.
Variable ops : Ops W.

(** [Math.random()] returns a number of [[0, 1)]. *)
Hypothesis random_unit : forall w, (0 <= fst (random ops w) < 1)%Q.

Lemma draw_run (w : W) :
  draw ops w = (snd (random ops w), [], Return (fst (random ops w))).
Proof. unfold draw. by destruct (random ops w). Qed.

Lemma randomInt_run (n k : Z) (w : W) :
  0 < n ->
  exists v, randomInt ops n k w = (snd (random ops w), [], Return v) /\ k <= v < k + n.
Proof.
  intros Hn. unfold randomInt. rewrite run_bind, draw_run.
  exists (Qfloor (fst (random ops w) * inject_Z n) + k). split; [reflexivity |].
  pose proof (floor_in_range (fst (random ops w)) n (random_unit w) Hn). lia.
Qed.

Lemma randomDelay_run (min max : Z) (w : W) :
  min <= max ->
  exists d, randomDelay ops min max w
            = (elapse ops d (snd (random ops w)), [Sleep d], Return tt)
            /\ min <= d <= max.
Proof.
  intros Hle. unfold randomDelay. rewrite run_bind.
  destruct (randomInt_run (max - min + 1) min w ltac:(lia)) as (d & -> & Hd).
  exists d. split; [reflexivity | lia].
Qed.

Lemma keyDelay_run (char : CodeUnit) (w : W) :
  exists d w', keyDelay ops char w = (w', [], Return d) /\ 30 <= d <= 577.
Proof.
  unfold keyDelay. rewrite run_bind.
  destruct (randomInt_run 80 30 w ltac:(lia)) as (d0 & -> & Hd0). cbn [fst snd].
  rewrite run_bind, draw_run. cbn [fst snd]. rewrite run_bind.
  set (w2 := snd (random ops (snd (random ops w)))).
  destruct (Qle_bool (1 # 20) (fst (random ops (snd (random ops w))))).
  - rewrite run_ret. destruct (pauseAfter char).
    + rewrite run_bind.
      destruct (randomInt_run 50 20 w2 ltac:(lia)) as (d2 & -> & Hd2).
      rewrite run_ret. eexists _, _. split; [reflexivity | lia].
    + rewrite run_ret. eexists _, _. split; [reflexivity | lia].
  - rewrite run_bind.
    destruct (randomInt_run 300 100 w2 ltac:(lia)) as (d1 & -> & Hd1).
    rewrite run_ret. destruct (pauseAfter char).
    + rewrite run_bind.
      destruct (randomInt_run 50 20 (snd (random ops w2)) ltac:(lia)) as (d2 & -> & Hd2).
      rewrite run_ret. eexists _, _. split; [reflexivity | lia].
    + rewrite run_ret. eexists _, _. split; [reflexivity | lia].
Qed.

Lemma typeLoop_run (text : JsString) (w : W) :
  typed (snd (fst (typeLoop ops text w))) `prefix_of` text
  /\ Forall (fun d => 30 <= d <= 597) (sleeps (snd (fst (typeLoop ops text w))))
  /\ (snd (typeLoop ops text w) = Return tt ->
      typed (snd (fst (typeLoop ops text w))) = text
      /\ length (sleeps (snd (fst (typeLoop ops text w)))) = length text).
Proof.
  revert w. induction text as [|char rest IH]; intros w.
  - cbn. repeat split; done.
  - cbn [typeLoop length].
    rewrite run_bind, call_run.
    destruct (keyboardType ops char w) as [[[] | e] w1]; cbn [fst snd].
    + rewrite run_bind.
      destruct (keyDelay_run char w1) as (d & w2 & -> & Hd).
      rewrite run_bind.
      destruct (randomDelay_run d (d + 20) w2 ltac:(lia)) as (d' & -> & Hd').
      specialize (IH (elapse ops d' (snd (random ops w2)))).
      destruct (typeLoop ops rest (elapse ops d' (snd (random ops w2)))) as [[w3 tr] r].
      cbn [fst snd] in *. destruct IH as (Hpre & Hsl & Hret).
      change (typed ([KeyType char] ++ [] ++ [Sleep d'] ++ tr)) with (char :: typed tr).
      change (sleeps ([KeyType char] ++ [] ++ [Sleep d'] ++ tr)) with (d' :: sleeps tr).
      repeat split.
      * by apply prefix_cons.
      * constructor; [lia | done].
      * destruct (Hret H) as [-> _]. done.
      * destruct (Hret H) as [_ Hlen]. cbn. by rewrite Hlen.
    + repeat split; try done.
      apply prefix_cons, prefix_nil.
Qed.

(** X21.  [randomDelay(min, max)], for integers [min <= max], sleeps once,
    for a whole number of milliseconds that is at least [min] and at
    most [max], and never throws. *)
Theorem randomDelay_within_bounds (min max : Z) (w : W) :
  min <= max ->
  exists d w',
    randomDelay ops min max w = (w', [Sleep d], Return tt) /\ min <= d <= max.
Proof.
  intros Hle. destruct (randomDelay_run min max w Hle) as (d & Hrun & Hd).
  by exists d, (elapse ops d (snd (random ops w))).
Qed.

(** X22.  [humanType] types the code units of [text], in order and once
    each: the keys typed are always a prefix of [text], and all of it
    when the function returns.  It then has paused once after the first
    click and once after each key, [text.length + 1] times in all, and
    every pause lasts between 30 and 597 ms. *)
Theorem humanType_types_the_text (selector : string) (text : JsString) (w : W) :
  typed (snd (fst (humanType ops selector text w))) `prefix_of` text
  /\ Forall (fun d => 30 <= d <= 597) (sleeps (snd (fst (humanType ops selector text w))))
  /\ (snd (humanType ops selector text w) = Return tt ->
      typed (snd (fst (humanType ops selector text w))) = text
      /\ length (sleeps (snd (fst (humanType ops selector text w))))
         = S (length text)).
Proof.
  unfold humanType. rewrite run_bind, call_run.
  destruct (click ops selector w) as [[[] | e] w1]; cbn [fst snd].
  - rewrite run_bind.
    destruct (randomDelay_run 100 300 w1 ltac:(lia)) as (d & -> & Hd).
    pose proof (typeLoop_run text (elapse ops d (snd (random ops w1)))) as Hloop.
    destruct (typeLoop ops text (elapse ops d (snd (random ops w1)))) as [[w2 tr] r].
    cbn [fst snd] in *. destruct Hloop as (Hpre & Hsl & Hret).
    change (typed ([Click selector] ++ [Sleep d] ++ tr)) with (typed tr).
    change (sleeps ([Click selector] ++ [Sleep d] ++ tr)) with (d :: sleeps tr).
    repeat split; try done.
    + constructor; [lia | done].
    + by destruct (Hret H) as [-> _].
    + destruct (Hret H) as [_ Hlen]. cbn. by rewrite Hlen.
  - repeat split; try done. apply prefix_nil.
Qed.

(** *** Moving the pointer *)

Lemma moveStep_run (steps : Z) (x y : Q) (i : Z) (w : W) :
  exists rx ry w' tr r,
    moveStep ops steps x y i w = (w', tr, r)
    /\ (0 <= rx < 1)%Q /\ (0 <= ry < 1)%Q
    /\ moves tr = [target steps x y i rx ry]
    /\ mouseClicks tr = [].
Proof.
  unfold moveStep. rewrite run_bind, draw_run. cbn [fst snd].
  rewrite run_bind, draw_run. cbn [fst snd].
  rewrite run_bind, call_run.
  exists (fst (random ops w)), (fst (random ops (snd (random ops w)))).
  destruct (mouseMove ops _ _ _) as [[[] | e] w1]; cbn [fst snd].
  - destruct (randomDelay_run 5 15 w1 ltac:(lia)) as (d & -> & Hd).
    eexists _, _, _. split; [reflexivity |]. repeat split; try apply random_unit.
  - eexists _, _, _. split; [reflexivity |]. repeat split; try apply random_unit.
Qed.

Lemma moveLoop_run (count : nat) (steps : Z) (x y : Q) (i : Z) (w : W) :
  mouseClicks (snd (fst (moveLoop ops count steps x y i w))) = []
  /\ (snd (moveLoop ops count steps x y i w) = Return tt ->
      length (moves (snd (fst (moveLoop ops count steps x y i w)))) = count
      /\ (count <> 0%nat ->
          exists rx ry,
            (0 <= rx < 1)%Q /\ (0 <= ry < 1)%Q
            /\ last (moves (snd (fst (moveLoop ops count steps x y i w))))
               = Some (target steps x y (i + Z.of_nat count - 1) rx ry))).
Proof.
  revert i w. induction count as [|count IH]; intros i w; [done |].
  cbn [moveLoop]. rewrite run_bind.
  destruct (moveStep_run steps x y i w) as (rx & ry & w1 & tr1 & r1 & -> & Hrx & Hry & Hm & Hc).
  destruct r1 as [[] | e]; cbn [fst snd].
  - specialize (IH (i + 1) w1).
    destruct (moveLoop ops count steps x y (i + 1) w1) as [[w2 tr2] r2].
    cbn [fst snd] in *. destruct IH as [Hc2 Hret].
    unfold mouseClicks, moves in *. rewrite !omap_app, Hc, Hc2, Hm.
    split; [done |]. intros Hr. destruct (Hret Hr) as [Hlen Hlast].
    split; [cbn; by rewrite Hlen |]. intros _.
    destruct count as [|count'].
    + exists rx, ry. repeat split; try tauto.
      apply nil_length_inv in Hlen. rewrite Hlen.
      by replace (i + Z.of_nat 1 - 1) with i by lia.
    + destruct (Hlast ltac:(done)) as (rx' & ry' & Hrx' & Hry' & Hl).
      exists rx', ry'. repeat split; try tauto.
      cbn [app]. rewrite last_cons, Hl.
      by replace (i + 1 + Z.of_nat (S count') - 1) with (i + Z.of_nat (S (S count')) - 1)
        by lia.
  - split; [by unfold mouseClicks in * |]. done.
Qed.

Lemma ease_at_end (steps : Z) :
  steps <> 0 -> (ease (inject_Z steps / inject_Z steps) == 1)%Q.
Proof.
  intros Hne.
  assert (inject_Z steps / inject_Z steps == 1)%Q as Hp.
  { apply Qmult_inv_r. unfold Qeq. cbn. lia. }
  unfold ease.
  assert (Qle_bool (1 # 2) (inject_Z steps / inject_Z steps) = true) as ->.
  { apply Qle_bool_iff. rewrite Hp. discriminate. }
  rewrite Hp. reflexivity.
Qed.

(** X23.  When [humanMouseMove] returns it has moved the pointer between
    11 and 25 times and never clicked, and the last move ends within
    1.5 px of the target in each direction. *)
Theorem humanMouseMove_reaches_target (x y : Q) (w : W) :
  snd (humanMouseMove ops x y w) = Return tt ->
  (11 <= length (moves (snd (fst (humanMouseMove ops x y w)))) <= 25)%nat
  /\ mouseClicks (snd (fst (humanMouseMove ops x y w))) = []
  /\ exists mx my,
       last (moves (snd (fst (humanMouseMove ops x y w)))) = Some (mx, my)
       /\ (x - (3 # 2) <= mx < x + (3 # 2))%Q
       /\ (y - (3 # 2) <= my < y + (3 # 2))%Q.
Proof.
  unfold humanMouseMove. rewrite run_bind.
  destruct (randomInt_run 15 10 w ltac:(lia)) as (steps & -> & Hsteps).
  pose proof (moveLoop_run (Z.to_nat (steps + 1)) steps x y 0 (snd (random ops w))) as Hloop.
  destruct (moveLoop ops (Z.to_nat (steps + 1)) steps x y 0 (snd (random ops w)))
    as [[w1 tr] r].
  cbn [fst snd app] in *. destruct Hloop as [Hclicks Hret].
  intros Hr. destruct (Hret Hr) as [Hlen Hlast].
  destruct (Hlast ltac:(lia)) as (rx & ry & Hrx & Hry & Hl).
  replace (0 + Z.of_nat (Z.to_nat (steps + 1)) - 1) with steps in Hl by lia.
  repeat split; try lia; try done.
  pose proof (ease_at_end steps ltac:(lia)) as Hease.
  eexists _, _. split; [exact Hl |].
  cbn [fst snd]. rewrite !Hease. split; split; lra.
Qed.

Lemma humanMouseMove_never_clicks (x y : Q) (w : W) :
  mouseClicks (snd (fst (humanMouseMove ops x y w))) = [].
Proof.
  unfold humanMouseMove. rewrite run_bind.
  destruct (randomInt_run 15 10 w ltac:(lia)) as (steps & -> & _).
  pose proof (moveLoop_run (Z.to_nat (steps + 1)) steps x y 0 (snd (random ops w)))
    as [Hc _].
  by destruct (moveLoop ops _ steps x y 0 _) as [[w1 tr] r].
Qed.

(** The clicks of [humanClick] on an element that has a box. *)
Lemma humanClick_run (selector : string) (w w1 w2 : W) (el : Element) (b : Box) :
  query ops selector w = (Return (Some el), w1) ->
  boundingBox ops el w1 = (Return (Some b), w2) ->
  exists rx ry,
    (0 <= rx < 1)%Q /\ (0 <= ry < 1)%Q
    /\ ((mouseClicks (snd (fst (humanClick ops selector w))) = []
         /\ snd (humanClick ops selector w) <> Return tt)
        \/ mouseClicks (snd (fst (humanClick ops selector w)))
           = [((box_x b + width b * ((3 # 10) + rx * (4 # 10)))%Q,
               (box_y b + height b * ((3 # 10) + ry * (4 # 10)))%Q)]).
Proof.
  intros Hq Hb. unfold humanClick.
  rewrite run_bind, call_run, Hq. cbn [fst snd].
  rewrite run_bind, call_run, Hb. cbn [fst snd].
  rewrite run_bind, draw_run. cbn [fst snd].
  rewrite run_bind, draw_run. cbn [fst snd].
  exists (fst (random ops w2)), (fst (random ops (snd (random ops w2)))).
  split; [apply random_unit |]. split; [apply random_unit |].
  set (cx := (box_x b + width b * ((3 # 10) + fst (random ops w2) * (4 # 10)))%Q).
  set (cy := (box_y b + height b
                * ((3 # 10) + fst (random ops (snd (random ops w2))) * (4 # 10)))%Q).
  set (w3 := snd (random ops (snd (random ops w2)))).
  rewrite run_bind.
  pose proof (humanMouseMove_never_clicks cx cy w3) as Hnoclick.
  destruct (humanMouseMove ops cx cy w3) as [[w4 tr4] [[] | e4]]; cbn [fst snd] in *.
  - rewrite run_bind.
    destruct (randomDelay_run 50 150 w4 ltac:(lia)) as (d1 & -> & _). cbn [fst snd].
    rewrite run_bind, call_run.
    destruct (mouseClick ops cx cy _) as [[[] | e5] w5]; cbn [fst snd].
    + destruct (randomDelay_run 100 300 w5 ltac:(lia)) as (d2 & -> & _). cbn [fst snd].
      right. unfold mouseClicks in *. rewrite !omap_app, Hnoclick.
      reflexivity.
    + right. unfold mouseClicks in *. rewrite !omap_app, Hnoclick.
      reflexivity.
  - left. split; [| done].
    unfold mouseClicks in *. rewrite !omap_app, Hnoclick. reflexivity.
Qed.

(** X24.  [humanClick] clicks where it has moved the pointer, inside the
    element: when the selector finds an element with a bounding box of
    width and height at least 0, there is at most one click, exactly one
    when the function returns, and it falls between 30% and 70% of the
    width and of the height of the box.  When the selector finds nothing
    the function throws [Element not found] and touches neither pointer
    nor box. *)
Theorem humanClick_clicks_inside_the_element (selector : string) (w w1 w2 : W)
    (el : Element) (b : Box) :
  query ops selector w = (Return (Some el), w1) ->
  boundingBox ops el w1 = (Return (Some b), w2) ->
  (0 <= width b)%Q ->
  (0 <= height b)%Q ->
  Forall (fun c => (box_x b + (3 # 10) * width b <= fst c <= box_x b + (7 # 10) * width b)%Q
                   /\ (box_y b + (3 # 10) * height b <= snd c
                       <= box_y b + (7 # 10) * height b)%Q)
    (mouseClicks (snd (fst (humanClick ops selector w))))
  /\ (length (mouseClicks (snd (fst (humanClick ops selector w)))) <= 1)%nat
  /\ (snd (humanClick ops selector w) = Return tt ->
      length (mouseClicks (snd (fst (humanClick ops selector w)))) = 1%nat)
  /\ (forall v v', query ops selector v = (Return None, v') ->
        humanClick ops selector v
        = (v', [Query selector], Throw (mkError ("Element not found: " +:+ selector)))).
Proof.
  intros Hq Hb Hw Hh.
  destruct (humanClick_run selector w w1 w2 el b Hq Hb)
    as (rx & ry & Hrx & Hry & [[Hnone Hthrow] | Hone]).
  - rewrite Hnone. repeat split; try done; try (cbn; lia).
    intros v v' Hv. unfold humanClick. by rewrite run_bind, call_run, Hv.
  - rewrite Hone. repeat split; try done; try (cbn; lia).
    + constructor; [| done]. cbn [fst snd]. split; split; nra.
    + intros v v' Hv. unfold humanClick. by rewrite run_bind, call_run, Hv.
Qed.

(** *** Scrolling *)




End Random.

(** *** Waiting for an element *)

Section Clock.
Context {W : Type}.
Variable ops : Ops W.

Hypothesis random_unit : forall w, (0 <= fst (random ops w) < 1)%Q.

(** A timer does not fire early, and the clock does not run backwards
    while the page is queried or a number drawn. *)
Hypothesis timer_waits : forall ms w, now ops w + ms <= now ops (elapse ops ms w).
Hypothesis query_forward : forall sel w, now ops w <= now ops (snd (query ops sel w)).
Hypothesis random_forward : forall w, now ops w <= now ops (snd (random ops w)).

Lemma waitLoop_run (fuel : nat) (selector : string) (timeout startTime : Z) (w : W) :
  (1 <= fuel)%nat ->
  timeout - (now ops w - startTime) <= 200 * (Z.of_nat fuel - 1) ->
  snd (waitLoop ops fuel selector timeout startTime w) <> Return OutOfFuel
  /\ 200 * Z.of_nat (length (queries (snd (fst (waitLoop ops fuel selector timeout
                                                   startTime w)))))
     < Z.max (timeout - (now ops w - startTime)) 0 + 200
  /\ Forall (fun sel => sel = selector)
       (queries (snd (fst (waitLoop ops fuel selector timeout startTime w))))
  /\ (snd (waitLoop ops fuel selector timeout startTime w) = Return TimedOut ->
      timeout <= now ops (fst (fst (waitLoop ops fuel selector timeout startTime w)))
                 - startTime).
Proof.
  revert w. induction fuel as [|fuel IH]; intros w Hfuel Hleft; [lia |].
  cbn [waitLoop]. rewrite run_bind. unfold clock. cbn [fst snd].
  destruct (Z.ltb_spec (now ops w - startTime) timeout) as [Hlt | Hge].
  - rewrite run_bind, call_run.
    pose proof (query_forward selector w) as Hq.
    destruct (query ops selector w) as [[[el |] | e] w1]; cbn [fst snd] in *.
    + rewrite run_bind.
      destruct (randomDelay_run ops random_unit 100 300 w1 ltac:(lia)) as (d & -> & _).
      cbn. repeat split; try done; try lia. by repeat constructor.
    + rewrite run_bind.
      destruct (randomDelay_run ops random_unit 200 500 w1 ltac:(lia)) as (d & -> & Hd).
      cbn [fst snd].
      pose proof (random_forward w1) as Hr.
      pose proof (timer_waits d (snd (random ops w1))) as Ht.
      specialize (IH (elapse ops d (snd (random ops w1))) ltac:(lia) ltac:(lia)).
      destruct (waitLoop ops fuel selector timeout startTime _) as [[w2 tr] r].
      cbn [fst snd] in *. destruct IH as (Hout & Hpolls & Hsel & Htimed).
      change (queries ([] ++ [Query selector] ++ [Sleep d] ++ tr))
        with (selector :: queries tr).
      repeat split; try done.
      * cbn [length]. lia.
      * by constructor.
    + cbn. repeat split; try done; try lia. by repeat constructor.
  - cbn. repeat split; try done; lia.
Qed.

(** X26.  [humanWaitFor] ends: with a clock that does not run backwards
    and timers that do not fire early, it queries the page at most once
    per 200 ms of [timeout] (rounded up), only for the selector it was
    given, and it returns [null] only when [timeout] ms have passed since
    it started. *)
Theorem humanWaitFor_gives_up_after_timeout (fuel : nat) (selector : string)
    (timeout : Z) (w : W) :
  (1 <= fuel)%nat ->
  timeout <= 200 * (Z.of_nat fuel - 1) ->
  snd (humanWaitFor ops fuel selector timeout w) <> Return OutOfFuel
  /\ 200 * Z.of_nat (length (queries (snd (fst (humanWaitFor ops fuel selector timeout w)))))
     < Z.max timeout 0 + 200
  /\ Forall (fun sel => sel = selector)
       (queries (snd (fst (humanWaitFor ops fuel selector timeout w))))
  /\ (snd (humanWaitFor ops fuel selector timeout w) = Return TimedOut ->
      timeout <= now ops (fst (fst (humanWaitFor ops fuel selector timeout w)))
                 - now ops w).
Proof.
  intros Hfuel Htimeout. unfold humanWaitFor. rewrite run_bind.
  unfold clock. cbn [fst snd].
  pose proof (waitLoop_run fuel selector timeout (now ops w) w Hfuel ltac:(lia)) as Hloop.
  destruct (waitLoop ops fuel selector timeout (now ops w) w) as [[w1 tr] r].
  cbn [fst snd app] in *. destruct Hloop as (Hout & Hpolls & Hsel & Htimed).
  repeat split; try done. lia.
Qed.

End Clock.

Lemma steady_random_unit (w : Z) : (0 <= fst (random steady w) < 1)%Q.
Proof. split; [discriminate | reflexivity]. Qed.

Lemma randomDelay_within_bounds_witness :
  exists d w',
    randomDelay steady 2000 4000 0 = (w', [Sleep d], Return tt) /\ 2000 <= d <= 4000.
Proof.
  apply (randomDelay_within_bounds steady steady_random_unit 2000 4000 0). lia.
Defined.

Lemma humanType_types_the_text_witness :
  typed (snd (fst (humanType steady "#logonId" [233; 32; 98]%N 0))) = [233; 32; 98]%N
  /\ length (sleeps (snd (fst (humanType steady "#logonId" [233; 32; 98]%N 0))))
     = S (length [233; 32; 98]%N).
Proof.
  apply (humanType_types_the_text steady steady_random_unit "#logonId" [233; 32; 98]%N 0).
  reflexivity.
Defined.

Lemma humanMouseMove_reaches_target_witness :
  (11 <= length (moves (snd (fst (humanMouseMove steady 640 360 0%Z)))) <= 25)%nat
  /\ mouseClicks (snd (fst (humanMouseMove steady 640 360 0))) = []
  /\ exists mx my,
       last (moves (snd (fst (humanMouseMove steady 640 360 0)))) = Some (mx, my)
       /\ (640 - (3 # 2) <= mx < 640 + (3 # 2))%Q
       /\ (360 - (3 # 2) <= my < 360 + (3 # 2))%Q.
Proof.
  apply (humanMouseMove_reaches_target steady steady_random_unit 640 360 0).
  vm_compute. reflexivity.
Defined.

Lemma humanClick_clicks_inside_the_element_witness :
  length (mouseClicks (snd (fst (humanClick steady "#add-to-cart-btn" 0)))) = 1%nat.
Proof.
  apply (humanClick_clicks_inside_the_element steady steady_random_unit "#add-to-cart-btn"
           0 0 0 (ElementHandle 0) (mkBox 100 200 80 40)).
  - reflexivity.
  - reflexivity.
  - discriminate.
  - discriminate.
  - vm_compute. reflexivity.
Defined.


Lemma barren_random_unit (w : Z) : (0 <= fst (random barren w) < 1)%Q.
Proof. split; [discriminate | reflexivity]. Qed.

Lemma humanWaitFor_gives_up_after_timeout_witness :
  snd (humanWaitFor barren 60 "#placeOrderBtn" defaultWaitTimeout 0) <> Return OutOfFuel
  /\ 200 * Z.of_nat (length (queries (snd (fst (humanWaitFor barren 60 "#placeOrderBtn"
                                                  defaultWaitTimeout 0)))))
     < Z.max defaultWaitTimeout 0 + 200
  /\ Forall (fun sel => sel = "#placeOrderBtn")
       (queries (snd (fst (humanWaitFor barren 60 "#placeOrderBtn" defaultWaitTimeout 0))))
  /\ (snd (humanWaitFor barren 60 "#placeOrderBtn" defaultWaitTimeout 0) = Return TimedOut ->
      defaultWaitTimeout
      <= now barren (fst (fst (humanWaitFor barren 60 "#placeOrderBtn"
                                 defaultWaitTimeout 0)))
         - now barren 0).
Proof.
  apply (humanWaitFor_gives_up_after_timeout barren barren_random_unit).
  - intros ms w. cbn. lia.
  - intros sel w. cbn. lia.
  - intros w. cbn. lia.
  - lia.
  - unfold defaultWaitTimeout. lia.
Defined.

Example humanWaitFor_barren :
  snd (humanWaitFor barren 60 "#placeOrderBtn" defaultWaitTimeout 0) = Return TimedOut
  /\ length (queries (snd (fst (humanWaitFor barren 60 "#placeOrderBtn"
                                  defaultWaitTimeout 0)))) = 29%nat.
Proof. vm_compute. auto. Qed.

End HumanFacts.

(** ** Rules for traces *)

Module TraceRules.
Import Js Eff Traces.

Section Rules.
Context {W Ev : Type}.
Implicit Types good early late : Ev -> Prop.

Lemma always_ret good {A} (a : A) : always good (mret a : prog W Ev A).
Proof. intros w. constructor. Qed.

Lemma always_throw good {A} (msg : string) : always good (throw msg : prog W Ev A).
Proof. intros w. constructor. Qed.

Lemma always_bind good {A B} (m : prog W Ev A) (f : A -> prog W Ev B) :
  always good m -> (forall a, always good (f a)) -> always good (m ≫= f).
Proof.
  intros Hm Hf w. specialize (Hm w). unfold traceOf in *.
  change ((m ≫= f) w) with (bind m f w). unfold bind.
  destruct (m w) as [[w1 t1] [a | e]]; [| done].
  specialize (Hf a w1). unfold traceOf in Hf.
  destruct (f a w1) as [[w2 t2] r]. cbn in *. by apply Forall_app.
Qed.

Lemma always_tryCatch good {A} (body : prog W Ev A) (handler : Error -> prog W Ev A) :
  always good body -> (forall e, always good (handler e)) ->
  always good (tryCatch body handler).
Proof.
  intros Hb Hh w. specialize (Hb w). unfold traceOf, tryCatch in *.
  destruct (body w) as [[w1 t1] [a | e]]; [done |].
  specialize (Hh e w1). unfold traceOf in Hh.
  destruct (handler e w1) as [[w2 t2] r]. cbn in *. by apply Forall_app.
Qed.

Lemma always_orElse good {A} (body : prog W Ev A) (fallback : A) :
  always good body -> always good (orElse body fallback).
Proof. intros Hb. apply always_tryCatch; [done |]. intros e w. constructor. Qed.

Lemma always_weaken good good' {A} (m : prog W Ev A) :
  (forall ev, good ev -> good' ev) -> always good m -> always good' m.
Proof. intros Himp Hm w. eapply Forall_impl; [apply Hm | done]. Qed.

Lemma splits_early early late {A} (m : prog W Ev A) :
  always early m -> splits early late m.
Proof. intros Hm w. exists (traceOf m w), []. by rewrite app_nil_r. Qed.

Lemma splits_late early late {A} (m : prog W Ev A) :
  always late m -> splits early late m.
Proof. intros Hm w. by exists [], (traceOf m w). Qed.

(** A part that is [early], then a program that splits. *)
Lemma splits_bind early late {A B} (m : prog W Ev A) (f : A -> prog W Ev B) :
  always early m -> (forall a, splits early late (f a)) -> splits early late (m ≫= f).
Proof.
  intros Hm Hf w. specialize (Hm w). unfold traceOf in *.
  change ((m ≫= f) w) with (bind m f w). unfold bind.
  destruct (m w) as [[w1 t1] [a | e]].
  - destruct (Hf a w1) as (t2 & t3 & Heq & H2 & H3). unfold traceOf in Heq.
    destruct (f a w1) as [[w2 t] r]. cbn in *. subst t.
    exists (t1 ++ t2), t3. rewrite app_assoc. split; [done |].
    split; [by apply Forall_app | done].
  - cbn in *. exists t1, []. by rewrite app_nil_r.
Qed.

Lemma ensures_ret {A} (a : A) (post : A -> list Ev -> Prop) :
  post a [] -> ensures (mret a : prog W Ev A) post.
Proof. intros Hp w a' [= <-]. exact Hp. Qed.

Lemma ensures_bind {A B} (m : prog W Ev A) (f : A -> prog W Ev B)
    (mid : A -> list Ev -> Prop) (post : B -> list Ev -> Prop) :
  ensures m mid ->
  (forall a t1, mid a t1 -> ensures (f a) (fun b t2 => post b (t1 ++ t2))) ->
  ensures (m ≫= f) post.
Proof.
  intros Hm Hf w b. specialize (Hm w). unfold traceOf in *.
  change ((m ≫= f) w) with (bind m f w). unfold bind.
  destruct (m w) as [[w1 t1] [a | e]]; [| done].
  specialize (Hf a t1 (Hm a eq_refl) w1 b). unfold traceOf in Hf.
  destruct (f a w1) as [[w2 t2] r]. cbn in *. exact Hf.
Qed.

Lemma ensures_always good {A} (m : prog W Ev A) :
  always good m -> ensures m (fun _ t => Forall good t).
Proof. intros Hm w a _. apply Hm. Qed.

Lemma ensures_weaken {A} (m : prog W Ev A) (post post' : A -> list Ev -> Prop) :
  (forall a t, post a t -> post' a t) -> ensures m post -> ensures m post'.
Proof. intros Himp Hm w a Hr. by apply Himp, Hm. Qed.

End Rules.

End TraceRules.

(** ** The Costco script: what it types, clicks and never clicks *)

Module CostcoScriptFacts.
Import Js Eff Page Human Traces TraceRules CostcoScript.

Section Good.
Context {W : Type}.
Variable ops : Ops W.
Variable good : event -> Prop.

Lemma always_call {A} (ev : event) (op : W -> completion A * W) :
  good ev -> always good (call ev op).
Proof.
  intros Hev w. unfold traceOf. rewrite HumanFacts.call_run. by repeat constructor.
Qed.

Lemma always_draw : always good (draw ops).
Proof. intros w. unfold traceOf, draw. destruct (random ops w). constructor. Qed.

Lemma always_clock : always good (clock ops).
Proof. intros w. constructor. Qed.

Lemma always_randomInt (n k : Z) : always good (randomInt ops n k).
Proof.
  apply always_bind; [apply always_draw |]. intros r. apply always_ret.
Qed.

Lemma always_keyDelay (char : CodeUnit) : always good (keyDelay ops char).
Proof.
  unfold keyDelay.
  apply always_bind; [apply always_randomInt | intros d].
  apply always_bind; [apply always_draw | intros thinking].
  apply always_bind.
  - destruct (Qle_bool _ _); [apply always_ret |].
    apply always_bind; [apply always_randomInt | intros extra; apply always_ret].
  - intros d'. destruct (pauseAfter char); [| apply always_ret].
    apply always_bind; [apply always_randomInt | intros extra; apply always_ret].
Qed.

Hypothesis good_sleep : forall ms, good (Sleep ms).

Lemma always_randomDelay (min max : Z) : always good (randomDelay ops min max).
Proof.
  apply always_bind; [apply always_randomInt |].
  intros d w. by repeat constructor.
Qed.

Lemma always_humanMouseMove (x y : Q) :
  (forall mx my, good (MouseMove mx my)) -> always good (humanMouseMove ops x y).
Proof.
  intros Hmove. unfold humanMouseMove.
  apply always_bind; [apply always_randomInt | intros steps].
  generalize 0 as i. induction (Z.to_nat (steps + 1)) as [|count IH]; intros i.
  - apply always_ret.
  - cbn [moveLoop]. apply always_bind; [| intros _; apply IH].
    unfold moveStep.
    apply always_bind; [apply always_draw | intros rx].
    apply always_bind; [apply always_draw | intros ry].
    apply always_bind; [by apply always_call | intros _].
    apply always_randomDelay.
Qed.

Lemma always_humanClick (selector : string) :
  good (Query selector) ->
  (forall el, good (BoundingBox el)) ->
  (forall mx my, good (MouseMove mx my)) ->
  (forall cx cy, good (MouseClick cx cy)) ->
  always good (humanClick ops selector).
Proof.
  intros Hq Hb Hmove Hclick. unfold humanClick.
  apply always_bind; [by apply always_call | intros [el |]]; [| apply always_throw].
  apply always_bind; [by apply always_call | intros [b |]]; [| apply always_throw].
  apply always_bind; [apply always_draw | intros rx].
  apply always_bind; [apply always_draw | intros ry].
  apply always_bind; [by apply always_humanMouseMove | intros _].
  apply always_bind; [apply always_randomDelay | intros _].
  apply always_bind; [by apply always_call | intros _].
  apply always_randomDelay.
Qed.

Lemma always_humanType (selector : string) (text : JsString) :
  good (Click selector) ->
  (forall c, good (KeyType c)) ->
  always good (humanType ops selector text).
Proof.
  intros Hclick Hkey. unfold humanType.
  apply always_bind; [by apply always_call | intros _].
  apply always_bind; [apply always_randomDelay | intros _].
  induction text as [|char rest IH]; cbn [typeLoop]; [apply always_ret |].
  apply always_bind; [by apply always_call | intros _].
  apply always_bind; [apply always_keyDelay | intros d].
  apply always_bind; [apply always_randomDelay | intros _].
  exact IH.
Qed.

Lemma always_humanWaitFor (fuel : nat) (selector : string) (timeout : Z) :
  good (Query selector) -> always good (humanWaitFor ops fuel selector timeout).
Proof.
  intros Hq. unfold humanWaitFor.
  apply always_bind; [apply always_clock | intros start].
  induction fuel as [|fuel IH]; cbn [waitLoop]; [apply always_ret |].
  apply always_bind; [apply always_clock | intros t].
  destruct (t - start <? timeout); [| apply always_ret].
  apply always_bind; [by apply always_call | intros [el |]].
  - apply always_bind; [apply always_randomDelay | intros _; apply always_ret].
  - apply always_bind; [apply always_randomDelay | intros _; exact IH].
Qed.

Hypothesis good_log : forall s, good (Log s).

Lemma always_log (s : string) : always good (log (W := W) s).
Proof. by apply always_call. Qed.

Lemma always_notify (cfg : Costco.Config) (message : string) (urgent : bool) :
  (forall s, good (LogError s)) ->
  (forall url body, good (Post url body)) ->
  always good (notify ops cfg message urgent).
Proof.
  intros Herr Hpost w. unfold traceOf, notify.
  destruct (if truthy (Costco.discordWebhook cfg) then _ else _) as [sent w'].
  destruct (Costco.notify cfg sent message urgent tt) as [[u tr] r]. cbn.
  apply Forall_fmap, Forall_forall. intros ev _. destruct ev; cbn; auto.
Qed.

End Good.

Lemma checkout_is_not_place_order : checkoutButton <> placeOrderButton.
Proof. vm_compute. discriminate. Qed.

(** In the example world after a login, [login] types both fields
    ([a@b.c] and [pw]) and returns [true]. *)
Example login_signedIn :
  snd (login signedIn (mkCredentials [97; 64; 98; 46; 99]%N [112; 119]%N) 0)
  = Return true
  /\ typed (snd (fst (login signedIn (mkCredentials [97; 64; 98; 46; 99]%N [112; 119]%N) 0)))
     = [97; 64; 98; 46; 99; 112; 119]%N.
Proof. vm_compute. auto. Qed.

(** In the steady world [checkout] clicks once, on the checkout button,
    and finds the place-order button at its first look. *)
Example checkout_steady :
  snd (checkout steady (Costco.CONFIG "" "") 10 0) = Return (Some true)
  /\ length (mouseClicks (snd (fst (checkout steady (Costco.CONFIG "" "") 10 0)))) = 1%nat
  /\ queries (snd (fst (checkout steady (Costco.CONFIG "" "") 10 0)))
     = [checkoutButton; checkoutButton; placeOrderButton].
Proof. vm_compute. auto. Qed.

(** Discharge the side conditions on single events. *)
Ltac event_ok :=
  intros;
  first [ discriminate
        | split; intros; first [discriminate | intros [= Hsel]; by apply checkout_is_not_place_order]
        | split; intros; discriminate ].

(** Find the event among the kinds that are listed. *)
Ltac waits_ok :=
  intros;
  first [ by left
        | by right; left; eexists
        | by right; right; left; eexists
        | by right; right; right; left; eexists
        | by right; right; right; right; eexists
        | by right; right; right; right; do 2 eexists ].

(** X27.  [checkout] never places the order.  Every run, whatever the
    page does, is made of a part in which [page.click] is not called and
    the place-order button is not looked for, followed by a part that is
    nothing but queries for the place-order button, sleeps, console lines
    and posts to the webhook: once that button is looked for, nothing is
    clicked. *)
Theorem checkout_never_places_the_order {W : Type} (ops : Ops W) (cfg : Costco.Config)
    (fuel : nat) :
  splits (fun ev => ev <> Query placeOrderButton /\ forall s, ev <> Click s)
         (fun ev => ev = Query placeOrderButton \/ (exists ms, ev = Sleep ms)
                    \/ (exists s, ev = Log s) \/ (exists s, ev = LogError s)
                    \/ exists url body, ev = Post url body)
         (checkout ops cfg fuel).
Proof.
  unfold checkout.
  apply splits_bind; [apply always_log; event_ok | intros _].
  apply splits_bind; [apply always_call; event_ok | intros [el |]].
  - apply splits_bind; [apply always_humanClick; event_ok | intros _].
    apply splits_bind; [apply always_randomDelay; event_ok | intros _].
    apply splits_bind; [apply always_call; event_ok | intros _].
    apply splits_bind; [apply always_log; event_ok | intros _].
    apply splits_late.
    apply always_bind; [apply always_humanWaitFor; waits_ok | intros [found | |]].
    + apply always_bind; [apply always_log; waits_ok | intros _].
      apply always_bind; [apply always_notify; waits_ok | intros _].
      apply always_ret.
    + apply always_bind; [apply always_log; waits_ok | intros _].
      apply always_bind; [apply always_notify; waits_ok | intros _].
      apply always_ret.
    + apply always_ret.
  - apply splits_early.
    apply always_bind; [apply always_log; event_ok | intros _].
    apply always_bind; [apply always_call; event_ok | intros _].
    apply always_ret.
Qed.

(** *** What login types *)

Lemma typed_app (t1 t2 : list event) : typed (t1 ++ t2) = typed t1 ++ typed t2.
Proof. apply omap_app. Qed.

Lemma savedCookies_app (t1 t2 : list event) :
  savedCookies (t1 ++ t2) = savedCookies t1 ++ savedCookies t2.
Proof. apply omap_app. Qed.

(** An event that is neither a key typed nor a save of the cookies. *)
Lemma plain_trace (t : list event) :
  Forall (fun ev => (forall c, ev <> KeyType c) /\ forall path, ev <> SaveCookies path) t ->
  typed t = [] /\ savedCookies t = [].
Proof.
  induction 1 as [|ev t [Hk Hs] _ [IH1 IH2]]; [done |].
  unfold typed, savedCookies in *. cbn. rewrite IH1, IH2.
  destruct ev; try done; [by destruct (Hk char) | by destruct (Hs path)].
Qed.

Lemma ensures_call {W A : Type} (ev : event) (op : W -> completion A * W) :
  ensures (call ev op) (fun _ t => t = [ev]).
Proof. intros w a _. unfold traceOf. by rewrite HumanFacts.call_run. Qed.

Ltac plain_ok := intros; split; intros; discriminate.

(** A step that types nothing and saves nothing. *)
Ltac plain_step lemma :=
  eapply ensures_bind;
  [ apply (ensures_always
             (fun ev => (forall c, ev <> KeyType c) /\ forall path, ev <> SaveCookies path));
    lemma; plain_ok
  | let H := fresh "Hplain" in intros ? ? H; apply plain_trace in H as [? ?] ].

Ltac project :=
  rewrite ?typed_app, ?savedCookies_app;
  repeat match goal with
         | H : typed _ = _ |- _ => rewrite H; clear H
         | H : savedCookies _ = _ |- _ => rewrite H; clear H
         end;
  rewrite ?app_nil_r; cbn [app].

Lemma typeLoop_types {W : Type} (ops : Ops W) (text : JsString) :
  ensures (typeLoop ops text)
    (fun _ t => typed t = text /\ savedCookies t = []).
Proof.
  induction text as [|char rest IH]; cbn [typeLoop].
  - by apply ensures_ret.
  - eapply ensures_bind; [apply ensures_call | intros _ t1 ->].
    plain_step ltac:(apply always_keyDelay).
    plain_step ltac:(apply always_randomDelay).
    eapply ensures_weaken; [| exact IH].
    intros _ t4 [Ht Hs]. project. done.
Qed.

Lemma humanType_types {W : Type} (ops : Ops W) (selector : string) (text : JsString) :
  ensures (humanType ops selector text)
    (fun _ t => typed t = text /\ savedCookies t = []).
Proof.
  unfold humanType.
  plain_step ltac:(apply always_call).
  plain_step ltac:(apply always_randomDelay).
  eapply ensures_weaken; [| apply typeLoop_types].
  intros _ t3 [Ht Hs]. project. done.
Qed.

(** X28.  [login] returns [true] only after it has typed the e-mail and
    then the password, code unit by code unit, each in full and nothing
    else, and has saved the cookies once, to
    [./data/cookies/costco.json]. *)
Theorem login_types_the_credentials {W : Type} (ops : Ops W) (who : Credentials) :
  ensures (login ops who)
    (fun success t =>
       success = true ->
       typed t = costcoEmail who ++ costcoPassword who
       /\ savedCookies t = ["./data/cookies/costco.json"]).
Proof.
  unfold login.
  plain_step ltac:(apply always_log).
  plain_step ltac:(apply always_call).
  plain_step ltac:(apply always_randomDelay).
  eapply ensures_bind; [apply ensures_call | intros blocked t4 ->].
  destruct blocked as [el |].
  - plain_step ltac:(apply always_log). by apply ensures_ret.
  - eapply ensures_bind; [apply humanType_types | intros _ t5 [Hemail ?]].
    plain_step ltac:(apply always_randomDelay).
    eapply ensures_bind; [apply humanType_types | intros _ t7 [Hpassword ?]].
    plain_step ltac:(apply always_randomDelay).
    plain_step ltac:(apply always_humanClick).
    plain_step ltac:(apply always_randomDelay).
    eapply ensures_bind.
    { apply (ensures_always
               (fun ev => (forall c, ev <> KeyType c) /\ forall path, ev <> SaveCookies path)).
      unfold isLoggedIn.
      apply always_bind; [apply always_call; plain_ok | intros account].
      apply always_bind; [apply always_call; plain_ok | intros signIn].
      apply always_ret. }
    intros success t11 Hplain. apply plain_trace in Hplain as [? ?].
    destruct success.
    + eapply ensures_bind.
      { eapply ensures_bind;
          [apply (ensures_always
                    (fun ev => (forall c, ev <> KeyType c)
                               /\ forall path, ev <> SaveCookies path));
           apply always_log; plain_ok |].
        intros ? t12 Hplain. apply plain_trace in Hplain as [? ?].
        eapply ensures_weaken; [| apply ensures_call].
        intros ? t13 ->.
        instantiate (1 := fun _ t => typed t = []
                                     /\ savedCookies t = ["./data/cookies/costco.json"]).
        cbn beta. project. done. }
      intros ? t12 [? ?]. apply ensures_ret. intros _. project. done.
    + eapply ensures_bind;
        [apply (ensures_always (fun _ => True)); apply always_log; done |].
      intros ? t12 ?. by apply ensures_ret.
Qed.

(** X29.  [checkStock] only looks: every event of every run is the
    load of [url], a sleep, a query, a read of an element's text or a
    console line.  It never clicks, types, saves cookies or posts. *)
Theorem checkStock_only_reads {W : Type} (ops : Ops W) (trim : string -> string)
    (url : string) :
  always (fun ev => ev = Goto url \/ (exists ms, ev = Sleep ms)
                    \/ (exists sel, ev = Query sel) \/ (exists el, ev = TextContent el)
                    \/ exists s, ev = Log s)
    (checkStock ops trim url).
Proof.
  unfold checkStock.
  apply always_bind; [apply always_call; waits_ok | intros _].
  apply always_bind; [apply always_randomDelay; waits_ok | intros _].
  apply always_bind; [apply always_call; waits_ok | intros [blocked |]].
  - apply always_bind; [apply always_log; waits_ok | intros _].
    apply always_ret.
  - apply always_bind; [apply always_call; waits_ok | intros [btn |]].
    + apply always_bind; [apply always_call; waits_ok | intros text].
      apply always_ret.
    + apply always_bind; [apply always_call; waits_ok | intros [mark |]];
        apply always_ret.
Qed.

(** X30.  [addToCart] touches the page only through the pointer: in no
    run does it call [page.click], type, or save cookies.  When the
    enabled add-to-cart button is not on the page it returns [false]
    after that one query, without a click and without leaving the
    page. *)
Theorem addToCart_needs_enabled_button {W : Type} (ops : Ops W) (cfg : Costco.Config) :
  always (fun ev => (forall s, ev <> Click s) /\ (forall c, ev <> KeyType c)
                    /\ forall path, ev <> SaveCookies path)
    (addToCart ops cfg)
  /\ (forall w w', query ops enabledCartButton w = (Return None, w') ->
        addToCart ops cfg w
        = (w', [Log "🛒 Adding to cart..."; Query enabledCartButton;
                Log "❌ Add to cart button not found!"], Return false)).
Proof.
  split.
  - unfold addToCart.
    apply always_bind; [apply always_log; repeat split; discriminate | intros _].
    apply always_bind; [apply always_call; repeat split; discriminate | intros [btn |]].
    + apply always_bind; [apply always_humanClick; repeat split; discriminate | intros _].
      apply always_bind; [apply always_randomDelay; repeat split; discriminate | intros _].
      apply always_bind; [apply always_call; repeat split; discriminate | intros captcha].
      apply always_bind.
      { destruct captcha as [el |]; [| apply always_ret].
        apply always_bind; [apply always_log; repeat split; discriminate | intros _].
        apply always_bind; [apply always_notify; repeat split; discriminate | intros _].
        apply always_orElse.
        apply always_bind; [apply always_call; repeat split; discriminate | intros _].
        apply always_ret. }
      intros _.
      apply always_bind; [apply always_randomDelay; repeat split; discriminate | intros _].
      apply always_bind; [apply always_call; repeat split; discriminate | intros _].
      apply always_bind; [apply always_randomDelay; repeat split; discriminate | intros _].
      apply always_bind; [apply always_call; repeat split; discriminate | intros items].
      apply always_bind; [| intros _; apply always_ret].
      destruct (0 <? items)%nat; apply always_log; repeat split; discriminate.
    + apply always_bind; [apply always_log; repeat split; discriminate | intros _].
      apply always_ret.
  - intros w w' Hq. unfold addToCart, log.
    rewrite HumanFacts.run_bind, HumanFacts.call_run. cbn [fst snd].
    rewrite HumanFacts.run_bind, HumanFacts.call_run, Hq. cbn [fst snd].
    rewrite HumanFacts.run_bind, HumanFacts.call_run. cbn [fst snd].
    rewrite HumanFacts.run_ret. reflexivity.
Qed.

End CostcoScriptFacts.
